(** * PolyConvert: conversion pipeline, chunker and text normaliser

    A shallow embedding of the conversion core of the repository
    ([ufc.plugins.writers.txt_writer], [ufc.plugins.readers.*],
    [ufc.plugins.registry], [ufc.core.engine]) together with the properties
    its specification states about it.

    Python values are modelled as follows.
    - [str] is a sequence of Unicode code points; [len] counts code points,
      never bytes.
    - [int] is [Z] (unbounded).
    - A [while] loop is a function with a fuel argument returning [option];
      [None] stands for a loop that did not finish within the fuel. *)

From Stdlib Require Import ZArith Lia String Ascii DecimalString.
From stdpp Require Import gmap list sorting.

Local Open Scope Z_scope.

(** ** Python strings *)

Definition char := N.
Definition str := list char.

(** A literal of the source, read as its sequence of code points. *)
Definition lit (s : string) : str := map N_of_ascii (list_ascii_of_string s).

Definition LF : char := 10%N.
Definition CR : char := 13%N.
Definition TAB : char := 9%N.
Definition SPACE : char := 32%N.
Definition BACKSLASH : char := 92%N.

Definition len {A : Type} (s : list A) : Z := Z.of_nat (length s).

(** [s[lo:hi]]: a negative bound counts from the end, and both bounds are
    clamped into [0, len s]. *)
Definition slice_index (n i : Z) : Z :=
  if i <? 0 then Z.max 0 (i + n) else Z.min i n.

Definition slice (s : str) (lo hi : Z) : str :=
  let a := slice_index (len s) lo in
  let b := slice_index (len s) hi in
  take (Z.to_nat (b - a)) (drop (Z.to_nat a) s).

(** [a <= b] on strings: the order [sorted] uses, lexicographic on code
    points. *)
Fixpoint str_leb (a b : str) : bool :=
  match a, b with
  | [], _ => true
  | _ :: _, [] => false
  | x :: a', y :: b' =>
      if (x <? y)%N then true
      else if (x =? y)%N then str_leb a' b' else false
  end.

Definition str_le (a b : str) : Prop := str_leb a b = true.

#[global] Instance str_le_dec : RelDecision str_le.
Proof. intros a b. unfold str_le. apply _. Defined.

(** [sorted(l)] for a list of strings. *)
Definition sorted (l : list str) : list str := merge_sort str_le l.

(** [str.isspace] on one character: the code points Python treats as
    whitespace, which [strip()] and [rstrip()] without argument remove. *)
Definition isspace (c : char) : bool :=
  ((9 <=? c) && (c <=? 13) || (28 <=? c) && (c <=? 32)
   || (c =? 133) || (c =? 160) || (c =? 5760)
   || (8192 <=? c) && (c <=? 8202)
   || (c =? 8232) || (c =? 8233) || (c =? 8239) || (c =? 8287)
   || (c =? 12288))%N.

Fixpoint starts_with (p s : str) : bool :=
  match p, s with
  | [], _ => true
  | _ :: _, [] => false
  | a :: p', b :: s' => (a =? b)%N && starts_with p' s'
  end.

(** [s.replace(old, new)] for a non-empty [old]: occurrences are found from
    the left and do not overlap; [skip] counts the characters of the current
    occurrence still to be passed over. *)
Fixpoint replace_aux (old new : str) (skip : nat) (s : str) : str :=
  match s with
  | [] => []
  | c :: s' =>
      match skip with
      | S k => replace_aux old new k s'
      | O =>
          if starts_with old s
          then new ++ replace_aux old new (length old - 1) s'
          else c :: replace_aux old new 0 s'
      end
  end.

Definition replace (old new s : str) : str := replace_aux old new 0 s.

(** [s.split(sep)] for a one-character separator. *)
Fixpoint split (sep : char) (s : str) : list str :=
  match s with
  | [] => [[]]
  | c :: s' =>
      if (c =? sep)%N then [] :: split sep s'
      else match split sep s' with
           | l :: ls => (c :: l) :: ls
           | [] => [[c]]
           end
  end.

(** [sep.join(parts)]. *)
Fixpoint join (sep : str) (parts : list str) : str :=
  match parts with
  | [] => []
  | p :: ps =>
      match ps with
      | [] => p
      | _ :: _ => p ++ sep ++ join sep ps
      end
  end.

(** [lstrip], [rstrip] and [strip]; [p] says which characters are removed. *)
Fixpoint lstrip_by (p : char -> bool) (s : str) : str :=
  match s with
  | [] => []
  | c :: s' => if p c then lstrip_by p s' else s
  end.

Definition rstrip_by (p : char -> bool) (s : str) : str :=
  rev (lstrip_by p (rev s)).

Definition strip_by (p : char -> bool) (s : str) : str :=
  rstrip_by p (lstrip_by p s).

Definition one_of (chars : str) (c : char) : bool :=
  existsb (N.eqb c) chars.

Definition strip (s : str) : str := strip_by isspace s.
Definition rstrip (s : str) : str := rstrip_by isspace s.
Definition strip_chars (chars s : str) : str := strip_by (one_of chars) s.

(** [re.compile("[cls]+").sub(repl, s)]: every maximal run of characters of
    the class is replaced by one [repl]; [in_run] tells that the previous
    character belonged to the run being replaced. *)
Fixpoint re_plus_sub (cls : char -> bool) (repl : str) (in_run : bool)
    (s : str) : str :=
  match s with
  | [] => []
  | c :: s' =>
      if cls c then
        if in_run then re_plus_sub cls repl true s'
        else repl ++ re_plus_sub cls repl true s'
      else c :: re_plus_sub cls repl false s'
  end.

(** A string that does not begin with a character of [p]. *)
Definition bare_head (p : char -> bool) (s : str) : Prop :=
  match s with
  | [] => True
  | c :: _ => p c = false
  end.

(** A line in which [_WS_RE] has nothing left to do: no tab, and no space
    followed by another space. *)
Fixpoint collapsed (s : str) : Prop :=
  match s with
  | [] => True
  | c :: s' =>
      c <> TAB /\ (c = SPACE -> bare_head (N.eqb SPACE) s') /\ collapsed s'
  end.

(** ** The shared text normaliser *)

(** [_WS_RE = re.compile(r"[ \t]+")] and its [sub]. *)
Definition _WS_RE (c : char) : bool := ((c =? SPACE) || (c =? TAB))%N.
Definition _WS_RE_sub (repl line : str) : str := re_plus_sub _WS_RE repl false line.

(** ** [txt_writer.chunk_text] *)

(** The [while start < n] loop of [chunk_text]; [chunks] is the list being
    appended to. *)
Fixpoint chunk_loop (fuel : nat) (text : str) (chunk_size overlap : Z)
    (start : Z) (chunks : list str) {struct fuel} : option (list str) :=
  let n := len text in
  if start <? n then
    match fuel with
    | O => None
    | S fuel' =>
        let end_ := Z.min n (start + chunk_size) in
        let chunks := chunks ++ [slice text start end_] in
        if end_ >=? n then Some chunks
        else chunk_loop fuel' text chunk_size overlap (end_ - overlap) chunks
    end
  else Some chunks.

Definition chunk_text (text : str) (chunk_size overlap : Z) : option (list str) :=
  if chunk_size <=? 0 then Some [text]
  else
    let overlap :=
      if 1 <? chunk_size then Z.max 0 (Z.min overlap (chunk_size - 1)) else 0 in
    chunk_loop (S (length text)) text chunk_size overlap 0 [].

(** Gluing chunks back together: the first chunk whole, every later chunk
    without its first [overlap] characters. *)
Definition reassemble (overlap : Z) (chunks : list str) : str :=
  match chunks with
  | [] => []
  | c :: rest => c ++ concat (map (drop (Z.to_nat overlap)) rest)
  end.

(** The 16-character text of [test_txt_writer_chunking]. *)
Definition sample16 : str := lit "Hello World 123" ++ [LF].

(** ** Exceptions and effects *)

(** [core.errors] and the exceptions of the plugins.  [OtherException] is any
    other instance of [Exception], [NonException] an instance of
    [BaseException] only ([KeyboardInterrupt], [SystemExit]); both carry the
    class name and the text [str(e)].  [raise ... from e] records the
    cause. *)
Inductive pyexc : Type :=
  | UnsupportedExtensionError (msg : str)
  | ConversionFailedError (msg : str) (cause : pyexc)
  | RuntimeError (msg : str) (cause : pyexc)
  | OtherException (cls msg : str)
  | NonException (cls msg : str).

(** [isinstance(e, Exception)], the test of [except Exception]. *)
Definition is_Exception (e : pyexc) : bool :=
  match e with
  | NonException _ _ => false
  | _ => true
  end.

(** [str(e)], what an f-string prints for [{e}]. *)
Definition exc_str (e : pyexc) : str :=
  match e with
  | UnsupportedExtensionError msg => msg
  | ConversionFailedError msg _ => msg
  | RuntimeError msg _ => msg
  | OtherException _ msg => msg
  | NonException _ msg => msg
  end.

(** The result of a call of the source that can return or raise. *)
Inductive result (A : Type) : Type :=
  | Return (a : A)
  | Raise (e : pyexc).
Arguments Return {A} a.
Arguments Raise {A} e.

(** A statement run in a world [W] (the file system and everything else
    outside the process): it returns, raises, or does not terminate. *)
Inductive outcome (W A : Type) : Type :=
  | Returned (a : A) (w : W)
  | Raised (e : pyexc) (w : W)
  | Diverged.
Arguments Returned {W A} a w.
Arguments Raised {W A} e w.
Arguments Diverged {W A}.

Definition M (W A : Type) : Type := W -> outcome W A.

Definition ret {W A : Type} (a : A) : M W A := fun w => Returned a w.

Definition bind {W A B : Type} (m : M W A) (k : A -> M W B) : M W B :=
  fun w =>
    match m w with
    | Returned a w' => k a w'
    | Raised e w' => Raised e w'
    | Diverged => Diverged
    end.

Definition raise {W A : Type} (e : pyexc) : M W A := fun w => Raised e w.

Definition diverge {W A : Type} : M W A := fun _ => Diverged.

(** [try: body except Exception as e: handler(e)]. *)
Definition try_except {W A : Type} (body : M W A) (handler : pyexc -> M W A)
    : M W A :=
  fun w =>
    match body w with
    | Raised e w' => if is_Exception e then handler e w' else Raised e w'
    | other => other
    end.

Notation "x <- m ;; k" := (bind m (fun x => k))
  (at level 100, m at next level, right associativity).
Notation "m ;;; k" := (bind m (fun _ => k))
  (at level 100, right associativity).

(** [for x in l: body(x)]. *)
Fixpoint for_each {W A : Type} (body : A -> M W unit) (l : list A) : M W unit :=
  match l with
  | [] => ret tt
  | x :: l' => body x ;;; for_each body l'
  end.

(** [enumerate(l, start)]. *)
Fixpoint enumerate {A : Type} (start : Z) (l : list A) : list (Z * A) :=
  match l with
  | [] => []
  | x :: l' => (start, x) :: enumerate (start + 1) l'
  end.

(** ** [core.models] *)

Inductive Block : Type :=
  | ParagraphBlock (text : str) (is_header is_footer : bool)
  | TableBlock (rows : list (list str)) (is_header is_footer : bool).

Record DocumentModel : Type := mkDocumentModel {
  blocks : list Block;
  metadata : gmap str str
}.

Definition is_TableBlock (b : Block) : bool :=
  match b with
  | TableBlock _ _ _ => true
  | ParagraphBlock _ _ _ => false
  end.

(** ** Options *)

(** The options dictionaries: a field is [None] when its key is absent, and
    [options.get(key, default)] is [default default_value field]. *)
Record ReadOptions : Type := mkReadOptions {
  ro_include_headers : option bool;
  ro_include_footers : option bool;
  ro_include_tables : option bool;
  ro_keep_empty_paragraphs : option bool
}.

Record WriteOptions : Type := mkWriteOptions {
  wo_include_tables : option bool;
  wo_table_format : option str;
  wo_normalize_tables : option bool;
  wo_utf8_bom : option bool;
  wo_enable_chunk : option bool;
  wo_chunk_size : option Z;
  wo_overlap : option Z
}.

Definition no_read_options : ReadOptions := mkReadOptions None None None None.
Definition no_write_options : WriteOptions :=
  mkWriteOptions None None None None None None None.

(** ** Number formatting *)

(** [str(n)] for an [int]. *)
Definition str_of_int (n : Z) : str := lit (NilZero.string_of_int (Z.to_int n)).

Definition ZERO : char := 48%N.
Definition MINUS : char := 45%N.

Definition zfill (width : nat) (digits : str) : str :=
  replicate (width - length digits) ZERO ++ digits.

(** [f"{n:03d}"]: at least three characters, zeros put after the sign. *)
Definition format_03d (n : Z) : str :=
  if n <? 0 then MINUS :: zfill 2 (str_of_int (- n)) else zfill 3 (str_of_int n).

(** ** The environment: paths, files, case mapping *)

(** The part of [pathlib.Path] the program uses, on path strings:
    [Path(p).suffix], [Path(p).stem], [str(Path(p).parent)] and
    [str(Path(folder) / name)]. *)
Class Pathlib : Type := {
  path_suffix : str -> str;
  path_stem : str -> str;
  path_parent : str -> str;
  path_join : str -> str -> str
}.

(** [str.lower]. *)
Class CaseMapping : Type := { lower : str -> str }.

Inductive encoding : Type := utf_8 | utf_8_sig.

(** The file operations of the writer: [Path.mkdir(parents=True,
    exist_ok=True)] and [Path.write_text(data, encoding, newline)] with
    [newline] fixed to a line feed. *)
Class FileSystem (W : Type) : Type := {
  mkdir_parents : str -> M W unit;
  write_text : str -> str -> encoding -> M W unit
}.

(** *** A POSIX reading of [pathlib]

    [PurePosixPath]: a path string is cut at slashes, empty components and
    single dots are dropped, and a leading slash makes the path absolute. *)

Definition SLASH : char := 47%N.
Definition DOT : char := 46%N.

Definition posix_parts (p : str) : list str :=
  filter (fun part => part <> [] /\ part <> [DOT]) (split SLASH p).

Definition posix_render (absolute : bool) (parts : list str) : str :=
  if absolute then SLASH :: join [SLASH] parts
  else match parts with
       | [] => [DOT]
       | _ :: _ => join [SLASH] parts
       end.

Definition posix_name (p : str) : str := List.last (posix_parts p) [].

(** The pieces of a file name around its last dot, when that dot is neither
    the first nor the last character of the name. *)
Definition posix_split_suffix (name : str) : option (str * str) :=
  let pieces := split DOT name in
  let front := join [DOT] (removelast pieces) in
  let back := List.last pieces [] in
  if bool_decide (front <> [] /\ back <> [] /\ (2 <= length pieces)%nat)
  then Some (front, DOT :: back)
  else None.

Definition posix_suffix (p : str) : str :=
  match posix_split_suffix (posix_name p) with
  | Some (_, suffix) => suffix
  | None => []
  end.

Definition posix_stem (p : str) : str :=
  match posix_split_suffix (posix_name p) with
  | Some (stem, _) => stem
  | None => posix_name p
  end.

Definition posix_parent (p : str) : str :=
  posix_render (starts_with [SLASH] p) (removelast (posix_parts p)).

Definition posix_join (folder name : str) : str :=
  if starts_with [SLASH] name
  then posix_render true (posix_parts name)
  else posix_render (starts_with [SLASH] folder)
                    (posix_parts folder ++ posix_parts name).

Definition posix : Pathlib := {|
  path_suffix := posix_suffix;
  path_stem := posix_stem;
  path_parent := posix_parent;
  path_join := posix_join
|}.

(** [str.lower] on the ASCII letters. *)
Definition ascii_lower_char (c : char) : char :=
  if ((65 <=? c) && (c <=? 90))%N then (c + 32)%N else c.

Definition ascii_lower : CaseMapping := {| lower := map ascii_lower_char |}.

(** *** A file system that records what it is asked to do *)

Inductive io_event : Type :=
  | Mkdir (path : str)
  | WriteText (path data : str) (enc : encoding).

Definition recording : FileSystem (list io_event) := {|
  mkdir_parents := fun path log => Returned tt (log ++ [Mkdir path]);
  write_text := fun path data enc log =>
                  Returned tt (log ++ [WriteText path data enc])
|}.

(** ** [i18n.I18nManager] *)

Record I18nManager : Type := mkI18nManager {
  locale : str;
  strings : gmap str (gmap str str)
}.

Definition en_US : str := lit "en-US".

Definition i18n_lookup (i : I18nManager) (lang key : str) : option str :=
  match strings i !! lang with
  | Some table => table !! key
  | None => None
  end.

Definition set_locale (i : I18nManager) (new_locale : str) : I18nManager :=
  mkI18nManager new_locale (strings i).

Definition get_available_locales (i : I18nManager) : list str :=
  sorted (map_to_list (strings i)).*1.

Definition t (i : I18nManager) (key : str) : str :=
  match i18n_lookup i (locale i) key with
  | Some v => v
  | None =>
      match i18n_lookup i en_US key with
      | Some v => v
      | None => key
      end
  end.

(** ** [plugins.writers.txt_writer.TxtWriter] *)

Module TxtWriter.

Definition get_supported_extensions : list str := [lit ".txt"].

(** The value of [target_cols] after the first loop of [_format_table]. *)
Definition target_cols (rows : list (list str)) (normalize : bool) : Z :=
  if normalize
  then fold_left (fun target row => Z.max target (len row)) rows 0
  else 0.

(** The value of [cells] for one row, after the padding statement. *)
Definition cells (normalize : bool) (target_cols : Z) (row : list str)
    : list str :=
  let cells := row in
  if normalize && (0 <? target_cols) && (len cells <? target_cols)
  then cells ++ replicate (Z.to_nat (target_cols - len cells)) []
  else cells.

Definition safe_cells (cells : list str) : list str :=
  map (fun c => replace [LF] [BACKSLASH; 110%N] c) cells.

Definition _format_table (rows : list (list str)) (fmt : str)
    (normalize : bool) : list str :=
  let target_cols := target_cols rows normalize in
  map (fun row =>
         let safe_cells := safe_cells (cells normalize target_cols row) in
         if bool_decide (fmt = lit "tsv")
         then rstrip (join [TAB] safe_cells)
         else lit "| " ++ join (lit " | ") safe_cells ++ lit " |")
      rows.

Section Rendering.

Variable i18n : I18nManager.

(** One pass of the loop over [model.blocks]. *)
Definition render_block (include_tables : bool) (table_format : str)
    (normalize_tables : bool) (out_lines : list str) (block : Block)
    : list str :=
  match block with
  | ParagraphBlock text is_header is_footer =>
      if is_header
      then out_lines ++ [t i18n (lit "header_marker") ++ [SPACE] ++ text]
      else if is_footer
      then out_lines ++ [t i18n (lit "footer_marker") ++ [SPACE] ++ text]
      else out_lines ++ [text]
  | TableBlock rows _ _ =>
      if include_tables
      then ((out_lines ++ [t i18n (lit "table_marker")])
            ++ _format_table rows table_format normalize_tables) ++ [[]]
      else out_lines
  end.

Definition out_lines (model : DocumentModel) (options : WriteOptions)
    : list str :=
  let include_tables := default true (wo_include_tables options) in
  let table_format := default (lit "tsv") (wo_table_format options) in
  let normalize_tables := default true (wo_normalize_tables options) in
  fold_left (render_block include_tables table_format normalize_tables)
            (blocks model) [].

(** The value of [text] in [write]. *)
Definition text (model : DocumentModel) (options : WriteOptions) : str :=
  rstrip (join [LF] (out_lines model options)) ++ [LF].

Context {W : Type} `{FileSystem W} `{Pathlib}.

Definition write (model : DocumentModel) (output_path : str)
    (options : WriteOptions) : M W unit :=
  let utf8_bom := default false (wo_utf8_bom options) in
  let enable_chunk := default false (wo_enable_chunk options) in
  let chunk_size := default 12000 (wo_chunk_size options) in
  let overlap := default 300 (wo_overlap options) in
  let text := text model options in
  let encoding := if utf8_bom then utf_8_sig else utf_8 in
  mkdir_parents (path_parent output_path) ;;;
  if enable_chunk then
    match chunk_text text chunk_size overlap with
    | None => diverge
    | Some chunks =>
        let stem := path_stem output_path in
        let folder := path_parent output_path in
        for_each
          (fun '(idx, c) =>
             let chunk_file :=
               path_join folder
                 (stem ++ lit "_part" ++ format_03d idx ++ lit ".txt") in
             write_text chunk_file c encoding)
          (enumerate 1 chunks)
    end
  else write_text output_path text encoding.

End Rendering.

End TxtWriter.

(** ** [plugins.readers.pdf_reader.PdfReader] *)

(** What [pdfplumber] gives for one page: [extract_text()] returns a string
    or [None], [extract_tables()] a list of tables (rows of cells, a cell
    being a string or [None]); either call may raise. *)
Record Page : Type := mkPage {
  extract_text : result (option str);
  extract_tables : result (option (list (list (list (option str)))))
}.

(** [pdfplumber.open(file_path).pages]. *)
Class Pdfplumber (W : Type) : Type := { pdf_open : str -> M W (list Page) }.

Module PdfReader.

Definition _clean_text (s : str) : str :=
  let s := replace [CR] [LF] (replace [CR; LF] [LF] s) in
  let lines := map (fun line => strip (_WS_RE_sub [SPACE] line)) (split LF s) in
  strip_chars [LF] (join [LF] lines).

Definition get_supported_extensions : list str := [lit ".pdf"].

(** [_clean_text(cell) if cell else ""]. *)
Definition clean_cell (cell : option str) : str :=
  match cell with
  | Some (c :: rest) => _clean_text (c :: rest)
  | _ => []
  end.

(** The [try ... except Exception: tables = []] around the detector. *)
Definition detected_tables (page : Page)
    : result (option (list (list (list (option str))))) :=
  match extract_tables page with
  | Raise e => if is_Exception e then Return (Some []) else Raise e
  | Return tables => Return tables
  end.

(** The body of the loop over [pdf.pages]; [blocks] is [model.blocks]. *)
Definition read_page (include_headers include_tables keep_empty : bool)
    (page_num : Z) (page : Page) (blocks : list Block)
    : result (list Block) :=
  let blocks :=
    if include_headers
    then blocks ++ [ParagraphBlock (lit "Page " ++ str_of_int page_num) true false]
    else blocks in
  match extract_text page with
  | Raise e => Raise e
  | Return raw_text =>
      let blocks :=
        match raw_text with
        | Some (c :: rest) =>
            let cleaned := _clean_text (c :: rest) in
            fold_left
              (fun blocks line =>
                 if negb (bool_decide (line = [])) || keep_empty
                 then blocks ++ [ParagraphBlock line false false]
                 else blocks)
              (split LF cleaned) blocks
        | _ =>
            if keep_empty then blocks ++ [ParagraphBlock [] false false]
            else blocks
        end in
      if include_tables then
        match detected_tables page with
        | Raise e => Raise e
        | Return tables =>
            Return
              (fold_left
                 (fun blocks table =>
                    blocks ++ [TableBlock (map (map clean_cell) table) false false])
                 (default [] tables) blocks)
        end
      else Return blocks
  end.

(** The loop [for page_num, page in enumerate(pdf.pages, start=1)]. *)
Fixpoint read_pages (include_headers include_tables keep_empty : bool)
    (pages : list (Z * Page)) (blocks : list Block) : result (list Block) :=
  match pages with
  | [] => Return blocks
  | (page_num, page) :: pages' =>
      match read_page include_headers include_tables keep_empty
              page_num page blocks with
      | Raise e => Raise e
      | Return blocks' =>
          read_pages include_headers include_tables keep_empty pages' blocks'
      end
  end.

Definition cannot_open (file_path : str) : str :=
  lit "Cannot open PDF '" ++ file_path ++ lit "'. "
  ++ lit "If the file is encrypted or scanned, note that scanned PDFs "
  ++ lit "require OCR which is not supported.".

Section Read.

Context {W : Type} `{Pdfplumber W}.

Definition read (file_path : str) (options : ReadOptions)
    : M W DocumentModel :=
  let include_headers := default false (ro_include_headers options) in
  let include_tables := default true (ro_include_tables options) in
  let keep_empty := default false (ro_keep_empty_paragraphs options) in
  let metadata : gmap str str :=
    <[lit "source" := file_path]> (<[lit "type" := lit "pdf"]> ∅) in
  pages <- try_except (pdf_open file_path)
             (fun exc => raise (RuntimeError (cannot_open file_path) exc)) ;;
  match pages with
  | [] => ret (mkDocumentModel [] metadata)
  | _ :: _ =>
      match read_pages include_headers include_tables keep_empty
              (enumerate 1 pages) [] with
      | Raise e => raise e
      | Return blocks => ret (mkDocumentModel blocks metadata)
      end
  end.

End Read.

End PdfReader.

(** ** [plugins.readers.docx_reader] *)

(** What [python-docx] gives for a document.  A table row has its cells'
    texts and the two attributes [grid_cols_before] and [grid_cols_after],
    each absent, [None] or an integer; the body is a sequence of children,
    of which paragraphs and tables count; every section has a header and a
    footer, each with paragraphs (their texts) and tables. *)
Inductive grid_attr : Type :=
  | attr_absent
  | attr_none
  | attr_int (n : Z).

Record DocxRow : Type := mkDocxRow {
  row_cells : list str;
  grid_cols_before : grid_attr;
  grid_cols_after : grid_attr
}.

Inductive BodyChild : Type :=
  | CT_P (text : str)
  | CT_Tbl (rows : list DocxRow)
  | CT_other.

Record HeaderFooter : Type := mkHeaderFooter {
  hf_paragraphs : list str;
  hf_tables : list (list DocxRow)
}.

Record DocxSection : Type := mkDocxSection {
  sec_header : HeaderFooter;
  sec_footer : HeaderFooter
}.

Record DocxDocument : Type := mkDocxDocument {
  doc_sections : list DocxSection;
  doc_body : list BodyChild
}.

(** [docx.Document(file_path)]. *)
Class PythonDocx (W : Type) : Type := { Document : str -> M W DocxDocument }.

(** [int(getattr(row, name, 0) or 0)]. *)
Definition grid_or_zero (a : grid_attr) : Z :=
  match a with
  | attr_int n => n
  | _ => 0
  end.

Module DocxReader.

Definition _clean_text (s : str) : str :=
  let s := replace [CR] [LF] (replace [CR; LF] [LF] s) in
  let lines := map (fun line => strip (_WS_RE_sub [SPACE] line)) (split LF s) in
  strip_chars [LF] (join [LF] lines).

(** What [iter_block_items] yields. *)
Inductive BlockItem : Type :=
  | Paragraph (text : str)
  | Table (rows : list DocxRow).

Definition iter_block_items (doc : DocxDocument) : list BlockItem :=
  flat_map (fun child =>
              match child with
              | CT_P text => [Paragraph text]
              | CT_Tbl rows => [Table rows]
              | CT_other => []
              end)
           (doc_body doc).

Definition get_supported_extensions : list str := [lit ".docx"].

Definition _parse_table (table : list DocxRow) (is_header is_footer : bool)
    : Block :=
  let rows :=
    fold_left
      (fun rows row =>
         let cells_text := map _clean_text (row_cells row) in
         let before := grid_or_zero (grid_cols_before row) in
         let after := grid_or_zero (grid_cols_after row) in
         let padded :=
           replicate (Z.to_nat before) [] ++ cells_text
           ++ replicate (Z.to_nat after) [] in
         rows ++ [padded])
      table [] in
  TableBlock rows is_header is_footer.

(** The two inner loops over the paragraphs and the tables of one header
    or footer. *)
Definition header_footer_blocks (keep_empty is_header is_footer : bool)
    (hf : HeaderFooter) (blocks : list Block) : list Block :=
  let blocks :=
    fold_left
      (fun blocks p =>
         let t := _clean_text p in
         if negb (bool_decide (t = [])) || keep_empty
         then blocks ++ [ParagraphBlock t is_header is_footer]
         else blocks)
      (hf_paragraphs hf) blocks in
  fold_left (fun blocks t => blocks ++ [_parse_table t is_header is_footer])
            (hf_tables hf) blocks.

(** Everything [read] does once the document is open. *)
Definition read_blocks (doc : DocxDocument) (options : ReadOptions)
    : list Block :=
  let include_headers := default false (ro_include_headers options) in
  let include_footers := default false (ro_include_footers options) in
  let keep_empty := default false (ro_keep_empty_paragraphs options) in
  let blocks := [] in
  let blocks :=
    if include_headers then
      fold_left
        (fun blocks '(i, sec) =>
           let blocks :=
             blocks ++ [ParagraphBlock (lit "Section " ++ str_of_int i) true false] in
           header_footer_blocks keep_empty true false (sec_header sec) blocks)
        (enumerate 1 (doc_sections doc)) blocks
    else blocks in
  let blocks :=
    if include_footers then
      fold_left
        (fun blocks '(i, sec) =>
           let blocks :=
             blocks ++ [ParagraphBlock (lit "Section " ++ str_of_int i) false true] in
           header_footer_blocks keep_empty false true (sec_footer sec) blocks)
        (enumerate 1 (doc_sections doc)) blocks
    else blocks in
  fold_left
    (fun blocks block =>
       match block with
       | Paragraph text =>
           let t := _clean_text text in
           if negb (bool_decide (t = [])) || keep_empty
           then blocks ++ [ParagraphBlock t false false]
           else blocks
       | Table rows => blocks ++ [_parse_table rows false false]
       end)
    (iter_block_items doc) blocks.

Section Read.

Context {W : Type} `{PythonDocx W}.

Definition read (file_path : str) (options : ReadOptions) : M W DocumentModel :=
  doc <- Document file_path ;;
  let metadata : gmap str str :=
    <[lit "source" := file_path]> (<[lit "type" := lit "docx"]> ∅) in
  ret (mkDocumentModel (read_blocks doc options) metadata).

End Read.

End DocxReader.

(** ** [plugins.registry] *)

(** The two plugin interfaces: a class with its supported extensions and
    its [read] or [write] method. *)
Record InputReader (W : Type) : Type := mkInputReader {
  reader_extensions : list str;
  reader_read : str -> ReadOptions -> M W DocumentModel
}.
Arguments reader_extensions {W} _.
Arguments reader_read {W} _ _ _.

Record OutputWriter (W : Type) : Type := mkOutputWriter {
  writer_extensions : list str;
  writer_write : DocumentModel -> str -> WriteOptions -> M W unit
}.
Arguments writer_extensions {W} _.
Arguments writer_write {W} _ _ _ _.

Module PluginRegistry.

(** The two class-level dictionaries. *)
Record state (W : Type) : Type := mkState {
  _readers : gmap str (InputReader W);
  _writers : gmap str (OutputWriter W)
}.
Arguments mkState {W} _ _.
Arguments _readers {W} _.
Arguments _writers {W} _.

Section Registry.

Context {W : Type} `{CaseMapping}.

Definition empty : state W := mkState ∅ ∅.

Definition register_reader (reader_cls : InputReader W) (reg : state W)
    : state W :=
  mkState
    (fold_left (fun readers ext => <[lower ext := reader_cls]> readers)
               (reader_extensions reader_cls) (_readers reg))
    (_writers reg).

Definition register_writer (writer_cls : OutputWriter W) (reg : state W)
    : state W :=
  mkState
    (_readers reg)
    (fold_left (fun writers ext => <[lower ext := writer_cls]> writers)
               (writer_extensions writer_cls) (_writers reg)).

Definition get_reader (reg : state W) (ext : str) : option (InputReader W) :=
  _readers reg !! lower ext.

Definition get_writer (reg : state W) (ext : str) : option (OutputWriter W) :=
  _writers reg !! lower ext.

Definition available_inputs (reg : state W) : list str :=
  sorted (map_to_list (_readers reg)).*1.

Definition available_outputs (reg : state W) : list str :=
  sorted (map_to_list (_writers reg)).*1.

End Registry.

End PluginRegistry.

(** ** [core.engine.CoreEngine] *)

Module CoreEngine.

Section Engine.

Context {W : Type} `{Pathlib} `{CaseMapping}.

Variable registry : PluginRegistry.state W.

Definition convert (input_path output_path : str)
    (read_options : ReadOptions) (write_options : WriteOptions)
    : M W unit :=
  let in_ext := lower (path_suffix input_path) in
  let out_ext := lower (path_suffix output_path) in
  match PluginRegistry.get_reader registry in_ext with
  | None =>
      raise (UnsupportedExtensionError
               (lit "No reader found for extension '" ++ in_ext ++ lit "'"))
  | Some ReaderCls =>
      match PluginRegistry.get_writer registry out_ext with
      | None =>
          raise (UnsupportedExtensionError
                   (lit "No writer found for extension '" ++ out_ext ++ lit "'"))
      | Some WriterCls =>
          try_except
            (model <- reader_read ReaderCls input_path read_options ;;
             writer_write WriterCls model output_path write_options)
            (fun e =>
               raise (ConversionFailedError
                        (lit "Conversion failed: " ++ exc_str e) e))
      end
  end.

End Engine.

End CoreEngine.

(** ** [docx_to_txt_gui]: the single-file converter *)

(** The three entries of [I18N[lang]] that [extract_docx] reads. *)
Record Markers : Type := mkMarkers {
  table_marker : str;
  header_marker : str;
  footer_marker : str
}.

Module Legacy.

Definition _clean_text (s : str) : str :=
  let s := replace [CR] [LF] (replace [CR; LF] [LF] s) in
  let lines := map (fun line => strip (_WS_RE_sub [SPACE] line)) (split LF s) in
  strip_chars [LF] (join [LF] lines).

(** The entries of [I18N["en-US"]]. *)
Definition I18N_en_US : Markers :=
  mkMarkers (lit "[TABLE]") (lit "[HEADER]") (lit "[FOOTER]").

Definition iter_block_items (doc : DocxDocument) : list DocxReader.BlockItem :=
  flat_map (fun child =>
              match child with
              | CT_P text => [DocxReader.Paragraph text]
              | CT_Tbl rows => [DocxReader.Table rows]
              | CT_other => []
              end)
           (doc_body doc).

(** [int(getattr(row, name, 0))]: [None] for the [TypeError] that
    [int(None)] raises. *)
Definition grid_int (a : grid_attr) : option Z :=
  match a with
  | attr_absent => Some 0
  | attr_none => None
  | attr_int n => Some n
  end.

(** The value of [effective] for a row, after the [try ... except]. *)
Definition effective (row : DocxRow) : Z :=
  match grid_int (grid_cols_before row), grid_int (grid_cols_after row) with
  | Some before, Some after => before + len (row_cells row) + after
  | _, _ => len (row_cells row)
  end.

Definition table_to_lines (table : list DocxRow) (fmt : str) (normalize : bool)
    : list str :=
  let target_cols :=
    if normalize
    then fold_left (fun target row => Z.max target (effective row)) table 0
    else 0 in
  fold_left
    (fun lines row =>
       let cells_text := map _clean_text (row_cells row) in
       let cells_text :=
         if normalize then
           let before := grid_or_zero (grid_cols_before row) in
           let after := grid_or_zero (grid_cols_after row) in
           let padded :=
             replicate (Z.to_nat before) [] ++ cells_text
             ++ replicate (Z.to_nat after) [] in
           if (0 <? target_cols) && (len padded <? target_cols)
           then padded ++ replicate (Z.to_nat (target_cols - len padded)) []
           else padded
         else cells_text in
       let safe_cells := map (fun c => replace [LF] [BACKSLASH; 110%N] c) cells_text in
       if bool_decide (fmt = lit "tsv")
       then lines ++ [rstrip (join [TAB] safe_cells)]
       else lines ++ [lit "| " ++ join (lit " | ") safe_cells ++ lit " |"])
    table [].

(** The loops over one header or footer in [extract_docx]. *)
Definition header_footer_lines (S : Markers) (include_tables : bool)
    (table_format : str) (normalize_tables keep_empty_paragraphs : bool)
    (hf : HeaderFooter) (out : list str) : list str :=
  let out :=
    fold_left
      (fun out p =>
         let t := _clean_text p in
         if negb (bool_decide (t = [])) || keep_empty_paragraphs
         then out ++ [t] else out)
      (hf_paragraphs hf) out in
  if include_tables then
    fold_left
      (fun out t =>
         (out ++ [table_marker S])
         ++ table_to_lines t table_format normalize_tables)
      (hf_tables hf) out
  else out.

(** [extract_docx], from the opened document on. *)
Definition extract_docx (doc : DocxDocument) (include_tables : bool)
    (table_format : str)
    (normalize_tables include_headers include_footers
       keep_empty_paragraphs : bool)
    (S : Markers) : str :=
  let out := [] in
  let out :=
    if include_headers then
      fold_left
        (fun out '(i, sec) =>
           let out :=
             out ++ [header_marker S ++ lit " Section " ++ str_of_int i] in
           let out :=
             header_footer_lines S include_tables table_format
               normalize_tables keep_empty_paragraphs (sec_header sec) out in
           out ++ [[]])
        (enumerate 1 (doc_sections doc)) out
    else out in
  let out :=
    if include_footers then
      fold_left
        (fun out '(i, sec) =>
           let out :=
             out ++ [footer_marker S ++ lit " Section " ++ str_of_int i] in
           let out :=
             header_footer_lines S include_tables table_format
               normalize_tables keep_empty_paragraphs (sec_footer sec) out in
           out ++ [[]])
        (enumerate 1 (doc_sections doc)) out
    else out in
  let out :=
    fold_left
      (fun out block =>
         match block with
         | DocxReader.Paragraph text =>
             let t := _clean_text text in
             if negb (bool_decide (t = [])) || keep_empty_paragraphs
             then out ++ [t] else out
         | DocxReader.Table rows =>
             if include_tables
             then ((out ++ [table_marker S])
                   ++ table_to_lines rows table_format normalize_tables)
                  ++ [[]]
             else out
         end)
      (iter_block_items doc) out in
  rstrip (join [LF] out) ++ [LF].

End Legacy.

(** ** Vocabulary of the statements and sample values *)

(** The decimal digit of [d]. *)
Definition digit (d : Z) : char := (48 + Z.to_N d)%N.

(** The name the specification gives to the file of chunk [idx]: the stem,
    the part number, and the extension of [output_path]. *)
Definition chunk_file_as_specified `{Pathlib} (output_path : str) (idx : Z)
    : str :=
  path_join (path_parent output_path)
    (path_stem output_path ++ lit "_part" ++ format_03d idx
     ++ path_suffix output_path).

(** The name the writer gives to the file of chunk [idx]. *)
Definition chunk_file `{Pathlib} (output_path : str) (idx : Z) : str :=
  path_join (path_parent output_path)
    (path_stem output_path ++ lit "_part" ++ format_03d idx ++ lit ".txt").

(** A manager that found no locale file: every key translates to itself. *)
Definition no_locales : I18nManager := mkI18nManager en_US ∅.

(** The document of [test_txt_writer_chunking] and its options. *)
Definition hello_model : DocumentModel :=
  mkDocumentModel [ParagraphBlock (lit "Hello World 123") false false] ∅.

Definition chunk_5_1 : WriteOptions :=
  mkWriteOptions None None None None (Some true) (Some 5) (Some 1).

(** How many chunks [chunk_text] cuts a text of [n] characters into, for a
    valid size and overlap. *)
Definition chunk_count (n chunk_size overlap : Z) : Z :=
  if n <=? 0 then 0
  else 1 + Z.max 0 ((n - overlap - 1) / (chunk_size - overlap)).

(** The overlap [chunk_text] works with once it has clamped its argument
    (for a positive [chunk_size]). *)
Definition clamped (chunk_size overlap : Z) : Z :=
  Z.max 0 (Z.min overlap (chunk_size - 1)).

(** A [pdfplumber] that cannot find the file. *)
Definition no_such_file : Pdfplumber (list io_event) := {|
  pdf_open := fun path =>
    raise (OtherException (lit "FileNotFoundError")
             (lit "[Errno 2] No such file or directory: '" ++ path ++ lit "'"))
|}.

(** What [PdfReader.read] raises for [missing.pdf] then. *)
Definition missing_pdf_error : pyexc :=
  RuntimeError (PdfReader.cannot_open (lit "missing.pdf"))
    (OtherException (lit "FileNotFoundError")
       (lit "[Errno 2] No such file or directory: 'missing.pdf'")).

Definition pdf_reader_cls : InputReader (list io_event) :=
  mkInputReader (list io_event) PdfReader.get_supported_extensions
    (@PdfReader.read _ no_such_file).

Definition txt_writer_cls : OutputWriter (list io_event) :=
  mkOutputWriter (list io_event) TxtWriter.get_supported_extensions
    (@TxtWriter.write no_locales _ recording posix).

(** The registry once the two plugin modules have registered themselves. *)
Definition sample_registry : PluginRegistry.state (list io_event) :=
  @PluginRegistry.register_writer _ ascii_lower txt_writer_cls
    (@PluginRegistry.register_reader _ ascii_lower pdf_reader_cls
       PluginRegistry.empty).

(** Two pages; the table detector fails on the first and finds one table on
    the second. *)
Definition page_detector_fails : Page :=
  mkPage (Return (Some (lit "First  page")))
         (Raise (OtherException (lit "ValueError") (lit "bad layout"))).

Definition page_with_table : Page :=
  mkPage (Return (Some (lit "Second page")))
         (Return (Some [[[Some (lit "A1"); None]; [Some (lit "A2"); Some (lit "B2")]]])).

Definition two_pages : Pdfplumber (list io_event) := {|
  pdf_open := fun _ => ret [page_detector_fails; page_with_table]
|}.

(** The PDF reader class over a given [pdfplumber], and the registry with
    that reader and the text writer. *)
Definition pdf_reader_of (plumber : Pdfplumber (list io_event))
    : InputReader (list io_event) :=
  mkInputReader (list io_event) PdfReader.get_supported_extensions
    (@PdfReader.read _ plumber).

Definition registry_with (reader_cls : InputReader (list io_event))
    : PluginRegistry.state (list io_event) :=
  @PluginRegistry.register_writer _ ascii_lower txt_writer_cls
    (@PluginRegistry.register_reader _ ascii_lower reader_cls
       PluginRegistry.empty).

(** A [pdfplumber] interrupted from the keyboard while it opens the file. *)
Definition interrupt : pyexc := NonException (lit "KeyboardInterrupt") [].

Definition interrupted : Pdfplumber (list io_event) := {|
  pdf_open := fun _ => raise interrupt
|}.

(** What [PdfReader.read] makes of [two_pages], and the text the writer
    makes of that model when no locale file is loaded. *)
Definition two_pages_model : DocumentModel :=
  mkDocumentModel
    [ParagraphBlock (lit "First page") false false;
     ParagraphBlock (lit "Second page") false false;
     TableBlock [[lit "A1"; []]; [lit "A2"; lit "B2"]] false false]
    (<[lit "source" := lit "two.pdf"]> (<[lit "type" := lit "pdf"]> ∅)).

Definition two_pages_text : str :=
  lit "First page" ++ [LF] ++ lit "Second page" ++ [LF]
  ++ lit "table_marker" ++ [LF] ++ lit "A1" ++ [LF]
  ++ lit "A2" ++ [TAB] ++ lit "B2" ++ [LF].

(** A string the normaliser leaves as it is. *)
Definition normalized (s : str) : Prop := PdfReader._clean_text s = s.

Definition is_header_block (b : Block) : bool :=
  match b with
  | ParagraphBlock _ h _ => h
  | TableBlock _ h _ => h
  end.

Definition is_footer_block (b : Block) : bool :=
  match b with
  | ParagraphBlock _ _ f => f
  | TableBlock _ _ f => f
  end.

(** The marker block the PDF reader puts before page [num]. *)
Definition page_marker (num : Z) : Block :=
  ParagraphBlock (lit "Page " ++ str_of_int num) true false.

(** What holds of every block of a model read from a PDF: a paragraph is one
    line (no line feed, no carriage return), is never a footer, and is empty
    only if empty paragraphs are kept or it is a page marker; a table is
    neither header nor footer and all its cells are normalised. *)
Definition pdf_block_wf (keep_empty : bool) (b : Block) : Prop :=
  match b with
  | ParagraphBlock text h f =>
      f = false
      /\ Forall (fun c => c <> LF) text /\ Forall (fun c => c <> CR) text
      /\ (h = false -> keep_empty = false -> text <> [])
  | TableBlock rows h f =>
      h = false /\ f = false /\ Forall (Forall normalized) rows
  end.

(** A page whose text extraction fails. *)
Definition page_text_fails : Page :=
  mkPage (Raise (OtherException (lit "PDFSyntaxError") (lit "bad stream")))
         (Return None).

Definition broken_second_page : Pdfplumber (list io_event) := {|
  pdf_open := fun _ => ret [page_with_table; page_text_fails; page_with_table]
|}.

(** The blocks of a document read from a word-processor file, piece by
    piece: what one paragraph, one header or footer, one section and one
    body item contribute. *)
Definition docx_paragraph_blocks (keep_empty is_header is_footer : bool)
    (p : str) : list Block :=
  let t := DocxReader._clean_text p in
  if negb (bool_decide (t = [])) || keep_empty
  then [ParagraphBlock t is_header is_footer] else [].

Definition docx_hf_blocks (keep_empty is_header is_footer : bool)
    (hf : HeaderFooter) : list Block :=
  concat (map (docx_paragraph_blocks keep_empty is_header is_footer)
              (hf_paragraphs hf))
  ++ map (fun t => DocxReader._parse_table t is_header is_footer)
         (hf_tables hf).

Definition section_marker (is_header is_footer : bool) (i : Z) : Block :=
  ParagraphBlock (lit "Section " ++ str_of_int i) is_header is_footer.

Definition docx_item_blocks (keep_empty : bool) (item : DocxReader.BlockItem)
    : list Block :=
  match item with
  | DocxReader.Paragraph text => docx_paragraph_blocks keep_empty false false text
  | DocxReader.Table rows => [DocxReader._parse_table rows false false]
  end.

(** The text of a paragraph block, the paragraph and the table of a body
    child. *)
Definition block_text (b : Block) : option str :=
  match b with
  | ParagraphBlock text _ _ => Some text
  | TableBlock _ _ _ => None
  end.

Definition child_paragraph (child : BodyChild) : option str :=
  match child with
  | CT_P text => Some text
  | _ => None
  end.

Definition child_table (child : BodyChild) : option (list DocxRow) :=
  match child with
  | CT_Tbl rows => Some rows
  | _ => None
  end.

(** What holds of every block read from a word-processor file: the text
    of a paragraph is normalised, and empty only if empty paragraphs are
    kept; every cell of a table is normalised. *)
Definition docx_block_wf (keep_empty : bool) (b : Block) : Prop :=
  match b with
  | ParagraphBlock text _ _ =>
      normalized text /\ (keep_empty = false -> text <> [])
  | TableBlock rows _ _ => Forall (Forall normalized) rows
  end.

(** A small document: a paragraph, an empty paragraph, a table whose
    second row starts one grid column late, and a section break. *)
Definition sample_doc : DocxDocument :=
  mkDocxDocument
    [mkDocxSection (mkHeaderFooter [lit "Report  header"] [])
                   (mkHeaderFooter [lit "page"] [])]
    [CT_P (lit "Hello  World ");
     CT_P (lit "   ");
     CT_Tbl [mkDocxRow [lit "A1"; lit "B1"] attr_absent attr_absent;
             mkDocxRow [lit "B2"] (attr_int 1) attr_none];
     CT_other].

(** A manager with the English markers loaded. *)
Definition english : I18nManager :=
  mkI18nManager en_US
    {[ en_US := {[ lit "table_marker" := lit "[TABLE]";
                   lit "header_marker" := lit "[HEADER]";
                   lit "footer_marker" := lit "[FOOTER]" ]} ]}.

(** What one page contributes to a model read from a PDF, written out
    piece by piece: the paragraphs of its text (one per line of the cleaned
    text, one empty paragraph at most when there is no text), the tables its
    detector returned (none when it returned [None] or raised), and, for the
    page numbered [num], the marker, the paragraphs and the tables in that
    order. *)
Definition page_paragraphs (keep_empty : bool) (raw_text : option str)
    : list Block :=
  match raw_text with
  | Some (c :: rest) =>
      concat (map (fun line =>
                     if negb (bool_decide (line = [])) || keep_empty
                     then [ParagraphBlock line false false] else [])
                  (split LF (PdfReader._clean_text (c :: rest))))
  | _ => if keep_empty then [ParagraphBlock [] false false] else []
  end.

Definition page_text_blocks (keep_empty : bool) (page : Page) : list Block :=
  match extract_text page with
  | Return raw_text => page_paragraphs keep_empty raw_text
  | Raise _ => []
  end.

Definition page_tables (page : Page) : list Block :=
  match extract_tables page with
  | Return (Some tables) =>
      map (fun table =>
             TableBlock (map (map PdfReader.clean_cell) table) false false)
          tables
  | _ => []
  end.

Definition page_blocks (include_headers include_tables keep_empty : bool)
    (numbered : Z * Page) : list Block :=
  (if include_headers then [page_marker (fst numbered)] else [])
  ++ page_text_blocks keep_empty (snd numbered)
  ++ (if include_tables then page_tables (snd numbered) else []).

(** The three groups of blocks of a document read from a word-processor
    file: for every section in order, its marker flagged header followed by
    the blocks of its header; the same with the footers; and the blocks of
    the body items. *)
Definition docx_header_group (keep_empty : bool) (doc : DocxDocument)
    : list Block :=
  concat (map (fun numbered =>
                 section_marker true false (fst numbered)
                 :: docx_hf_blocks keep_empty true false
                      (sec_header (snd numbered)))
              (enumerate 1 (doc_sections doc))).

Definition docx_footer_group (keep_empty : bool) (doc : DocxDocument)
    : list Block :=
  concat (map (fun numbered =>
                 section_marker false true (fst numbered)
                 :: docx_hf_blocks keep_empty false true
                      (sec_footer (snd numbered)))
              (enumerate 1 (doc_sections doc))).

Definition docx_body_group (keep_empty : bool) (doc : DocxDocument)
    : list Block :=
  concat (map (docx_item_blocks keep_empty) (DocxReader.iter_block_items doc)).

(** Reading [sample_doc] with headers and footers. *)
Definition with_headers_and_footers : ReadOptions :=
  mkReadOptions (Some true) (Some true) None None.

(** A model with a page marker and a table, and the text the writer makes
    of it with the English markers. *)
Definition marked_model : DocumentModel :=
  mkDocumentModel
    [page_marker 1; TableBlock [[lit "A1"; lit "B1"]] false false] ∅.

Definition marked_text : str :=
  lit "[HEADER] Page 1" ++ [LF] ++ lit "[TABLE]" ++ [LF]
  ++ lit "A1" ++ [TAB] ++ lit "B1" ++ [LF].

(** A model without its table blocks. *)
Definition without_tables (model : DocumentModel) : DocumentModel :=
  mkDocumentModel (List.filter (fun b => negb (is_TableBlock b)) (blocks model))
                  (metadata model).

(** * Properties *)

(** ** Chunker *)

Lemma len_nonneg (s : str) : 0 <= len s.
Proof. unfold len. lia. Qed.

Lemma slice_inside (s : str) (lo hi : Z) :
  0 <= lo -> lo <= hi -> hi <= len s ->
  slice s lo hi = take (Z.to_nat (hi - lo)) (drop (Z.to_nat lo) s).
Proof.
  intros Hlo Hle Hhi. unfold slice, slice_index.
  destruct (Z.ltb_spec lo 0); [lia|].
  destruct (Z.ltb_spec hi 0); [lia|].
  rewrite !Z.min_l by lia. reflexivity.
Qed.

Lemma slice_to_end (s : str) (lo : Z) :
  0 <= lo -> lo <= len s -> slice s lo (len s) = drop (Z.to_nat lo) s.
Proof.
  intros Hlo Hle. rewrite slice_inside by lia.
  apply take_ge. rewrite length_drop. unfold len in *. lia.
Qed.

Lemma slice_length (s : str) (lo hi : Z) :
  0 <= lo -> lo <= hi -> hi <= len s -> len (slice s lo hi) = hi - lo.
Proof.
  intros Hlo Hle Hhi. rewrite slice_inside by lia.
  unfold len in *. rewrite length_take, length_drop. lia.
Qed.

Lemma slice_then_rest (s : str) (lo hi : Z) :
  0 <= lo -> lo <= hi -> hi <= len s ->
  slice s lo hi ++ drop (Z.to_nat hi) s = drop (Z.to_nat lo) s.
Proof.
  intros Hlo Hle Hhi. rewrite slice_inside by lia.
  replace (Z.to_nat hi) with (Z.to_nat lo + Z.to_nat (hi - lo))%nat by lia.
  rewrite <- drop_drop. apply take_drop.
Qed.

(** What one run of the loop appends, from any start inside the text. *)
Lemma chunk_loop_spec (fuel : nat) :
  forall (text : str) (cs ov start : Z) (acc : list str),
    0 <= ov < cs -> 0 <= start < len text ->
    len text - start < Z.of_nat fuel ->
    exists first rest,
      chunk_loop fuel text cs ov start acc = Some (acc ++ first :: rest)
      /\ first = slice text start (Z.min (len text) (start + cs))
      /\ Forall (fun c => len c <= cs) (first :: rest)
      /\ reassemble ov (first :: rest) = drop (Z.to_nat start) text
      /\ exists front k, first :: rest = front ++ [drop k text]
                         /\ (k < length text)%nat.
Proof.
  induction fuel as [|fuel IH]; intros text cs ov start acc Hov Hst Hfuel.
  - lia.
  - cbn [chunk_loop]. destruct (Z.ltb_spec start (len text)); [|lia].
    set (e := Z.min (len text) (start + cs)).
    assert (He : start < e <= len text) by (unfold e; lia).
    assert (Hlen : len (slice text start e) <= cs)
      by (rewrite slice_length by lia; unfold e; lia).
    destruct (Z.geb_spec e (len text)) as [Hge|Hlt].
    + exists (slice text start e), []. repeat split; auto.
      * cbn. rewrite app_nil_r.
        replace e with (len text) by lia. apply slice_to_end; lia.
      * exists [], (Z.to_nat start). split.
        -- cbn. f_equal. replace e with (len text) by lia.
           apply slice_to_end; lia.
        -- unfold len in *. lia.
    + assert (Ee : e = start + cs) by (unfold e; lia).
      destruct (IH text cs ov (e - ov) (acc ++ [slice text start e]))
        as (c' & rest' & Hrun & Hc' & Hall & Hre & front & k & Hlast & Hk);
        [lia|lia|lia|].
      exists (slice text start e), (c' :: rest'). repeat split.
      * rewrite Hrun, <- app_assoc. reflexivity.
      * constructor; assumption.
      * cbn [reassemble map concat]. cbn [reassemble] in Hre.
        rewrite <- (slice_then_rest text start e) by lia. f_equal.
        assert (Hc'len : ov <= len c').
        { rewrite Hc', slice_length by lia. lia. }
        apply (f_equal (drop (Z.to_nat ov))) in Hre.
        rewrite drop_app_le in Hre by (unfold len in Hc'len; lia).
        rewrite Hre, drop_drop. f_equal. lia.
      * exists (slice text start e :: front), k. split; [|assumption].
        cbn. rewrite Hlast. reflexivity.
Qed.

(** The clamp of [chunk_text] leaves a valid overlap alone. *)
Lemma clamp_valid_overlap (cs ov : Z) :
  0 <= ov < cs ->
  (if 1 <? cs then Z.max 0 (Z.min ov (cs - 1)) else 0) = ov.
Proof. intros H. destruct (Z.ltb_spec 1 cs); lia. Qed.

(** C1. For every text, every [chunk_size > 0] and every overlap with
    [0 <= overlap < chunk_size], [chunk_text] returns a list of chunks such
    that no chunk is longer than [chunk_size] characters, gluing the chunks
    with the first [overlap] characters of every chunk after the first
    dropped gives back the text, and, when the text is not empty, the last
    chunk is a non-empty slice of the text running to its very end (for the
    empty text no chunk is returned at all). *)
Theorem chunk_text_reconstructs (text : str) (chunk_size overlap : Z) :
  0 < chunk_size -> 0 <= overlap < chunk_size ->
  exists chunks,
    chunk_text text chunk_size overlap = Some chunks
    /\ Forall (fun c => len c <= chunk_size) chunks
    /\ reassemble overlap chunks = text
    /\ (text = [] -> chunks = [])
    /\ (text <> [] ->
        exists front k, chunks = front ++ [drop k text]
                        /\ (k < length text)%nat).
Proof.
  intros Hcs Hov. unfold chunk_text.
  destruct (Z.leb_spec chunk_size 0); [lia|].
  rewrite clamp_valid_overlap by assumption.
  destruct text as [|c text].
  - exists []. cbn. repeat split; auto. congruence.
  - destruct (chunk_loop_spec (S (length (c :: text))) (c :: text)
                chunk_size overlap 0 []) as
      (first & rest & Hrun & _ & Hall & Hre & Hlast);
      [lia | unfold len; cbn [length]; lia | unfold len; lia |].
    exists (first :: rest). repeat split; auto.
    discriminate.
Qed.

Lemma chunk_text_reconstructs_witness :
  exists chunks,
    chunk_text sample16 5 1 = Some chunks
    /\ Forall (fun c => len c <= 5) chunks
    /\ reassemble 1 chunks = sample16
    /\ (sample16 = [] -> chunks = [])
    /\ (sample16 <> [] ->
        exists front k, chunks = front ++ [drop k sample16]
                        /\ (k < length sample16)%nat).
Proof. apply (chunk_text_reconstructs sample16 5 1); lia. Defined.

(** [chunk_text] returns for every input, whatever the size and overlap. *)
Lemma chunk_text_total (text : str) (chunk_size overlap : Z) :
  exists chunks, chunk_text text chunk_size overlap = Some chunks.
Proof.
  unfold chunk_text. destruct (Z.leb_spec chunk_size 0); [eauto|].
  set (ov := if 1 <? chunk_size then _ else 0).
  assert (Hov : 0 <= ov < chunk_size)
    by (unfold ov; destruct (Z.ltb_spec 1 chunk_size); lia).
  destruct text as [|c text]; [cbn; eauto|].
  destruct (chunk_loop_spec (S (length (c :: text))) (c :: text)
              chunk_size ov 0 []) as (first & rest & Hrun & _);
    [lia | unfold len; cbn [length]; lia | unfold len; lia |].
  eauto.
Qed.

(** More fuel never changes what the loop returns. *)
Lemma chunk_loop_more_fuel (fuel : nat) :
  forall (extra : nat) (text : str) (cs ov start : Z) (acc r : list str),
    chunk_loop fuel text cs ov start acc = Some r ->
    chunk_loop (fuel + extra) text cs ov start acc = Some r.
Proof.
  induction fuel as [|fuel IH]; intros extra text cs ov start acc r.
  - cbn [chunk_loop]. destruct (start <? len text) eqn:E; [discriminate|].
    intros H. destruct (0 + extra)%nat; cbn [chunk_loop]; rewrite E; exact H.
  - cbn [chunk_loop Nat.add]. destruct (start <? len text); [|auto].
    destruct (_ >=? _); [auto|]. apply IH.
Qed.

(** C2 as the specification words it: lengths 5, 5, 5, 1.  On the 16
    characters of the chunking test the last chunk has four characters, so
    the stated lengths are not the ones returned. *)
Lemma chunk_16_lengths_as_stated_fail :
  length sample16 = 16%nat
  /\ ~ (exists chunks, chunk_text sample16 5 1 = Some chunks
                       /\ map length chunks = [5; 5; 5; 1]%nat).
Proof.
  split; [reflexivity|]. intros (chunks & Hrun & Hlen).
  vm_compute in Hrun. injection Hrun as <-. vm_compute in Hlen. discriminate.
Qed.

(** C2, amended. For every text of exactly 16 characters,
    [chunk_text text 5 1] returns four chunks starting at offsets 0, 4, 8
    and 12, namely [text[0:5]], [text[4:9]], [text[8:13]] and
    [text[12:16]]; their lengths are 5, 5, 5 and 4. *)
Theorem chunk_16_5_1 (text : str) :
  length text = 16%nat ->
  chunk_text text 5 1
  = Some [slice text 0 5; slice text 4 9; slice text 8 13; slice text 12 16]
  /\ map length
        [slice text 0 5; slice text 4 9; slice text 8 13; slice text 12 16]
     = [5; 5; 5; 4]%nat.
Proof.
  intros Hlen.
  do 16 (destruct text as [|? text]; [discriminate Hlen|]).
  destruct text; [|discriminate Hlen].
  split; vm_compute; reflexivity.
Qed.

Lemma chunk_16_5_1_witness :
  chunk_text sample16 5 1
  = Some [slice sample16 0 5; slice sample16 4 9; slice sample16 8 13;
          slice sample16 12 16]
  /\ map length
        [slice sample16 0 5; slice sample16 4 9; slice sample16 8 13;
         slice sample16 12 16]
     = [5; 5; 5; 4]%nat.
Proof. apply (chunk_16_5_1 sample16). reflexivity. Defined.

(** ** String methods *)

Section StringFacts.

Variable P : char -> Prop.

Lemma lstrip_by_Forall (p : char -> bool) (s : str) :
  Forall P s -> Forall P (lstrip_by p s).
Proof.
  induction s as [|c s IH]; intros H; cbn; [constructor|].
  destruct (p c); [|assumption]. apply IH. inversion H; assumption.
Qed.

Lemma rstrip_by_Forall (p : char -> bool) (s : str) :
  Forall P s -> Forall P (rstrip_by p s).
Proof.
  intros H. unfold rstrip_by.
  apply List.Forall_rev, lstrip_by_Forall, List.Forall_rev, H.
Qed.

Lemma strip_by_Forall (p : char -> bool) (s : str) :
  Forall P s -> Forall P (strip_by p s).
Proof. intros H. apply rstrip_by_Forall, lstrip_by_Forall, H. Qed.

Lemma split_Forall (sep : char) (s : str) :
  Forall P s -> Forall (Forall P) (split sep s).
Proof.
  induction s as [|c s IH]; intros H; cbn.
  - repeat constructor.
  - inversion H as [|? ? Hc Hs]; subst. specialize (IH Hs).
    destruct (c =? sep)%N.
    + constructor; [constructor | assumption].
    + destruct (split sep s) as [|l ls].
      * repeat constructor; assumption.
      * inversion IH; subst. constructor; [constructor|]; assumption.
Qed.

Lemma join_Forall (sep : str) (parts : list str) :
  Forall P sep -> Forall (Forall P) parts -> Forall P (join sep parts).
Proof.
  intros Hsep. induction parts as [|p ps IH]; intros H; cbn; [constructor|].
  inversion H as [|? ? Hp Hps]; subst.
  destruct ps as [|q ps]; [assumption|].
  apply Forall_app; split; [assumption|].
  apply Forall_app; split; [assumption|]. apply IH, Hps.
Qed.

Lemma re_plus_sub_Forall (cls : char -> bool) (repl : str) (b : bool) (s : str) :
  Forall P repl -> Forall P s -> Forall P (re_plus_sub cls repl b s).
Proof.
  intros Hr. revert b. induction s as [|c s IH]; intros b H; cbn; [constructor|].
  inversion H as [|? ? Hc Hs]; subst.
  destruct (cls c); [destruct b|].
  - apply IH, Hs.
  - apply Forall_app; split; [assumption | apply IH, Hs].
  - constructor; [assumption | apply IH, Hs].
Qed.

End StringFacts.

Lemma replace_cr_as_map (s : str) :
  replace [CR] [LF] s = map (fun c => if (c =? CR)%N then LF else c) s.
Proof.
  unfold replace. induction s as [|c s IH]; [reflexivity|].
  cbn [replace_aux starts_with length Nat.sub app map].
  rewrite N.eqb_sym, andb_true_r, IH.
  destruct (c =? CR)%N; reflexivity.
Qed.

Lemma replace_cr_lacks_cr (s : str) :
  Forall (fun c => c <> CR) (replace [CR] [LF] s).
Proof.
  rewrite replace_cr_as_map.
  induction s as [|c s IH]; cbn [map]; constructor; auto.
  destruct (N.eqb_spec c CR); [discriminate | assumption].
Qed.

(** Replacing a pattern whose first character does not occur changes
    nothing. *)
Lemma replace_absent (c0 : char) (old' new s : str) :
  Forall (fun c => c <> c0) s -> replace (c0 :: old') new s = s.
Proof.
  unfold replace. induction s as [|c s IH]; intros H; [reflexivity|].
  inversion H as [|? ? Hc Hs]; subst. cbn [replace_aux starts_with].
  destruct (N.eqb_spec c0 c); [congruence|].
  cbn [andb]. f_equal. apply IH, Hs.
Qed.

(** *** [split] and [join] *)

Lemma split_nonempty (sep : char) (s : str) : split sep s <> [].
Proof.
  destruct s as [|c s]; cbn; [discriminate|].
  destruct (c =? sep)%N; [discriminate|].
  destruct (split sep s); discriminate.
Qed.

Lemma split_cons_other (sep c : char) (s : str) :
  c <> sep ->
  exists l ls, split sep s = l :: ls /\ split sep (c :: s) = (c :: l) :: ls.
Proof.
  intros Hc. cbn. destruct (N.eqb_spec c sep); [contradiction|].
  destruct (split sep s) as [|l ls] eqn:E.
  - exfalso. eapply split_nonempty, E.
  - eauto.
Qed.

Lemma join_cons2 (sep p q : str) (ps : list str) :
  join sep (p :: q :: ps) = p ++ sep ++ join sep (q :: ps).
Proof. reflexivity. Qed.

Lemma join_split (sep : char) (s : str) : join [sep] (split sep s) = s.
Proof.
  induction s as [|c s IH]; [reflexivity|].
  cbn [split]. destruct (N.eqb_spec c sep) as [->|Hc].
  - destruct (split sep s) as [|l ls] eqn:E.
    + exfalso. eapply split_nonempty, E.
    + rewrite join_cons2, IH. reflexivity.
  - destruct (split sep s) as [|l ls] eqn:E.
    + exfalso. eapply split_nonempty, E.
    + rewrite <- IH. destruct ls; reflexivity.
Qed.

Lemma split_line (sep : char) (l : str) :
  Forall (fun c => c <> sep) l -> split sep l = [l].
Proof.
  induction l as [|c l IH]; intros H; [reflexivity|].
  inversion H as [|? ? Hc Hl]; subst. cbn.
  destruct (N.eqb_spec c sep); [contradiction|]. rewrite IH by assumption.
  reflexivity.
Qed.

Lemma split_app_sep (sep : char) (u v : str) :
  split sep (u ++ sep :: v) = split sep u ++ split sep v.
Proof.
  induction u as [|c u IH]; cbn.
  - rewrite N.eqb_refl. destruct (split sep v) eqn:E; [|reflexivity].
    exfalso. eapply split_nonempty, E.
  - destruct (N.eqb_spec c sep).
    + rewrite IH. reflexivity.
    + rewrite IH. destruct (split sep u) as [|l ls] eqn:E.
      * exfalso. eapply split_nonempty, E.
      * reflexivity.
Qed.

Lemma split_line_then (sep : char) (l v : str) :
  Forall (fun c => c <> sep) l ->
  split sep (l ++ sep :: v) = l :: split sep v.
Proof. intros H. rewrite split_app_sep, split_line by assumption. reflexivity. Qed.

Lemma split_join (sep : char) (parts : list str) :
  parts <> [] -> Forall (Forall (fun c => c <> sep)) parts ->
  split sep (join [sep] parts) = parts.
Proof.
  induction parts as [|p ps IH]; intros Hne H; [contradiction|].
  inversion H as [|? ? Hp Hps]; subst.
  destruct ps as [|q ps].
  - cbn. apply split_line, Hp.
  - rewrite join_cons2. cbn [app]. rewrite split_line_then by assumption.
    f_equal. apply IH; [discriminate | assumption].
Qed.

Lemma split_lines_lack_sep (sep : char) (s : str) :
  Forall (Forall (fun c => c <> sep)) (split sep s).
Proof.
  induction s as [|c s IH]; cbn.
  - repeat constructor.
  - destruct (N.eqb_spec c sep) as [->|Hc].
    + constructor; [constructor | assumption].
    + destruct (split sep s) as [|l ls].
      * repeat constructor; assumption.
      * inversion IH; subst. constructor; [constructor|]; assumption.
Qed.

(** *** [strip] *)

Lemma lstrip_by_decomp (p : char -> bool) (s : str) :
  exists a, s = a ++ lstrip_by p s /\ Forall (fun c => p c = true) a.
Proof.
  induction s as [|c s (a & Ha & Hall)]; cbn.
  - exists []. split; [reflexivity | constructor].
  - destruct (p c) eqn:E.
    + exists (c :: a). split; [cbn; congruence | constructor; assumption].
    + exists []. split; [reflexivity | constructor].
Qed.

Lemma lstrip_by_head (p : char -> bool) (s : str) : bare_head p (lstrip_by p s).
Proof.
  induction s as [|c s IH]; cbn; [exact I|].
  destruct (p c) eqn:E; [assumption | exact E].
Qed.

Lemma lstrip_by_fix (p : char -> bool) (s : str) :
  bare_head p s -> lstrip_by p s = s.
Proof. destruct s as [|c s]; cbn; [reflexivity|]. intros ->. reflexivity. Qed.

Lemma lstrip_by_snoc (p : char -> bool) (u : str) (c : char) :
  p c = false -> lstrip_by p (u ++ [c]) = lstrip_by p u ++ [c].
Proof.
  intros Hc. induction u as [|d u IH]; cbn.
  - rewrite Hc. reflexivity.
  - destruct (p d); [assumption | reflexivity].
Qed.

Lemma rstrip_by_cons (p : char -> bool) (c : char) (t : str) :
  p c = false -> rstrip_by p (c :: t) = c :: rstrip_by p t.
Proof.
  intros Hc. unfold rstrip_by. cbn [rev].
  rewrite lstrip_by_snoc by assumption. apply rev_unit.
Qed.

Lemma rstrip_by_head (p : char -> bool) (s : str) :
  bare_head p s -> bare_head p (rstrip_by p s).
Proof.
  destruct s as [|c s]; [trivial|]. cbn [bare_head].
  intros Hc. rewrite rstrip_by_cons by assumption. exact Hc.
Qed.

Lemma rstrip_by_idem (p : char -> bool) (s : str) :
  rstrip_by p (rstrip_by p s) = rstrip_by p s.
Proof.
  unfold rstrip_by. rewrite rev_involutive.
  rewrite (lstrip_by_fix p (lstrip_by p (rev s))) by apply lstrip_by_head.
  reflexivity.
Qed.

Lemma strip_by_idem (p : char -> bool) (s : str) :
  strip_by p (strip_by p s) = strip_by p s.
Proof.
  unfold strip_by.
  rewrite (lstrip_by_fix p (rstrip_by p (lstrip_by p s)))
    by apply rstrip_by_head, lstrip_by_head.
  apply rstrip_by_idem.
Qed.

Lemma rstrip_by_decomp (p : char -> bool) (s : str) :
  exists b, s = rstrip_by p s ++ b /\ Forall (fun c => p c = true) b.
Proof.
  destruct (lstrip_by_decomp p (rev s)) as (a & Ha & Hall).
  exists (rev a). split; [|apply List.Forall_rev, Hall].
  unfold rstrip_by. rewrite <- rev_app_distr, <- Ha, rev_involutive.
  reflexivity.
Qed.

Lemma strip_by_decomp (p : char -> bool) (s : str) :
  exists a b, s = a ++ strip_by p s ++ b
              /\ Forall (fun c => p c = true) a
              /\ Forall (fun c => p c = true) b.
Proof.
  destruct (lstrip_by_decomp p s) as (a & Ha & Hall).
  destruct (rstrip_by_decomp p (lstrip_by p s)) as (b & Hb & Hbll).
  exists a, b. unfold strip_by. rewrite <- Hb. auto.
Qed.

(** The last character of a right-stripped string is not one of [p]. *)
Lemma rstrip_by_last (p : char -> bool) (s body : str) (c : char) :
  rstrip_by p s = body ++ [c] -> p c = false.
Proof.
  unfold rstrip_by. intros H.
  apply (f_equal (@rev char)) in H. rewrite rev_involutive, rev_unit in H.
  pose proof (lstrip_by_head p (rev s)) as Hh. rewrite H in Hh. exact Hh.
Qed.

(** *** The whitespace regex *)

Lemma collapsed_app (a b : str) :
  collapsed (a ++ b) -> collapsed a /\ collapsed b.
Proof.
  induction a as [|c a IH]; cbn [app collapsed]; [tauto|].
  intros (Ht & Hs & Hc). destruct (IH Hc) as [Ha Hb].
  repeat split; auto.
  intros E. specialize (Hs E). destruct a; [exact I | exact Hs].
Qed.

Lemma _WS_RE_false (c : char) : c <> SPACE -> c <> TAB -> _WS_RE c = false.
Proof.
  intros H1 H2. unfold _WS_RE.
  destruct (N.eqb_spec c SPACE), (N.eqb_spec c TAB);
    try contradiction; reflexivity.
Qed.

Lemma _WS_RE_true (c : char) : _WS_RE c = true -> c = SPACE \/ c = TAB.
Proof.
  unfold _WS_RE.
  destruct (N.eqb_spec c SPACE), (N.eqb_spec c TAB); auto; discriminate.
Qed.

Lemma re_plus_sub_collapsed (s : str) :
  collapsed (re_plus_sub _WS_RE [SPACE] false s)
  /\ collapsed (re_plus_sub _WS_RE [SPACE] true s)
  /\ bare_head (N.eqb SPACE) (re_plus_sub _WS_RE [SPACE] true s).
Proof.
  induction s as [|c s (IH1 & IH2 & IH3)]; cbn [re_plus_sub].
  - cbn. auto.
  - destruct (_WS_RE c) eqn:E.
    + repeat split; auto; discriminate.
    + assert (c <> SPACE /\ c <> TAB) as [Hs Ht].
      { unfold _WS_RE in E.
        destruct (N.eqb_spec c SPACE), (N.eqb_spec c TAB);
          try discriminate; auto. }
      cbn [collapsed bare_head]. repeat split; auto; try contradiction.
      destruct (N.eqb_spec SPACE c); congruence.
Qed.

Lemma re_plus_sub_fix (s : str) :
  collapsed s ->
  re_plus_sub _WS_RE [SPACE] false s = s
  /\ (bare_head (N.eqb SPACE) s -> re_plus_sub _WS_RE [SPACE] true s = s).
Proof.
  induction s as [|c s IH]; [cbn; auto|].
  intros (Ht & Hs & Hc). destruct (IH Hc) as [IH1 IH2].
  cbn [re_plus_sub bare_head]. destruct (N.eqb_spec SPACE c) as [E|E].
  - subst c. replace (_WS_RE SPACE) with true by reflexivity.
    split; [|discriminate]. cbn [app]. rewrite IH2 by auto. reflexivity.
  - rewrite _WS_RE_false by congruence. rewrite IH1. auto.
Qed.

(** Cleaning one line a second time changes nothing. *)
Lemma clean_line_idem (line : str) :
  strip (_WS_RE_sub [SPACE] (strip (_WS_RE_sub [SPACE] line)))
  = strip (_WS_RE_sub [SPACE] line).
Proof.
  unfold _WS_RE_sub, strip.
  set (m := re_plus_sub _WS_RE [SPACE] false line).
  assert (Hm : collapsed m) by apply re_plus_sub_collapsed.
  destruct (strip_by_decomp isspace m) as (a & b & Hab & _ & _).
  rewrite Hab in Hm. apply collapsed_app in Hm as [_ Hm].
  apply collapsed_app in Hm as [Hm _].
  destruct (re_plus_sub_fix _ Hm) as [-> _]. apply strip_by_idem.
Qed.

(** ** Text normaliser *)

Lemma one_of_single (x c : char) : one_of [x] c = true -> c = x.
Proof.
  unfold one_of. cbn. rewrite orb_false_r. intros H.
  apply N.eqb_eq, H.
Qed.

Lemma split_skip_leading (Q : str -> Prop) (sep : char) (a w : str) :
  Forall (fun c => one_of [sep] c = true) a ->
  Forall Q (split sep (a ++ w)) -> Forall Q (split sep w).
Proof.
  induction a as [|c a IH]; intros Ha H; [exact H|].
  inversion Ha as [|? ? Hc Ha']; subst. apply one_of_single in Hc. subst c.
  cbn [app split] in H. rewrite N.eqb_refl in H.
  inversion H; subst. apply IH; assumption.
Qed.

Lemma split_skip_trailing (Q : str -> Prop) (sep : char) (y b : str) :
  Forall (fun c => one_of [sep] c = true) b ->
  Forall Q (split sep (y ++ b)) -> Forall Q (split sep y).
Proof.
  intros Hb H. destruct b as [|c b].
  - rewrite app_nil_r in H. exact H.
  - inversion Hb as [|? ? Hc _]; subst. apply one_of_single in Hc. subst c.
    rewrite split_app_sep in H. apply Forall_app in H. tauto.
Qed.

Lemma map_fixed {A : Type} (f : A -> A) (l : list A) :
  Forall (fun x => f x = x) l -> map f l = l.
Proof. induction 1; cbn; congruence. Qed.

(** What the normaliser returns: no carriage return, every line already
    clean, and no line feed at either end. *)
Lemma clean_text_shape (s : str) :
  let r := DocxReader._clean_text s in
  Forall (fun c => c <> CR) r
  /\ Forall (fun l => strip (_WS_RE_sub [SPACE] l) = l) (split LF r)
  /\ strip_chars [LF] r = r.
Proof.
  unfold DocxReader._clean_text.
  set (s1 := replace [CR] [LF] (replace [CR; LF] [LF] s)).
  set (f := fun line => strip (_WS_RE_sub [SPACE] line)).
  set (lines := map f (split LF s1)). cbn zeta.
  assert (Hcr1 : Forall (fun c => c <> CR) s1) by apply replace_cr_lacks_cr.
  assert (Hlines_cr : Forall (Forall (fun c => c <> CR)) lines).
  { unfold lines. apply Forall_map.
    eapply Forall_impl; [apply split_Forall, Hcr1|].
    intros l Hl. cbn. unfold f, strip, _WS_RE_sub.
    apply strip_by_Forall, re_plus_sub_Forall; [|exact Hl].
    repeat constructor. discriminate. }
  assert (Hlines_lf : Forall (Forall (fun c => c <> LF)) lines).
  { unfold lines. apply Forall_map.
    eapply Forall_impl; [apply split_lines_lack_sep|].
    intros l Hl. cbn. unfold f, strip, _WS_RE_sub.
    apply strip_by_Forall, re_plus_sub_Forall; [|exact Hl].
    repeat constructor. discriminate. }
  assert (Hlines_fix : Forall (fun l => f l = l) lines).
  { unfold lines. apply Forall_map, Forall_forall. intros l _. cbn.
    apply clean_line_idem. }
  assert (Hne : lines <> []).
  { unfold lines. intros E. apply map_eq_nil in E.
    eapply split_nonempty, E. }
  unfold strip_chars.
  destruct (strip_by_decomp (one_of [LF]) (join [LF] lines))
    as (a & b & Hab & Ha & Hb).
  repeat split.
  - apply strip_by_Forall, join_Forall; [|exact Hlines_cr].
    repeat constructor. discriminate.
  - apply (split_skip_trailing _ LF _ b Hb).
    apply (split_skip_leading _ LF a _ Ha).
    rewrite <- Hab, split_join by assumption. exact Hlines_fix.
  - apply strip_by_idem.
Qed.

(** C3. The text normaliser is idempotent: cleaning an already cleaned
    string returns it unchanged, for every input string; the two readers
    carry the same normaliser. *)
Theorem clean_text_idempotent (s : str) :
  DocxReader._clean_text (DocxReader._clean_text s) = DocxReader._clean_text s
  /\ PdfReader._clean_text (PdfReader._clean_text s) = PdfReader._clean_text s
  /\ PdfReader._clean_text s = DocxReader._clean_text s.
Proof.
  assert (H : DocxReader._clean_text (DocxReader._clean_text s)
              = DocxReader._clean_text s).
  { destruct (clean_text_shape s) as (Hcr & Hfix & Hstrip).
    set (r := DocxReader._clean_text s) in *.
    unfold DocxReader._clean_text at 1.
    rewrite (replace_absent CR [LF] [LF] r Hcr).
    rewrite (replace_absent CR [] [LF] r Hcr).
    rewrite (map_fixed _ _ Hfix), join_split. exact Hstrip. }
  repeat split; exact H.
Qed.

(** ** Table formatting *)

Lemma fold_max_spec (rows : list (list str)) :
  forall init : Z,
    let t := fold_left (fun target row => Z.max target (len row)) rows init in
    init <= t
    /\ Forall (fun r => len r <= t) rows
    /\ (t = init \/ Exists (fun r => len r = t) rows).
Proof.
  induction rows as [|row rows IH]; intros init; cbn [fold_left].
  - repeat split; [lia | constructor | auto].
  - destruct (IH (Z.max init (len row))) as (Hge & Hall & Hhit).
    repeat split; [lia | constructor; [lia | exact Hall] |].
    destruct Hhit as [E|Hex]; [|right; constructor 2; exact Hex].
    destruct (Z.max_spec init (len row)) as [[_ E']|[_ E']].
    + right. constructor 1. lia.
    + left. lia.
Qed.

(** The width of a table: no row is longer, and some row is that long. *)
Lemma target_cols_is_max (rows : list (list str)) :
  Forall (fun r => len r <= TxtWriter.target_cols rows true) rows
  /\ (rows <> [] ->
      Exists (fun r => len r = TxtWriter.target_cols rows true) rows).
Proof.
  unfold TxtWriter.target_cols.
  destruct (fold_max_spec rows 0) as (Hge & Hall & Hhit).
  split; [exact Hall|]. intros Hne.
  destruct Hhit as [E|Hex]; [|exact Hex].
  destruct rows as [|row rows]; [contradiction|].
  constructor 1. rewrite E in *. inversion Hall; subst.
  unfold len in *. lia.
Qed.

Lemma cells_padded (target : Z) (row : list str) :
  len row <= target ->
  TxtWriter.cells true target row
  = row ++ replicate (Z.to_nat (target - len row)) [].
Proof.
  intros Hle. unfold TxtWriter.cells. cbn [andb].
  pose proof (Nat2Z.is_nonneg (length row)) as Hnn. fold (len row) in Hnn.
  destruct (Z.ltb_spec 0 target), (Z.ltb_spec (len row) target);
    cbn [andb]; try reflexivity;
    replace (Z.to_nat (target - len row)) with 0%nat by lia;
    cbn; now rewrite app_nil_r.
Qed.

(** C5. With [normalize_tables] on, every row of a table is brought to the
    length of its longest row by appending empty cells after the row's own
    cells: the row itself is a prefix of the padded row, unchanged, and a
    row that already has the maximal length is left as it is.  The rendered
    lines are built from these padded rows. *)
Theorem format_table_pads_rows (rows : list (list str)) (fmt : str) :
  let target := TxtWriter.target_cols rows true in
  Forall (fun r => len r <= target) rows
  /\ (rows <> [] -> Exists (fun r => len r = target) rows)
  /\ Forall (fun row =>
               TxtWriter.cells true target row
               = row ++ replicate (Z.to_nat (target - len row)) []
               /\ len (TxtWriter.cells true target row) = target
               /\ (len row = target -> TxtWriter.cells true target row = row))
            rows
  /\ TxtWriter._format_table rows fmt true
     = map (fun row =>
              let padded := row ++ replicate (Z.to_nat (target - len row)) [] in
              if bool_decide (fmt = lit "tsv")
              then rstrip (join [TAB] (TxtWriter.safe_cells padded))
              else lit "| " ++ join (lit " | ") (TxtWriter.safe_cells padded)
                   ++ lit " |")
           rows.
Proof.
  intros target. destruct (target_cols_is_max rows) as [Hall Hex].
  fold target in Hall, Hex.
  assert (Hcells : Forall (fun row =>
            TxtWriter.cells true target row
            = row ++ replicate (Z.to_nat (target - len row)) []) rows).
  { eapply Forall_impl; [exact Hall|]. intros row Hle. cbn beta.
    apply cells_padded, Hle. }
  repeat split; auto.
  - rewrite Forall_forall in Hall, Hcells. apply Forall_forall.
    intros row Hin. specialize (Hall row Hin). specialize (Hcells row Hin).
    cbn beta in *. rewrite Hcells. repeat split.
    + unfold len in *. rewrite length_app, length_replicate. lia.
    + intros E. rewrite E, Z.sub_diag. cbn. apply app_nil_r.
  - unfold TxtWriter._format_table. fold target.
    apply map_ext_Forall. eapply Forall_impl; [exact Hcells|].
    intros row E. cbn beta zeta. rewrite E. reflexivity.
Qed.

(** C4 as the specification words it: the second line keeps a trailing
    tab.  The writer's [rstrip] removes it. *)
Lemma tsv_trailing_tab_as_stated_fails :
  TxtWriter._format_table [[lit "A1"; lit "B1"]; [lit "A2"]] (lit "tsv") true
  <> [lit "A1" ++ [TAB] ++ lit "B1"; lit "A2" ++ [TAB]].
Proof. vm_compute. discriminate. Qed.

(** C4, amended. A table with rows [["A1","B1"],["A2"]], formatted with
    [normalize_tables] on and [table_format] "tsv", is rendered as exactly
    two lines: "A1", a tab, "B1"; then "A2" alone.  The second row is padded
    with one empty cell, and the tab that the padding brings is removed by
    the trailing-whitespace trim of the tsv format. *)
Theorem tsv_scenario_lines :
  TxtWriter.cells true
    (TxtWriter.target_cols [[lit "A1"; lit "B1"]; [lit "A2"]] true) [lit "A2"]
  = [lit "A2"; []]
  /\ TxtWriter._format_table [[lit "A1"; lit "B1"]; [lit "A2"]] (lit "tsv") true
     = [lit "A1" ++ [TAB] ++ lit "B1"; lit "A2"].
Proof. split; vm_compute; reflexivity. Qed.

(** ** Assembled text *)

Lemma lstrip_by_all (p : char -> bool) (s : str) :
  Forall (fun c => p c = true) s -> lstrip_by p s = [].
Proof. induction 1 as [|c s Hc _ IH]; cbn; [|rewrite Hc]; auto. Qed.

Lemma rstrip_by_all (p : char -> bool) (s : str) :
  Forall (fun c => p c = true) s -> rstrip_by p s = [].
Proof.
  intros H. unfold rstrip_by.
  rewrite lstrip_by_all by apply List.Forall_rev, H. reflexivity.
Qed.

(** C9. The text the writer assembles is a body followed by one line feed;
    the body is empty or ends with a character that is not whitespace, so
    the text ends with exactly one line feed and has no whitespace before
    it.  A model without blocks, or one whose rendered lines are all
    whitespace, gives the one-character text made of a line feed. *)
Theorem text_ends_with_one_newline (i18n : I18nManager)
    (model : DocumentModel) (options : WriteOptions) :
  exists body,
    TxtWriter.text i18n model options = body ++ [LF]
    /\ (forall front c, body = front ++ [c] -> isspace c = false)
    /\ (forall front, body <> front ++ [LF])
    /\ (blocks model = [] -> TxtWriter.text i18n model options = [LF])
    /\ (Forall (fun c => isspace c = true)
               (join [LF] (TxtWriter.out_lines i18n model options)) ->
        TxtWriter.text i18n model options = [LF]).
Proof.
  exists (rstrip (join [LF] (TxtWriter.out_lines i18n model options))).
  assert (Hlast : forall front c,
             rstrip (join [LF] (TxtWriter.out_lines i18n model options))
             = front ++ [c] -> isspace c = false).
  { intros front c E. eapply rstrip_by_last, E. }
  repeat split.
  - exact Hlast.
  - intros front E. apply Hlast in E. discriminate E.
  - intros Hb. unfold TxtWriter.text, TxtWriter.out_lines. rewrite Hb.
    reflexivity.
  - intros Hws. unfold TxtWriter.text, rstrip.
    rewrite rstrip_by_all by exact Hws. reflexivity.
Qed.

(** ** Output files *)

Lemma enumerate_lookup {A : Type} (l : list A) :
  forall (start : Z) (i : nat),
    enumerate start l !! i = (fun x => (start + Z.of_nat i, x)) <$> l !! i.
Proof.
  induction l as [|x l IH]; intros start i; [reflexivity|].
  destruct i as [|i]; cbn.
  - rewrite Z.add_0_r. reflexivity.
  - rewrite IH. destruct (l !! i); cbn; [|reflexivity].
    do 2 f_equal. lia.
Qed.

Lemma for_each_recording {A : Type} (ev : A -> io_event) (l : list A) :
  forall (body : A -> M (list io_event) unit),
    (forall x log, body x log = Returned tt (log ++ [ev x])) ->
    forall log, for_each body l log = Returned tt (log ++ map ev l).
Proof.
  intros body Hbody. induction l as [|x l IH]; intros log; cbn [for_each map].
  - unfold ret. rewrite app_nil_r. reflexivity.
  - unfold bind. rewrite Hbody, IH, <- app_assoc. reflexivity.
Qed.

(** Up to 999 the part number is printed with exactly three digits. *)
Lemma format_03d_digits (idx : Z) :
  0 <= idx <= 999 ->
  format_03d idx
  = [digit (idx / 100); digit (idx / 10 mod 10); digit (idx mod 10)].
Proof.
  intros Hidx.
  assert (Hall : forallb
            (fun n => bool_decide
               (format_03d (Z.of_nat n)
                = [digit (Z.of_nat n / 100); digit (Z.of_nat n / 10 mod 10);
                   digit (Z.of_nat n mod 10)]))
            (seq 0 1000) = true) by (vm_compute; reflexivity).
  rewrite forallb_forall in Hall.
  specialize (Hall (Z.to_nat idx)).
  rewrite Z2Nat.id in Hall by lia.
  eapply bool_decide_eq_true_1, Hall, in_seq. lia.
Qed.

(** C8 as the specification words it: chunk files carry the extension of
    [output_path].  Writing the chunking test's document to
    [out/REPORT.TXT] creates [out/REPORT_part001.txt] and its siblings; the
    file [out/REPORT_part001.TXT] the specification names is never
    written. *)
Lemma chunk_file_extension_as_stated_fails :
  @chunk_file_as_specified posix (lit "out/REPORT.TXT") 1
  = lit "out/REPORT_part001.TXT"
  /\ @TxtWriter.write no_locales _ recording posix
       hello_model (lit "out/REPORT.TXT") chunk_5_1 []
     = Returned tt
         [Mkdir (lit "out");
          WriteText (lit "out/REPORT_part001.txt") (lit "Hello") utf_8;
          WriteText (lit "out/REPORT_part002.txt") (lit "o Wor") utf_8;
          WriteText (lit "out/REPORT_part003.txt") (lit "rld 1") utf_8;
          WriteText (lit "out/REPORT_part004.txt") (lit "123" ++ [LF]) utf_8]
  /\ ~ (exists log data enc,
          @TxtWriter.write no_locales _ recording posix
            hello_model (lit "out/REPORT.TXT") chunk_5_1 [] = Returned tt log
          /\ In (WriteText
                   (@chunk_file_as_specified posix (lit "out/REPORT.TXT") 1)
                   data enc) log).
Proof.
  split; [vm_compute; reflexivity|].
  split; [vm_compute; reflexivity|].
  intros (log & data & enc & Hrun & Hin).
  vm_compute in Hrun. injection Hrun as <-.
  vm_compute in Hin. intuition discriminate.
Qed.

(** C8, amended. With [enable_chunk] set the writer creates the parent
    directory of [output_path] and writes the chunks, in order and numbered
    from 1, to the files [{stem}_part{NNN}.txt] of that directory, where
    [NNN] is the number printed with three digits (for numbers up to 999)
    and the extension is always [.txt], whatever the extension of
    [output_path]; with chunking off it writes the whole text to
    [output_path] itself. *)
Theorem write_output_files `{Pathlib} (i18n : I18nManager)
    (model : DocumentModel) (output_path : str) (options : WriteOptions)
    (log : list io_event) :
  let text := TxtWriter.text i18n model options in
  let enc := if default false (wo_utf8_bom options) then utf_8_sig else utf_8 in
  let folder := path_parent output_path in
  exists chunks,
    chunk_text text (default 12000 (wo_chunk_size options))
               (default 300 (wo_overlap options)) = Some chunks
    /\ (default false (wo_enable_chunk options) = true ->
        @TxtWriter.write i18n _ recording _ model output_path options log
        = Returned tt
            (log ++ Mkdir folder
                 :: map (fun '(idx, c) =>
                           WriteText (chunk_file output_path idx) c enc)
                        (enumerate 1 chunks)))
    /\ (default false (wo_enable_chunk options) = false ->
        @TxtWriter.write i18n _ recording _ model output_path options log
        = Returned tt (log ++ [Mkdir folder; WriteText output_path text enc]))
    /\ (forall i : nat,
          enumerate 1 chunks !! i
          = (fun c => (1 + Z.of_nat i, c)) <$> chunks !! i)
    /\ (forall idx, 0 <= idx <= 999 ->
          format_03d idx
          = [digit (idx / 100); digit (idx / 10 mod 10); digit (idx mod 10)]).
Proof.
  intros text enc folder.
  destruct (chunk_text_total text (default 12000 (wo_chunk_size options))
              (default 300 (wo_overlap options))) as [chunks Hchunks].
  exists chunks. split; [exact Hchunks|].
  repeat split.
  - intros Hon. unfold TxtWriter.write. rewrite Hon. fold text.
    rewrite Hchunks. unfold bind. cbn [mkdir_parents recording].
    rewrite (for_each_recording
               (fun '(idx, c) => WriteText (chunk_file output_path idx) c enc)).
    + rewrite <- app_assoc. reflexivity.
    + intros [idx c] log'. reflexivity.
  - intros Hoff. unfold TxtWriter.write. rewrite Hoff. fold text.
    unfold bind. cbn [mkdir_parents write_text recording].
    rewrite <- app_assoc. reflexivity.
  - apply enumerate_lookup.
  - apply format_03d_digits.
Qed.

(** ** Conversion engine *)

(** C6. When the lowercased suffix of [input_path] has no registered
    reader, or that of [output_path] no registered writer, [convert] raises
    [UnsupportedExtensionError] with a message naming the missing side
    (reader or writer) and the extension, and the world is the one
    [convert] was called in: no plugin has run, nothing has been read or
    written. *)
Theorem convert_unsupported_extension {W : Type} `{Pathlib} `{CaseMapping}
    (registry : PluginRegistry.state W) (input_path output_path : str)
    (read_options : ReadOptions) (write_options : WriteOptions) (w : W) :
  PluginRegistry.get_reader registry (lower (path_suffix input_path)) = None
  \/ PluginRegistry.get_writer registry (lower (path_suffix output_path)) = None ->
  exists side ext,
    CoreEngine.convert registry input_path output_path
      read_options write_options w
    = Raised (UnsupportedExtensionError
                (lit "No " ++ side ++ lit " found for extension '" ++ ext
                 ++ lit "'")) w
    /\ (side = lit "reader" /\ ext = lower (path_suffix input_path)
        /\ PluginRegistry.get_reader registry ext = None
        \/ side = lit "writer" /\ ext = lower (path_suffix output_path)
           /\ PluginRegistry.get_writer registry ext = None).
Proof.
  intros Hmissing. unfold CoreEngine.convert.
  destruct (PluginRegistry.get_reader registry (lower (path_suffix input_path)))
    as [ReaderCls|] eqn:Er.
  - destruct Hmissing as [Hr|Hw]; [discriminate Hr|]. rewrite Hw.
    exists (lit "writer"), (lower (path_suffix output_path)).
    split; [reflexivity | right; auto].
  - exists (lit "reader"), (lower (path_suffix input_path)).
    split; [reflexivity | left; auto].
Qed.

Lemma convert_unsupported_extension_witness :
  exists side ext,
    @CoreEngine.convert _ posix ascii_lower sample_registry
      (lit "in.invalid") (lit "out.txt") no_read_options no_write_options []
    = Raised (UnsupportedExtensionError
                (lit "No " ++ side ++ lit " found for extension '" ++ ext
                 ++ lit "'")) []
    /\ (side = lit "reader"
        /\ ext = @lower ascii_lower (@path_suffix posix (lit "in.invalid"))
        /\ @PluginRegistry.get_reader _ ascii_lower sample_registry ext = None
        \/ side = lit "writer"
           /\ ext = @lower ascii_lower (@path_suffix posix (lit "out.txt"))
           /\ @PluginRegistry.get_writer _ ascii_lower sample_registry ext = None).
Proof.
  apply (@convert_unsupported_extension _ posix ascii_lower sample_registry
           (lit "in.invalid") (lit "out.txt")).
  left. vm_compute. reflexivity.
Defined.

(** C7. When both plugins are found and the reader's [read] or the writer's
    [write] raises an exception [e] (an instance of [Exception]: an I/O
    error, a format-specific error, anything [except Exception] catches),
    [convert] raises [ConversionFailedError], which is not an
    [UnsupportedExtensionError], chained to [e], and its message is
    "Conversion failed: " followed by the text of [e]. *)
Theorem convert_wraps_plugin_errors {W : Type} `{Pathlib} `{CaseMapping}
    (registry : PluginRegistry.state W) (input_path output_path : str)
    (read_options : ReadOptions) (write_options : WriteOptions) (w w' : W)
    (ReaderCls : InputReader W) (WriterCls : OutputWriter W) (e : pyexc) :
  PluginRegistry.get_reader registry (lower (path_suffix input_path))
  = Some ReaderCls ->
  PluginRegistry.get_writer registry (lower (path_suffix output_path))
  = Some WriterCls ->
  is_Exception e = true ->
  reader_read ReaderCls input_path read_options w = Raised e w'
  \/ (exists model w1,
        reader_read ReaderCls input_path read_options w = Returned model w1
        /\ writer_write WriterCls model output_path write_options w1
           = Raised e w') ->
  exists failure,
    CoreEngine.convert registry input_path output_path
      read_options write_options w = Raised failure w'
    /\ failure = ConversionFailedError (lit "Conversion failed: " ++ exc_str e) e
    /\ (forall msg, failure <> UnsupportedExtensionError msg)
    /\ exists before after, exc_str failure = before ++ exc_str e ++ after.
Proof.
  intros Hr Hw He Hraise.
  exists (ConversionFailedError (lit "Conversion failed: " ++ exc_str e) e).
  repeat split.
  - unfold CoreEngine.convert. rewrite Hr, Hw. unfold try_except, bind.
    destruct Hraise as [Hread | (model & w1 & Hread & Hwrite)].
    + rewrite Hread, He. reflexivity.
    + rewrite Hread, Hwrite, He. reflexivity.
  - discriminate.
  - exists (lit "Conversion failed: "), []. cbn [exc_str].
    rewrite app_nil_r. reflexivity.
Qed.

Lemma sample_registry_reader :
  @PluginRegistry.get_reader _ ascii_lower sample_registry (lit ".pdf")
  = Some pdf_reader_cls.
Proof.
  unfold PluginRegistry.get_reader, sample_registry,
    PluginRegistry.register_writer, PluginRegistry.register_reader.
  cbn [PluginRegistry._readers pdf_reader_cls reader_extensions
       PdfReader.get_supported_extensions fold_left].
  replace (@lower ascii_lower (lit ".pdf")) with (lit ".pdf")
    by (vm_compute; reflexivity).
  apply lookup_insert_eq.
Qed.

Lemma sample_registry_writer :
  @PluginRegistry.get_writer _ ascii_lower sample_registry (lit ".txt")
  = Some txt_writer_cls.
Proof.
  unfold PluginRegistry.get_writer, sample_registry,
    PluginRegistry.register_writer, PluginRegistry.register_reader.
  cbn [PluginRegistry._writers txt_writer_cls writer_extensions
       TxtWriter.get_supported_extensions fold_left].
  replace (@lower ascii_lower (lit ".txt")) with (lit ".txt")
    by (vm_compute; reflexivity).
  apply lookup_insert_eq.
Qed.

Lemma convert_wraps_plugin_errors_witness :
  exists failure,
    @CoreEngine.convert _ posix ascii_lower sample_registry
      (lit "missing.pdf") (lit "out.txt") no_read_options no_write_options []
    = Raised failure []
    /\ failure
       = ConversionFailedError
           (lit "Conversion failed: " ++ exc_str missing_pdf_error)
           missing_pdf_error
    /\ (forall msg, failure <> UnsupportedExtensionError msg)
    /\ exists before after,
         exc_str failure = before ++ exc_str missing_pdf_error ++ after.
Proof.
  apply (@convert_wraps_plugin_errors _ posix ascii_lower sample_registry
           (lit "missing.pdf") (lit "out.txt") no_read_options
           no_write_options [] [] pdf_reader_cls txt_writer_cls
           missing_pdf_error).
  - replace (@lower ascii_lower (@path_suffix posix (lit "missing.pdf")))
      with (lit ".pdf") by (vm_compute; reflexivity).
    exact sample_registry_reader.
  - replace (@lower ascii_lower (@path_suffix posix (lit "out.txt")))
      with (lit ".txt") by (vm_compute; reflexivity).
    exact sample_registry_writer.
  - reflexivity.
  - left. reflexivity.
Defined.

(** ** PDF reader *)

Lemma fold_left_append {A B : Type} (f : list B -> A -> list B)
    (g : A -> list B) :
  (forall acc x, f acc x = acc ++ g x) ->
  forall (l : list A) (acc : list B),
    fold_left f l acc = acc ++ concat (map g l).
Proof.
  intros Hf. induction l as [|x l IH]; intros acc; cbn.
  - now rewrite app_nil_r.
  - rewrite IH, Hf, <- app_assoc. reflexivity.
Qed.

(** A page on which the detector raised is read as a page on which it found
    no table. *)
Lemma read_page_detector_failure (ih it ke : bool) (num : Z) (page : Page)
    (blocks : list Block) (e : pyexc) :
  extract_tables page = Raise e -> is_Exception e = true ->
  PdfReader.read_page ih it ke num page blocks
  = PdfReader.read_page ih it ke num
      (mkPage (extract_text page) (Return (Some []))) blocks.
Proof.
  intros He Hexc. unfold PdfReader.read_page, PdfReader.detected_tables.
  cbn [extract_text extract_tables]. rewrite He, Hexc. reflexivity.
Qed.

(** What one page adds to the model. *)
Lemma read_page_spec (ih it ke : bool) (num : Z) (page : Page)
    (blocks : list Block) (raw : option str) :
  extract_text page = Return raw ->
  (forall e, extract_tables page = Raise e -> is_Exception e = true) ->
  exists new,
    PdfReader.read_page ih it ke num page blocks = Return (blocks ++ new)
    /\ ((exists e, extract_tables page = Raise e) ->
        Forall (fun b => is_TableBlock b = false) new).
Proof.
  intros Htext Hexc. unfold PdfReader.read_page. rewrite Htext.
  set (hdr := if ih
              then [ParagraphBlock (lit "Page " ++ str_of_int num) true false]
              else []).
  assert (Hhdr : (if ih
                  then blocks ++ [ParagraphBlock (lit "Page " ++ str_of_int num)
                                    true false]
                  else blocks) = blocks ++ hdr)
    by (unfold hdr; destruct ih; [reflexivity | now rewrite app_nil_r]).
  rewrite Hhdr. clear Hhdr.
  assert (Hhdr_ok : Forall (fun b => is_TableBlock b = false) hdr)
    by (unfold hdr; destruct ih; repeat constructor).
  set (par := fun line : str =>
                if negb (bool_decide (line = [])) || ke
                then [ParagraphBlock line false false] else []).
  assert (Htxt : exists txt,
             match raw with
             | Some (c :: rest) =>
                 fold_left
                   (fun blocks line =>
                      if negb (bool_decide (line = [])) || ke
                      then blocks ++ [ParagraphBlock line false false]
                      else blocks)
                   (split LF (PdfReader._clean_text (c :: rest))) (blocks ++ hdr)
             | _ => if ke then (blocks ++ hdr) ++ [ParagraphBlock [] false false]
                    else blocks ++ hdr
             end = (blocks ++ hdr) ++ txt
             /\ Forall (fun b => is_TableBlock b = false) txt).
  { destruct raw as [[|c rest]|].
    - destruct ke; [eexists; split; [reflexivity | repeat constructor]|].
      exists []. split; [now rewrite app_nil_r | constructor].
    - exists (concat (map par (split LF (PdfReader._clean_text (c :: rest))))).
      split.
      + apply (fold_left_append _ par). intros acc line. unfold par.
        destruct (negb _ || ke); [reflexivity | now rewrite app_nil_r].
      + apply Forall_concat, Forall_map, Forall_forall. intros line _.
        unfold par. destruct (negb _ || ke); repeat constructor.
    - destruct ke; [eexists; split; [reflexivity | repeat constructor]|].
      exists []. split; [now rewrite app_nil_r | constructor]. }
  destruct Htxt as (txt & -> & Htxt_ok).
  destruct it.
  - unfold PdfReader.detected_tables.
    destruct (extract_tables page) as [tables|e] eqn:Et.
    + rewrite (fold_left_append _
                 (fun table => [TableBlock (map (map PdfReader.clean_cell) table)
                                  false false]))
        by reflexivity.
      eexists. split; [rewrite <- !app_assoc; reflexivity|].
      intros [e He]. discriminate He.
    + rewrite (Hexc e eq_refl). cbn [default fold_left].
      exists (hdr ++ txt). split; [now rewrite app_assoc|].
      intros _. apply Forall_app; auto.
  - exists (hdr ++ txt). split; [now rewrite app_assoc|].
    intros _. apply Forall_app; auto.
Qed.

Lemma read_pages_spec (ih it ke : bool) (pages : list Page) :
  Forall (fun page => exists raw, extract_text page = Return raw) pages ->
  Forall (fun page => forall e, extract_tables page = Raise e ->
                                is_Exception e = true) pages ->
  forall (start : Z) (blocks : list Block),
  exists per_page,
    PdfReader.read_pages ih it ke (enumerate start pages) blocks
    = Return (blocks ++ concat per_page)
    /\ Forall2 (fun page new =>
                  (exists e, extract_tables page = Raise e) ->
                  Forall (fun b => is_TableBlock b = false) new)
               pages per_page.
Proof.
  induction pages as [|page pages IH]; intros Htext Hexc start blocks.
  - exists []. cbn. rewrite app_nil_r. split; [reflexivity | constructor].
  - inversion Htext as [|? ? [raw Hraw] Htext']; subst.
    inversion Hexc as [|? ? Hpage Hexc']; subst.
    destruct (read_page_spec ih it ke start page blocks raw Hraw Hpage)
      as (new & Hrun & Hnew).
    destruct (IH Htext' Hexc' (start + 1) (blocks ++ new))
      as (per_page & Hrest & Hall).
    exists (new :: per_page). cbn [enumerate PdfReader.read_pages concat].
    rewrite Hrun, Hrest, <- app_assoc. split; [reflexivity|].
    constructor; assumption.
Qed.

(** What one page adds to the model, exactly. *)
Lemma read_page_blocks (ih it ke : bool) (num : Z) (page : Page)
    (blocks : list Block) (raw : option str) :
  extract_text page = Return raw ->
  (forall e, extract_tables page = Raise e -> is_Exception e = true) ->
  PdfReader.read_page ih it ke num page blocks
  = Return (blocks ++ page_blocks ih it ke (num, page)).
Proof.
  intros Htext Hexc.
  unfold PdfReader.read_page, page_blocks, page_text_blocks.
  cbn [fst snd]. rewrite Htext.
  set (hdr := if ih then [page_marker num] else []).
  assert (Hhdr : (if ih
                  then blocks ++ [ParagraphBlock (lit "Page " ++ str_of_int num)
                                    true false]
                  else blocks) = blocks ++ hdr)
    by (unfold hdr; destruct ih; [reflexivity | now rewrite app_nil_r]).
  rewrite Hhdr. clear Hhdr.
  assert (Htxt : match raw with
                 | Some (c :: rest) =>
                     fold_left
                       (fun blocks line =>
                          if negb (bool_decide (line = [])) || ke
                          then blocks ++ [ParagraphBlock line false false]
                          else blocks)
                       (split LF (PdfReader._clean_text (c :: rest)))
                       (blocks ++ hdr)
                 | _ => if ke
                        then (blocks ++ hdr) ++ [ParagraphBlock [] false false]
                        else blocks ++ hdr
                 end = (blocks ++ hdr) ++ page_paragraphs ke raw).
  { unfold page_paragraphs. destruct raw as [[|c rest]|].
    - destruct ke; [reflexivity | now rewrite app_nil_r].
    - apply (fold_left_append _
               (fun line => if negb (bool_decide (line = [])) || ke
                            then [ParagraphBlock line false false] else [])).
      intros acc line.
      destruct (negb _ || ke); [reflexivity | now rewrite app_nil_r].
    - destruct ke; [reflexivity | now rewrite app_nil_r]. }
  rewrite Htxt. clear Htxt.
  destruct it.
  - unfold PdfReader.detected_tables, page_tables.
    destruct (extract_tables page) as [tables|e] eqn:Et.
    + rewrite (fold_left_append _
                 (fun table => [TableBlock (map (map PdfReader.clean_cell) table)
                                  false false]))
        by reflexivity.
      rewrite <- !app_assoc. do 4 f_equal.
      destruct tables as [tables|]; [|reflexivity].
      unfold default, from_option, id. clear Et.
      induction tables as [|table tables IH]; [reflexivity|].
      cbn [map concat app]. now rewrite IH.
    + rewrite (Hexc e eq_refl). unfold default, from_option, id.
      cbn [fold_left]. now rewrite app_nil_r, <- app_assoc.
  - now rewrite app_nil_r, <- app_assoc.
Qed.

Lemma read_pages_blocks (ih it ke : bool) (pages : list Page) :
  Forall (fun page => exists raw, extract_text page = Return raw) pages ->
  Forall (fun page => forall e, extract_tables page = Raise e ->
                                is_Exception e = true) pages ->
  forall (start : Z) (blocks : list Block),
    PdfReader.read_pages ih it ke (enumerate start pages) blocks
    = Return (blocks
              ++ concat (map (page_blocks ih it ke) (enumerate start pages))).
Proof.
  induction pages as [|page pages IH]; intros Htext Hexc start blocks.
  - cbn. now rewrite app_nil_r.
  - inversion Htext as [|? ? [raw Hraw] Htext']; subst.
    inversion Hexc as [|? ? Hpage Hexc']; subst.
    cbn [enumerate PdfReader.read_pages map concat].
    rewrite (read_page_blocks ih it ke start page blocks raw Hraw Hpage).
    rewrite (IH Htext' Hexc' (start + 1)), <- app_assoc. reflexivity.
Qed.

(** The blocks of a page whose detector raised: the marker and the
    paragraphs, and no table. *)
Lemma page_blocks_detector_failure (ih it ke : bool) (num : Z) (page : Page)
    (e : pyexc) :
  extract_tables page = Raise e ->
  page_blocks ih it ke (num, page)
  = (if ih then [page_marker num] else []) ++ page_text_blocks ke page.
Proof.
  intros He. unfold page_blocks, page_tables. cbn [fst snd]. rewrite He.
  destruct it; now rewrite app_nil_r.
Qed.

Lemma page_text_blocks_no_table (ke : bool) (page : Page) :
  Forall (fun b => is_TableBlock b = false) (page_text_blocks ke page).
Proof.
  unfold page_text_blocks, page_paragraphs.
  destruct (extract_text page) as [[[|c rest]|]|e].
  - destruct ke; repeat constructor.
  - apply Forall_concat, Forall_map, Forall_forall. intros line _.
    destruct (negb _ || ke); repeat constructor.
  - destruct ke; repeat constructor.
  - constructor.
Qed.

(** C10. When the table detector raises on a page (with [include_tables]
    on, or off), the reader adds no table block for that page and goes on
    with the remaining pages: provided the file opens and text extraction
    itself does not raise, [read] returns a model whose blocks are, page
    after page and in page order, the marker of the page (when headers are
    asked for), the paragraphs of its text and the tables its detector found
    (when tables are asked for); a page whose detector raised contributes
    its marker and its paragraphs only, none of them a [TableBlock], and the
    pages after it contribute their paragraphs and tables as usual. *)
Theorem table_detector_failure_is_skipped {W : Type} `{Pdfplumber W}
    (file_path : str) (options : ReadOptions) (w w' : W) (pages : list Page) :
  pdf_open file_path w = Returned pages w' ->
  Forall (fun page => exists raw, extract_text page = Return raw) pages ->
  Forall (fun page => forall e, extract_tables page = Raise e ->
                                is_Exception e = true) pages ->
  exists model,
    PdfReader.read file_path options w = Returned model w'
    /\ blocks model
       = concat (map (page_blocks
                        (default false (ro_include_headers options))
                        (default true (ro_include_tables options))
                        (default false (ro_keep_empty_paragraphs options)))
                     (enumerate 1 pages))
    /\ Forall (fun numbered =>
                 (exists e, extract_tables (snd numbered) = Raise e) ->
                 page_blocks
                   (default false (ro_include_headers options))
                   (default true (ro_include_tables options))
                   (default false (ro_keep_empty_paragraphs options))
                   numbered
                 = (if default false (ro_include_headers options)
                    then [page_marker (fst numbered)] else [])
                   ++ page_text_blocks
                        (default false (ro_keep_empty_paragraphs options))
                        (snd numbered)
                 /\ Forall (fun b => is_TableBlock b = false)
                      (page_blocks
                         (default false (ro_include_headers options))
                         (default true (ro_include_tables options))
                         (default false (ro_keep_empty_paragraphs options))
                         numbered))
              (enumerate 1 pages).
Proof.
  intros Hopen Htext Hexc.
  set (ih := default false (ro_include_headers options)).
  set (it := default true (ro_include_tables options)).
  set (ke := default false (ro_keep_empty_paragraphs options)).
  pose proof (read_pages_blocks ih it ke pages Htext Hexc 1 []) as Hrun.
  exists (mkDocumentModel
            (concat (map (page_blocks ih it ke) (enumerate 1 pages)))
            (<[lit "source" := file_path]> (<[lit "type" := lit "pdf"]> ∅))).
  split; [|split; [reflexivity|]].
  - unfold PdfReader.read, bind, try_except. rewrite Hopen.
    fold ih it ke.
    destruct pages as [|page pages]; [reflexivity|].
    rewrite Hrun. reflexivity.
  - apply Forall_forall. intros [num page] _ [e He]. cbn [fst snd] in *.
    rewrite (page_blocks_detector_failure ih it ke num page e He).
    split; [reflexivity|].
    apply Forall_app. split; [|apply page_text_blocks_no_table].
    destruct ih; repeat constructor.
Qed.

Lemma table_detector_failure_is_skipped_witness :
  exists model,
    @PdfReader.read _ two_pages (lit "two.pdf") no_read_options []
    = Returned model []
    /\ blocks model
       = [ParagraphBlock (lit "First page") false false;
          ParagraphBlock (lit "Second page") false false;
          TableBlock [[lit "A1"; []]; [lit "A2"; lit "B2"]] false false]
    /\ Forall (fun numbered =>
                 (exists e, extract_tables (snd numbered) = Raise e) ->
                 page_blocks false true false numbered
                 = [] ++ page_text_blocks false (snd numbered)
                 /\ Forall (fun b => is_TableBlock b = false)
                      (page_blocks false true false numbered))
              [(1, page_detector_fails); (2, page_with_table)].
Proof.
  destruct (@table_detector_failure_is_skipped _ two_pages (lit "two.pdf")
              no_read_options [] [] [page_detector_fails; page_with_table])
    as (model & Hrun & Hblocks & Hfailed).
  - reflexivity.
  - repeat constructor; eexists; reflexivity.
  - repeat constructor; intros e He; vm_compute in He;
      [injection He as <-; reflexivity | discriminate He].
  - exists model. split; [exact Hrun|]. split; [|exact Hfailed].
    rewrite Hblocks. vm_compute. reflexivity.
Defined.

(** * Further properties *)

(** ** Chunker: windows, counts and overlaps *)

Lemma slice_nonneg (s : str) (lo hi : Z) :
  0 <= lo -> lo <= hi ->
  slice s lo hi = take (Z.to_nat (hi - lo)) (drop (Z.to_nat lo) s).
Proof.
  intros Hlo Hle. unfold slice, slice_index.
  pose proof (len_nonneg s) as Hn.
  destruct (Z.ltb_spec lo 0); [lia|]. destruct (Z.ltb_spec hi 0); [lia|].
  destruct (Z.le_gt_cases lo (len s)) as [Hin|Hout].
  - rewrite (Z.min_l lo) by lia.
    destruct (Z.le_gt_cases hi (len s)).
    + rewrite Z.min_l by lia. reflexivity.
    + rewrite Z.min_r by lia.
      rewrite !take_ge; [reflexivity | |];
        rewrite length_drop; unfold len in *; lia.
  - rewrite !Z.min_r by lia. rewrite Z.sub_diag.
    rewrite (drop_ge s (Z.to_nat lo)) by (unfold len in *; lia).
    now rewrite take_nil.
Qed.

Lemma slice_min (s : str) (lo hi : Z) :
  0 <= hi -> slice s lo (Z.min (len s) hi) = slice s lo hi.
Proof.
  intros Hhi. unfold slice, slice_index. pose proof (len_nonneg s) as Hn.
  destruct (Z.ltb_spec hi 0); [lia|].
  destruct (Z.ltb_spec (Z.min (len s) hi) 0); [lia|].
  replace (Z.min (Z.min (len s) hi) (len s)) with (Z.min hi (len s)) by lia.
  reflexivity.
Qed.

(** The loop visits the windows [start + j * (chunk_size - overlap)]. *)
Lemma chunk_loop_windows (fuel : nat) :
  forall (text : str) (cs ov start : Z) (acc : list str),
    0 <= ov < cs -> 0 <= start < len text ->
    len text - start < Z.of_nat fuel ->
    chunk_loop fuel text cs ov start acc
    = Some (acc ++
            ((fun j => slice text (start + j * (cs - ov))
                                  (start + j * (cs - ov) + cs))
             <$> seqZ 0 (1 + Z.max 0 ((len text - start - ov - 1) / (cs - ov))))).
Proof.
  induction fuel as [|fuel IH]; intros text cs ov start acc Hov Hst Hfuel.
  - lia.
  - cbn [chunk_loop]. destruct (Z.ltb_spec start (len text)); [|lia].
    set (step := cs - ov). assert (Hstep : 0 < step) by (unfold step; lia).
    set (a := len text - start - ov - 1).
    destruct (Z.geb_spec (Z.min (len text) (start + cs)) (len text)) as [Hge|Hlt].
    + assert (Hq : a / step <= 0).
      { apply Z.lt_succ_r, Z.div_lt_upper_bound; unfold a, step; lia. }
      rewrite Z.max_l by lia. rewrite slice_min by lia.
      replace (seqZ 0 (1 + 0)) with [0] by reflexivity.
      cbn [fmap list_fmap]. do 4 f_equal; lia.
    + rewrite slice_min by lia.
      assert (Ha : step <= a) by (unfold a, step; lia).
      assert (Hq : a / step = (a - step) / step + 1).
      { rewrite <- (Z.div_add _ 1) by lia. f_equal. lia. }
      assert (Hq' : 0 <= (a - step) / step) by (apply Z.div_pos; lia).
      rewrite IH by lia.
      replace (len text - (Z.min (len text) (start + cs) - ov) - ov - 1)
        with (a - step) by (unfold a, step; lia).
      fold step. rewrite Hq, !Z.max_r by lia.
      rewrite (seqZ_cons 0 (1 + (_ + 1))) by lia.
      replace (Z.pred (1 + ((a - step) / step + 1)))
        with (1 + (a - step) / step) by lia.
      rewrite <- app_assoc. cbn [app fmap list_fmap]. do 3 f_equal.
      * f_equal; lia.
      * change (Z.succ 0) with (1 + 0). rewrite <- fmap_add_seqZ.
        rewrite <- list_fmap_compose. apply list_fmap_ext.
        intros _ j _. cbn. rewrite Z.min_r by lia. f_equal; lia.
Qed.

(** The chunks in closed form: chunk [i] is the window of [chunk_size]
    characters starting at [i * (chunk_size - overlap)]. *)
Lemma chunk_text_windows (text : str) (cs ov : Z) :
  0 <= ov < cs ->
  chunk_text text cs ov
  = Some ((fun i => slice text (i * (cs - ov)) (i * (cs - ov) + cs))
          <$> seqZ 0 (chunk_count (len text) cs ov)).
Proof.
  intros Hov. unfold chunk_text, chunk_count.
  destruct (Z.leb_spec cs 0); [lia|].
  rewrite clamp_valid_overlap by assumption.
  pose proof (len_nonneg text) as Hn.
  destruct (Z.leb_spec (len text) 0) as [Hz|Hpos].
  - destruct text; [reflexivity | unfold len in Hz; cbn in Hz; lia].
  - rewrite chunk_loop_windows by (unfold len in *; lia).
    cbn [app]. rewrite Z.sub_0_r. do 2 f_equal.
Qed.

Lemma clamped_valid (cs ov : Z) : 0 < cs -> 0 <= clamped cs ov < cs.
Proof. unfold clamped. lia. Qed.

Lemma chunk_text_clamped (text : str) (cs ov : Z) :
  0 < cs -> chunk_text text cs ov = chunk_text text cs (clamped cs ov).
Proof.
  intros Hcs. unfold chunk_text, clamped.
  destruct (Z.leb_spec cs 0); [lia|].
  destruct (Z.ltb_spec 1 cs); f_equal; lia.
Qed.

Lemma chunk_text_valid (text : str) (cs ov : Z) :
  0 <= ov < cs ->
  exists chunks,
    chunk_text text cs ov = Some chunks
    /\ Forall (fun c => len c <= cs) chunks
    /\ reassemble ov chunks = text.
Proof.
  intros Hov. unfold chunk_text.
  destruct (Z.leb_spec cs 0); [lia|].
  rewrite clamp_valid_overlap by assumption.
  destruct text as [|c text].
  - exists []. cbn. auto.
  - destruct (chunk_loop_spec (S (length (c :: text))) (c :: text) cs ov 0 [])
      as (first & rest & Hrun & _ & Hall & Hre & _);
      [lia | unfold len; cbn [length]; lia | unfold len; lia |].
    exists (first :: rest). auto.
Qed.

(** X1. An overlap outside [0, chunk_size - 1] is harmless: for every
    positive [chunk_size] and every [overlap], negative or too large,
    [chunk_text] returns, behaves as with the overlap clamped into that
    range, keeps every chunk within [chunk_size] characters and loses no
    text. *)
Theorem chunk_text_tolerates_any_overlap (text : str) (chunk_size overlap : Z) :
  0 < chunk_size ->
  exists chunks,
    chunk_text text chunk_size overlap = Some chunks
    /\ chunk_text text chunk_size (clamped chunk_size overlap) = Some chunks
    /\ Forall (fun c => len c <= chunk_size) chunks
    /\ reassemble (clamped chunk_size overlap) chunks = text.
Proof.
  intros Hcs.
  destruct (chunk_text_valid text chunk_size (clamped chunk_size overlap)
              (clamped_valid _ _ Hcs)) as (chunks & Hrun & Hall & Hre).
  exists chunks. rewrite chunk_text_clamped by assumption. auto.
Qed.

Lemma chunk_text_tolerates_any_overlap_witness :
  exists chunks,
    chunk_text sample16 5 (-3) = Some chunks
    /\ chunk_text sample16 5 (clamped 5 (-3)) = Some chunks
    /\ Forall (fun c => len c <= 5) chunks
    /\ reassemble (clamped 5 (-3)) chunks = sample16.
Proof. apply (chunk_text_tolerates_any_overlap sample16 5 (-3)). lia. Defined.

(** X2. For a valid size and overlap, [chunk_text] returns exactly
    [chunk_count] chunks, and chunk number [i] (from 0) is the slice of
    [chunk_size] characters that starts at [i * (chunk_size - overlap)]. *)
Theorem chunk_text_closed_form (text : str) (chunk_size overlap : Z) :
  0 <= overlap < chunk_size ->
  exists chunks,
    chunk_text text chunk_size overlap = Some chunks
    /\ len chunks = chunk_count (len text) chunk_size overlap
    /\ forall i : nat,
         Z.of_nat i < chunk_count (len text) chunk_size overlap ->
         chunks !! i
         = Some (slice text (Z.of_nat i * (chunk_size - overlap))
                            (Z.of_nat i * (chunk_size - overlap) + chunk_size)).
Proof.
  intros Hov. eexists. split; [apply chunk_text_windows, Hov|].
  assert (Hcount : 0 <= chunk_count (len text) chunk_size overlap).
  { unfold chunk_count. destruct (_ <=? _); lia. }
  split.
  - unfold len at 1. rewrite length_fmap, length_seqZ. lia.
  - intros i Hi. rewrite list_lookup_fmap, lookup_seqZ_lt by assumption.
    reflexivity.
Qed.

Lemma chunk_text_closed_form_witness :
  exists chunks,
    chunk_text sample16 5 1 = Some chunks
    /\ len chunks = chunk_count (len sample16) 5 1
    /\ forall i : nat,
         Z.of_nat i < chunk_count (len sample16) 5 1 ->
         chunks !! i
         = Some (slice sample16 (Z.of_nat i * (5 - 1))
                                (Z.of_nat i * (5 - 1) + 5)).
Proof. apply (chunk_text_closed_form sample16 5 1). lia. Defined.

Lemma chunk_count_bound (n cs ov i : Z) :
  0 <= ov < cs -> 0 <= i -> i < chunk_count n cs ov ->
  i * (cs - ov) < n /\ (0 < i -> i * (cs - ov) + ov < n).
Proof.
  intros Hov Hi Hlt. unfold chunk_count in Hlt.
  destruct (Z.leb_spec n 0); [lia|].
  destruct (Z.le_gt_cases i 0); [assert (i = 0) by lia; subst; lia|].
  assert (Hq : i <= (n - ov - 1) / (cs - ov)) by lia.
  pose proof (Z.mul_div_le (n - ov - 1) (cs - ov)) as Hm.
  assert (i * (cs - ov) <= (cs - ov) * ((n - ov - 1) / (cs - ov))) by nia.
  lia.
Qed.

Lemma chunks_lookup (text : str) (cs ov : Z) (chunks : list str) (i : nat)
    (c : str) :
  0 <= ov < cs -> chunk_text text cs ov = Some chunks ->
  chunks !! i = Some c ->
  c = slice text (Z.of_nat i * (cs - ov)) (Z.of_nat i * (cs - ov) + cs)
  /\ Z.of_nat i < chunk_count (len text) cs ov.
Proof.
  intros Hov Hrun Hc. rewrite chunk_text_windows in Hrun by assumption.
  injection Hrun as <-. rewrite list_lookup_fmap in Hc.
  destruct (seqZ _ _ !! i) as [j|] eqn:Ej; [|discriminate].
  apply lookup_seqZ in Ej as [-> Hlt]. cbn in Hc. injection Hc as <-.
  split; [reflexivity | assumption].
Qed.

(** X3. Consecutive chunks really overlap: a chunk that is not the last has
    exactly [chunk_size] characters, and its last [overlap] characters are
    the first [overlap] characters of the next chunk, which is longer than
    [overlap] (so it brings at least one new character). *)
Theorem consecutive_chunks_overlap (text : str) (chunk_size overlap : Z)
    (chunks : list str) (i : nat) (c c' : str) :
  0 <= overlap < chunk_size ->
  chunk_text text chunk_size overlap = Some chunks ->
  chunks !! i = Some c -> chunks !! S i = Some c' ->
  len c = chunk_size
  /\ take (Z.to_nat overlap) c' = drop (Z.to_nat (chunk_size - overlap)) c
  /\ overlap < len c'.
Proof.
  intros Hov Hrun Hc Hc'.
  destruct (chunks_lookup _ _ _ _ _ _ Hov Hrun Hc) as [-> _].
  destruct (chunks_lookup _ _ _ _ _ _ Hov Hrun Hc') as [-> Hlt].
  destruct (chunk_count_bound _ _ _ _ Hov (Nat2Z.is_nonneg (S i)) Hlt)
    as [_ Hb]. specialize (Hb ltac:(lia)).
  set (step := chunk_size - overlap) in *.
  set (a := Z.of_nat i * step).
  assert (Ha : 0 <= a) by (unfold a, step; nia).
  replace (Z.of_nat (S i) * step) with (a + step) in * by (unfold a; lia).
  rewrite !slice_nonneg by lia.
  replace (a + chunk_size - a) with chunk_size by lia.
  replace (a + step + chunk_size - (a + step)) with chunk_size by lia.
  unfold len in *. repeat split.
  - rewrite length_take, length_drop. unfold step in *. lia.
  - rewrite take_take.
    replace (Z.to_nat overlap `min` Z.to_nat chunk_size)%nat
      with (Z.to_nat overlap) by lia.
    replace (Z.to_nat chunk_size)
      with (Z.to_nat step + Z.to_nat overlap)%nat by (unfold step; lia).
    rewrite <- take_drop_commute, drop_drop. do 2 f_equal. lia.
  - rewrite length_take, length_drop. unfold step in *. lia.
Qed.

Lemma consecutive_chunks_overlap_witness :
  len (lit "Hello") = 5
  /\ take (Z.to_nat 1) (lit "o Wor") = drop (Z.to_nat (5 - 1)) (lit "Hello")
  /\ 1 < len (lit "o Wor").
Proof.
  apply (consecutive_chunks_overlap sample16 5 1
           [lit "Hello"; lit "o Wor"; lit "rld 1"; lit "123" ++ [LF]] 0);
    [lia | reflexivity | reflexivity | reflexivity].
Defined.

(** X4. With a positive [chunk_size], whatever the overlap, no returned
    chunk is empty, and no chunk at all is returned exactly when the text is
    empty. *)
Theorem chunks_are_nonempty (text : str) (chunk_size overlap : Z)
    (chunks : list str) :
  0 < chunk_size ->
  chunk_text text chunk_size overlap = Some chunks ->
  Forall (fun c => c <> []) chunks /\ (chunks = [] <-> text = []).
Proof.
  intros Hcs Hrun. rewrite chunk_text_clamped in Hrun by assumption.
  pose proof (clamped_valid chunk_size overlap Hcs) as Hov.
  split.
  - apply Forall_lookup. intros i c Hc.
    destruct (chunks_lookup _ _ _ _ _ _ Hov Hrun Hc) as [-> Hlt].
    destruct (chunk_count_bound _ _ _ _ Hov (Nat2Z.is_nonneg i) Hlt)
      as [Hb _].
    intros E. apply (f_equal (@length char)) in E.
    rewrite slice_nonneg in E by nia.
    rewrite length_take, length_drop in E. unfold len in *. cbn in E. nia.
  - rewrite chunk_text_windows in Hrun by assumption.
    injection Hrun as <-. unfold chunk_count.
    pose proof (len_nonneg text) as Hn.
    destruct (Z.leb_spec (len text) 0) as [Hz|Hpos].
    + split; [|reflexivity]. intros _.
      destruct text; [reflexivity | unfold len in Hz; cbn in Hz; lia].
    + split.
      * intros E. apply (f_equal (@length str)) in E.
        rewrite length_fmap, length_seqZ in E. cbn in E. lia.
      * intros ->. unfold len in Hpos. cbn in Hpos. lia.
Qed.

Lemma chunks_are_nonempty_witness :
  Forall (fun c => c <> [])
         [lit "Hello"; lit "o Wor"; lit "rld 1"; lit "123" ++ [LF]]
  /\ ([lit "Hello"; lit "o Wor"; lit "rld 1"; lit "123" ++ [LF]] = []
      <-> sample16 = []).
Proof.
  apply (chunks_are_nonempty sample16 5 1); [lia | reflexivity].
Defined.

(** ** Plugin registry *)

Lemma str_leb_total (a b : str) : str_leb a b = true \/ str_leb b a = true.
Proof.
  revert b. induction a as [|x a IH]; intros [|y b]; cbn; auto.
  destruct (N.ltb_spec x y), (N.ltb_spec y x), (N.eqb_spec x y),
    (N.eqb_spec y x); auto; lia.
Qed.

Lemma str_leb_trans (a b c : str) :
  str_leb a b = true -> str_leb b c = true -> str_leb a c = true.
Proof.
  revert b c. induction a as [|x a IH]; intros [|y b] [|z c]; cbn; auto;
    try discriminate.
  destruct (N.ltb_spec x y), (N.ltb_spec y z), (N.ltb_spec x z),
    (N.eqb_spec x y), (N.eqb_spec y z), (N.eqb_spec x z);
    auto; try discriminate; try lia.
  apply IH.
Qed.

#[global] Instance str_le_total : Total str_le.
Proof. intros a b. apply str_leb_total. Qed.

#[global] Instance str_le_trans : Transitive str_le.
Proof. intros a b c. apply str_leb_trans. Qed.

Lemma fold_insert_lookup {V : Type} (f : str -> str) (v : V) (exts : list str) :
  forall (m : gmap str V) (k : str),
    fold_left (fun m ext => <[f ext := v]> m) exts m !! k
    = if decide (k ∈ f <$> exts) then Some v else m !! k.
Proof.
  induction exts as [|e exts IH]; intros m k; cbn [fold_left fmap list_fmap].
  - destruct (decide (k ∈ [])) as [Hin|_]; [|reflexivity].
    apply elem_of_nil in Hin. contradiction.
  - rewrite IH. destruct (decide (k ∈ f <$> exts)) as [Hin|Hout].
    + rewrite decide_True by (right; exact Hin). reflexivity.
    + destruct (decide (k = f e)) as [->|Hne].
      * rewrite decide_True by left. apply lookup_insert_eq.
      * rewrite decide_False by (intros Hin; apply elem_of_cons in Hin;
                                  tauto).
        apply lookup_insert_ne. congruence.
Qed.

(** X5. Registration and lookup: after a reader class is registered, a
    lookup returns that class for every extension that lowercases to one of
    its lowercased extensions (the last registration wins), returns what it
    returned before for every other extension, and the writers are
    untouched; and the same with readers and writers exchanged. *)
Theorem registration_then_lookup {W : Type} `{CaseMapping}
    (reader_cls : InputReader W) (writer_cls : OutputWriter W)
    (reg : PluginRegistry.state W) (ext : str) :
  PluginRegistry.get_reader (PluginRegistry.register_reader reader_cls reg) ext
  = (if decide (lower ext ∈ lower <$> reader_extensions reader_cls)
     then Some reader_cls else PluginRegistry.get_reader reg ext)
  /\ PluginRegistry.get_writer (PluginRegistry.register_reader reader_cls reg) ext
     = PluginRegistry.get_writer reg ext
  /\ PluginRegistry.get_writer (PluginRegistry.register_writer writer_cls reg) ext
     = (if decide (lower ext ∈ lower <$> writer_extensions writer_cls)
        then Some writer_cls else PluginRegistry.get_writer reg ext)
  /\ PluginRegistry.get_reader (PluginRegistry.register_writer writer_cls reg) ext
     = PluginRegistry.get_reader reg ext.
Proof.
  unfold PluginRegistry.get_reader, PluginRegistry.get_writer,
    PluginRegistry.register_reader, PluginRegistry.register_writer.
  cbn [PluginRegistry._readers PluginRegistry._writers].
  repeat split; apply fold_insert_lookup.
Qed.

Lemma sorted_keys_spec {V : Type} (m : gmap str V) :
  StronglySorted str_le (sorted (map_to_list m).*1)
  /\ NoDup (sorted (map_to_list m).*1)
  /\ forall k, k ∈ sorted (map_to_list m).*1 <-> is_Some (m !! k).
Proof.
  unfold sorted. split; [apply StronglySorted_merge_sort; apply _|].
  split.
  - rewrite merge_sort_Permutation. apply NoDup_fst_map_to_list.
  - intros k. rewrite merge_sort_Permutation, list_elem_of_fmap. split.
    + intros ([k' v] & -> & Hin). apply elem_of_map_to_list in Hin.
      cbn. eauto.
    + intros [v Hv]. exists (k, v). split; [reflexivity|].
      apply elem_of_map_to_list, Hv.
Qed.

(** X6. The enumerations of the registry: [available_inputs] is sorted,
    has no duplicate, and holds exactly the keys with a registered reader,
    so an extension is found by [get_reader] exactly when its lowercase
    form is listed; likewise [available_outputs] for the writers. *)
Theorem available_extensions_sorted {W : Type} `{CaseMapping}
    (reg : PluginRegistry.state W) :
  (StronglySorted str_le (PluginRegistry.available_inputs reg)
   /\ NoDup (PluginRegistry.available_inputs reg)
   /\ forall ext, lower ext ∈ PluginRegistry.available_inputs reg
                  <-> is_Some (PluginRegistry.get_reader reg ext))
  /\ (StronglySorted str_le (PluginRegistry.available_outputs reg)
      /\ NoDup (PluginRegistry.available_outputs reg)
      /\ forall ext, lower ext ∈ PluginRegistry.available_outputs reg
                     <-> is_Some (PluginRegistry.get_writer reg ext)).
Proof.
  unfold PluginRegistry.available_inputs, PluginRegistry.available_outputs,
    PluginRegistry.get_reader, PluginRegistry.get_writer.
  split.
  - destruct (sorted_keys_spec (PluginRegistry._readers reg))
      as (Hs & Hn & Hk). auto.
  - destruct (sorted_keys_spec (PluginRegistry._writers reg))
      as (Hs & Hn & Hk). auto.
Qed.

(** ** Translations *)

(** A locale that is not among the available ones has no entry at all. *)
Lemma unavailable_locale_lookup (i : I18nManager) (loc key : str) :
  loc ∉ get_available_locales i -> i18n_lookup i loc key = None.
Proof.
  intros Hloc. unfold i18n_lookup.
  destruct (strings i !! loc) as [table|] eqn:E; [|reflexivity].
  exfalso. apply Hloc. unfold get_available_locales.
  apply (sorted_keys_spec (strings i)). rewrite E. eauto.
Qed.

Lemma t_missing_entry (i : I18nManager) (loc key : str) :
  i18n_lookup i loc key = None ->
  t (set_locale i loc) key = default key (i18n_lookup i en_US key).
Proof.
  intros Hmiss. unfold t, set_locale, i18n_lookup in *.
  cbn [locale strings]. rewrite Hmiss.
  destruct (match strings i !! en_US with
            | Some table => table !! key
            | None => None
            end); reflexivity.
Qed.

(** The writer consults the manager for its three markers only. *)
Lemma text_depends_on_markers (i j : I18nManager) (model : DocumentModel)
    (options : WriteOptions) :
  t i (lit "header_marker") = t j (lit "header_marker") ->
  t i (lit "footer_marker") = t j (lit "footer_marker") ->
  t i (lit "table_marker") = t j (lit "table_marker") ->
  TxtWriter.text i model options = TxtWriter.text j model options.
Proof.
  intros Hh Hf Ht. unfold TxtWriter.text, TxtWriter.out_lines. cbn zeta.
  do 3 f_equal. generalize (@nil str).
  induction (blocks model) as [|b bs IH]; intros acc; [reflexivity|].
  cbn [fold_left].
  replace (TxtWriter.render_block i (default true (wo_include_tables options))
             (default (lit "tsv") (wo_table_format options))
             (default true (wo_normalize_tables options)) acc b)
    with (TxtWriter.render_block j (default true (wo_include_tables options))
            (default (lit "tsv") (wo_table_format options))
            (default true (wo_normalize_tables options)) acc b)
    by (destruct b; cbn [TxtWriter.render_block]; rewrite ?Hh, ?Hf, ?Ht;
        reflexivity).
  apply IH.
Qed.

(** X7. Fallback of [I18nManager.t]: when the current locale has no entry
    for a key (it is not loaded, or loaded without that key), [t] returns
    the entry of "en-US" if there is one and the key itself otherwise; so a
    locale that is not among [get_available_locales()] translates every key
    as "en-US" does, and the text the writer assembles under it is the text
    it assembles under "en-US". *)
Theorem t_falls_back (i : I18nManager) (loc : str) :
  (forall key, i18n_lookup i loc key = None ->
               t (set_locale i loc) key
               = default key (i18n_lookup i en_US key))
  /\ (loc ∉ get_available_locales i ->
      (forall key, t (set_locale i loc) key = t (set_locale i en_US) key)
      /\ forall model options,
           TxtWriter.text (set_locale i loc) model options
           = TxtWriter.text (set_locale i en_US) model options).
Proof.
  split; [intros key; apply t_missing_entry|].
  intros Hloc.
  assert (Hkeys : forall key,
             t (set_locale i loc) key = t (set_locale i en_US) key).
  { intros key.
    rewrite (t_missing_entry i loc key)
      by (apply unavailable_locale_lookup, Hloc).
    unfold t, set_locale, i18n_lookup. cbn [locale strings].
    destruct (match strings i !! en_US with
              | Some table => table !! key
              | None => None
              end); reflexivity. }
  split; [exact Hkeys|].
  intros model options. apply text_depends_on_markers; apply Hkeys.
Qed.

Lemma t_falls_back_witness :
  t (set_locale english (lit "zh-TW")) (lit "table_marker") = lit "[TABLE]"
  /\ t (set_locale english (lit "zh-TW")) (lit "log_start") = lit "log_start"
  /\ TxtWriter.text (set_locale english (lit "zh-TW")) marked_model
       no_write_options
     = marked_text.
Proof.
  destruct (t_falls_back english (lit "zh-TW")) as [Hkey Hloc].
  split; [|split].
  - rewrite (Hkey (lit "table_marker")) by reflexivity.
    vm_compute. reflexivity.
  - rewrite (Hkey (lit "log_start")) by reflexivity.
    vm_compute. reflexivity.
  - destruct Hloc as [_ Htext].
    + intros Hin. vm_compute in Hin.
      apply list_elem_of_singleton in Hin. discriminate Hin.
    + rewrite Htext. vm_compute. reflexivity.
Defined.

(** ** Conversion engine: the remaining paths *)

(** X8. The successful path: with both plugins registered, when the reader
    returns a model and the writer, run on that very model in the world the
    reader left, returns, [convert] returns normally in the world the
    writer left. *)
Theorem convert_success {W : Type} `{Pathlib} `{CaseMapping}
    (registry : PluginRegistry.state W) (input_path output_path : str)
    (read_options : ReadOptions) (write_options : WriteOptions)
    (w w1 w2 : W) (ReaderCls : InputReader W) (WriterCls : OutputWriter W)
    (model : DocumentModel) :
  PluginRegistry.get_reader registry (lower (path_suffix input_path))
  = Some ReaderCls ->
  PluginRegistry.get_writer registry (lower (path_suffix output_path))
  = Some WriterCls ->
  reader_read ReaderCls input_path read_options w = Returned model w1 ->
  writer_write WriterCls model output_path write_options w1 = Returned tt w2 ->
  CoreEngine.convert registry input_path output_path
    read_options write_options w = Returned tt w2.
Proof.
  intros Hr Hw Hread Hwrite. unfold CoreEngine.convert.
  rewrite Hr, Hw. unfold try_except, bind. rewrite Hread, Hwrite.
  reflexivity.
Qed.

(** X9. The engine gives its callers a uniform kind of error: whatever the
    registry and the plugins, an [Exception] raised by [convert] is either
    an [UnsupportedExtensionError], raised in the world [convert] was
    called in, or a [ConversionFailedError] chained to the plugin's
    exception, whose text its message ends with. *)
Theorem convert_error_kinds {W : Type} `{Pathlib} `{CaseMapping}
    (registry : PluginRegistry.state W) (input_path output_path : str)
    (read_options : ReadOptions) (write_options : WriteOptions)
    (w w' : W) (e : pyexc) :
  CoreEngine.convert registry input_path output_path
    read_options write_options w = Raised e w' ->
  is_Exception e = true ->
  (exists msg, e = UnsupportedExtensionError msg /\ w' = w)
  \/ (exists cause,
        e = ConversionFailedError
              (lit "Conversion failed: " ++ exc_str cause) cause
        /\ is_Exception cause = true).
Proof.
  unfold CoreEngine.convert. intros Hrun He.
  destruct (PluginRegistry.get_reader registry _) as [ReaderCls|].
  - destruct (PluginRegistry.get_writer registry _) as [WriterCls|].
    + right. unfold try_except, bind, raise in Hrun.
      destruct (reader_read ReaderCls input_path read_options w)
        as [model w1|e1 w1|]; [| |discriminate].
      * destruct (writer_write WriterCls model output_path write_options w1)
          as [[] w2|e2 w2|]; [discriminate| |discriminate].
        destruct (is_Exception e2) eqn:E2; injection Hrun as <- <-.
        -- eauto.
        -- congruence.
      * destruct (is_Exception e1) eqn:E1; injection Hrun as <- <-.
        -- eauto.
        -- congruence.
    + left. injection Hrun as <- <-. eauto.
  - left. injection Hrun as <- <-. eauto.
Qed.

Lemma convert_error_kinds_witness :
  (exists msg,
     ConversionFailedError
       (lit "Conversion failed: " ++ exc_str missing_pdf_error)
       missing_pdf_error = UnsupportedExtensionError msg
     /\ @nil io_event = [])
  \/ (exists cause,
        ConversionFailedError
          (lit "Conversion failed: " ++ exc_str missing_pdf_error)
          missing_pdf_error
        = ConversionFailedError
            (lit "Conversion failed: " ++ exc_str cause) cause
        /\ is_Exception cause = true).
Proof.
  apply (@convert_error_kinds _ posix ascii_lower sample_registry
           (lit "missing.pdf") (lit "out.txt") no_read_options
           no_write_options [] []).
  - unfold CoreEngine.convert.
    replace (@lower ascii_lower (@path_suffix posix (lit "missing.pdf")))
      with (lit ".pdf") by (vm_compute; reflexivity).
    replace (@lower ascii_lower (@path_suffix posix (lit "out.txt")))
      with (lit ".txt") by (vm_compute; reflexivity).
    rewrite sample_registry_reader, sample_registry_writer. reflexivity.
  - reflexivity.
Defined.

(** X10. What [except Exception] does not catch is not wrapped: when the
    reader or the writer raises an exception that is not an instance of
    [Exception] (an interrupt, an exit request), [convert] lets that very
    exception through. *)
Theorem convert_passes_non_exceptions {W : Type} `{Pathlib} `{CaseMapping}
    (registry : PluginRegistry.state W) (input_path output_path : str)
    (read_options : ReadOptions) (write_options : WriteOptions) (w w' : W)
    (ReaderCls : InputReader W) (WriterCls : OutputWriter W) (e : pyexc) :
  PluginRegistry.get_reader registry (lower (path_suffix input_path))
  = Some ReaderCls ->
  PluginRegistry.get_writer registry (lower (path_suffix output_path))
  = Some WriterCls ->
  is_Exception e = false ->
  reader_read ReaderCls input_path read_options w = Raised e w'
  \/ (exists model w1,
        reader_read ReaderCls input_path read_options w = Returned model w1
        /\ writer_write WriterCls model output_path write_options w1
           = Raised e w') ->
  CoreEngine.convert registry input_path output_path
    read_options write_options w = Raised e w'.
Proof.
  intros Hr Hw He Hraise. unfold CoreEngine.convert.
  rewrite Hr, Hw. unfold try_except, bind.
  destruct Hraise as [Hread | (model & w1 & Hread & Hwrite)].
  - rewrite Hread, He. reflexivity.
  - rewrite Hread, Hwrite, He. reflexivity.
Qed.

Lemma registry_with_reader (reader_cls : InputReader (list io_event)) :
  reader_extensions reader_cls = [lit ".pdf"] ->
  @PluginRegistry.get_reader _ ascii_lower (registry_with reader_cls)
    (lit ".pdf") = Some reader_cls.
Proof.
  intros Hext.
  unfold PluginRegistry.get_reader, registry_with,
    PluginRegistry.register_writer, PluginRegistry.register_reader.
  cbn [PluginRegistry._readers]. rewrite Hext. cbn [fold_left].
  replace (@lower ascii_lower (lit ".pdf")) with (lit ".pdf")
    by (vm_compute; reflexivity).
  apply lookup_insert_eq.
Qed.

Lemma registry_with_writer (reader_cls : InputReader (list io_event)) :
  @PluginRegistry.get_writer _ ascii_lower (registry_with reader_cls)
    (lit ".txt") = Some txt_writer_cls.
Proof.
  unfold PluginRegistry.get_writer, registry_with,
    PluginRegistry.register_writer, PluginRegistry.register_reader.
  cbn [PluginRegistry._writers txt_writer_cls writer_extensions
       TxtWriter.get_supported_extensions fold_left].
  replace (@lower ascii_lower (lit ".txt")) with (lit ".txt")
    by (vm_compute; reflexivity).
  apply lookup_insert_eq.
Qed.

Lemma convert_success_witness :
  @CoreEngine.convert _ posix ascii_lower
    (registry_with (pdf_reader_of two_pages))
    (lit "two.pdf") (lit "out.txt") no_read_options no_write_options []
  = Returned tt [Mkdir [DOT]; WriteText (lit "out.txt") two_pages_text utf_8].
Proof.
  apply (@convert_success _ posix ascii_lower
           (registry_with (pdf_reader_of two_pages))
           (lit "two.pdf") (lit "out.txt") no_read_options no_write_options
           [] [] _ (pdf_reader_of two_pages) txt_writer_cls two_pages_model).
  - replace (@lower ascii_lower (@path_suffix posix (lit "two.pdf")))
      with (lit ".pdf") by (vm_compute; reflexivity).
    apply registry_with_reader. reflexivity.
  - replace (@lower ascii_lower (@path_suffix posix (lit "out.txt")))
      with (lit ".txt") by (vm_compute; reflexivity).
    apply registry_with_writer.
  - vm_compute. reflexivity.
  - vm_compute. reflexivity.
Defined.

Lemma convert_passes_non_exceptions_witness :
  @CoreEngine.convert _ posix ascii_lower
    (registry_with (pdf_reader_of interrupted))
    (lit "two.pdf") (lit "out.txt") no_read_options no_write_options []
  = Raised interrupt [].
Proof.
  apply (@convert_passes_non_exceptions _ posix ascii_lower
           (registry_with (pdf_reader_of interrupted))
           (lit "two.pdf") (lit "out.txt") no_read_options no_write_options
           [] [] (pdf_reader_of interrupted) txt_writer_cls interrupt).
  - replace (@lower ascii_lower (@path_suffix posix (lit "two.pdf")))
      with (lit ".pdf") by (vm_compute; reflexivity).
    apply registry_with_reader. reflexivity.
  - replace (@lower ascii_lower (@path_suffix posix (lit "out.txt")))
      with (lit ".txt") by (vm_compute; reflexivity).
    apply registry_with_writer.
  - reflexivity.
  - left. reflexivity.
Defined.

(** ** Text writer: tables and chunked output *)

Lemma lstrip_by_app_all (p : char -> bool) (a s : str) :
  Forall (fun c => p c = true) a -> lstrip_by p (a ++ s) = lstrip_by p s.
Proof. induction 1 as [|c a Hc _ IH]; cbn; [|rewrite Hc]; auto. Qed.

Lemma rstrip_by_app_all (p : char -> bool) (s w : str) :
  Forall (fun c => p c = true) w -> rstrip_by p (s ++ w) = rstrip_by p s.
Proof.
  intros Hw. unfold rstrip_by. rewrite rev_app_distr.
  rewrite lstrip_by_app_all by apply List.Forall_rev, Hw. reflexivity.
Qed.

Lemma replace_char_absent (x : char) (new s : str) :
  Forall (fun c => c <> x) new ->
  Forall (fun c => c <> x) (replace [x] new s).
Proof.
  intros Hnew. unfold replace. induction s as [|c s IH]; [constructor|].
  cbn [replace_aux starts_with length Nat.sub]. rewrite andb_true_r.
  destruct (N.eqb_spec x c) as [_|Hne].
  - apply Forall_app; auto.
  - constructor; [congruence | exact IH].
Qed.

Lemma safe_cells_no_newline (cells : list str) :
  Forall (Forall (fun c => c <> LF)) (TxtWriter.safe_cells cells).
Proof.
  unfold TxtWriter.safe_cells. apply Forall_map, Forall_forall.
  intros cell _. cbn. apply replace_char_absent.
  repeat constructor; discriminate.
Qed.

(** X11. A table row is always one line of output: [_format_table] returns
    as many lines as the table has rows, and no line contains a line feed,
    whatever the cells hold, in both formats and with or without
    normalisation. *)
Theorem table_rows_are_single_lines (rows : list (list str)) (fmt : str)
    (normalize : bool) :
  length (TxtWriter._format_table rows fmt normalize) = length rows
  /\ Forall (Forall (fun c => c <> LF))
            (TxtWriter._format_table rows fmt normalize).
Proof.
  unfold TxtWriter._format_table. split; [apply length_map|].
  apply Forall_map, Forall_forall. intros row _. cbn beta zeta.
  pose proof (safe_cells_no_newline
                (TxtWriter.cells normalize
                   (TxtWriter.target_cols rows normalize) row)) as Hsafe.
  destruct (bool_decide (fmt = lit "tsv")).
  - apply rstrip_by_Forall, join_Forall; [|exact Hsafe].
    repeat constructor; discriminate.
  - apply Forall_app; split; [repeat constructor; discriminate|].
    apply Forall_app; split; [|repeat constructor; discriminate].
    apply join_Forall; [|exact Hsafe]. repeat constructor; discriminate.
Qed.

Lemma join_empties_tabs (k : nat) :
  Forall (fun c => isspace c = true) (join [TAB] (replicate k [])).
Proof.
  induction k as [|k IH]; [constructor|].
  cbn [replicate]. destruct k as [|k]; [constructor|].
  cbn [replicate] in *. rewrite join_cons2. cbn [app].
  constructor; [reflexivity | exact IH].
Qed.

Lemma join_padded (l : list str) (k : nat) :
  exists w, Forall (fun c => isspace c = true) w
            /\ join [TAB] (l ++ replicate k []) = join [TAB] l ++ w.
Proof.
  induction l as [|x l IH].
  - exists (join [TAB] (replicate k [])). split; [apply join_empties_tabs|].
    reflexivity.
  - destruct l as [|y l].
    + destruct k as [|k].
      * exists []. split; [constructor|]. cbn. now rewrite app_nil_r.
      * exists ([TAB] ++ join [TAB] (replicate (S k) [])). split.
        -- constructor; [reflexivity | apply join_empties_tabs].
        -- reflexivity.
    + destruct IH as (w & Hw & E). exists w. split; [exact Hw|].
      change ((x :: y :: l) ++ replicate k [])
        with (x :: y :: (l ++ replicate k [])).
      rewrite !join_cons2. change (y :: (l ++ replicate k []))
        with ((y :: l) ++ replicate k []).
      rewrite E, <- !app_assoc. reflexivity.
Qed.

Lemma cells_is_padding (normalize : bool) (target : Z) (row : list str) :
  exists k, TxtWriter.cells normalize target row = row ++ replicate k [].
Proof.
  unfold TxtWriter.cells. destruct (_ && _ && _).
  - eauto.
  - exists 0%nat. cbn. now rewrite app_nil_r.
Qed.

Lemma safe_cells_padded (row : list str) (k : nat) :
  TxtWriter.safe_cells (row ++ replicate k [])
  = TxtWriter.safe_cells row ++ replicate k [].
Proof.
  unfold TxtWriter.safe_cells. rewrite map_app. f_equal.
  induction k as [|k IH]; cbn; [reflexivity | now rewrite IH].
Qed.

(** X12. In the tsv format normalisation leaves no trace: the padding cells
    only add trailing tabs, which the trim of every tsv line removes, so
    [_format_table] gives the same lines with [normalize] on and off. *)
Theorem tsv_normalisation_is_invisible (rows : list (list str)) :
  TxtWriter._format_table rows (lit "tsv") true
  = TxtWriter._format_table rows (lit "tsv") false.
Proof.
  unfold TxtWriter._format_table. apply map_ext. intros row.
  cbn beta zeta. rewrite bool_decide_eq_true_2 by reflexivity.
  destruct (cells_is_padding true (TxtWriter.target_cols rows true) row)
    as [k ->].
  replace (TxtWriter.cells false (TxtWriter.target_cols rows false) row)
    with row by reflexivity.
  rewrite safe_cells_padded.
  destruct (join_padded (TxtWriter.safe_cells row) k) as (w & Hw & ->).
  apply rstrip_by_app_all, Hw.
Qed.

Lemma render_without_tables (i18n : I18nManager) (fmt : str) (norm : bool)
    (blocks : list Block) :
  forall acc,
    fold_left (TxtWriter.render_block i18n false fmt norm) blocks acc
    = fold_left (TxtWriter.render_block i18n false fmt norm)
        (List.filter (fun b => negb (is_TableBlock b)) blocks) acc.
Proof.
  induction blocks as [|b blocks IH]; intros acc; [reflexivity|].
  destruct b as [text h f|rows h f]; cbn [List.filter is_TableBlock negb
                                           fold_left].
  - apply IH.
  - cbn [TxtWriter.render_block]. apply IH.
Qed.

(** X13. With [include_tables] off the writer ignores table blocks
    altogether: the text is the text of the model with its table blocks
    removed, with no table marker and no blank separator line left behind. *)
Theorem text_without_tables (i18n : I18nManager) (model : DocumentModel)
    (options : WriteOptions) :
  wo_include_tables options = Some false ->
  TxtWriter.text i18n model options
  = TxtWriter.text i18n (without_tables model) options.
Proof.
  intros Hoff. unfold TxtWriter.text, TxtWriter.out_lines. rewrite Hoff.
  cbn [default]. rewrite render_without_tables. reflexivity.
Qed.

Lemma text_without_tables_witness :
  TxtWriter.text no_locales two_pages_model
    (mkWriteOptions (Some false) None None None None None None)
  = TxtWriter.text no_locales (without_tables two_pages_model)
      (mkWriteOptions (Some false) None None None None None None).
Proof.
  apply (text_without_tables no_locales two_pages_model
           (mkWriteOptions (Some false) None None None None None None)).
  reflexivity.
Defined.

Lemma write_chunked_run `{Pathlib} (i18n : I18nManager)
    (model : DocumentModel) (output_path : str) (options : WriteOptions)
    (log : list io_event) (chunks : list str) :
  default false (wo_enable_chunk options) = true ->
  chunk_text (TxtWriter.text i18n model options)
    (default 12000 (wo_chunk_size options))
    (default 300 (wo_overlap options)) = Some chunks ->
  @TxtWriter.write i18n _ recording _ model output_path options log
  = Returned tt
      (log ++ Mkdir (path_parent output_path)
           :: map (fun '(idx, c) =>
                     WriteText (chunk_file output_path idx) c
                       (if default false (wo_utf8_bom options)
                        then utf_8_sig else utf_8))
                  (enumerate 1 chunks)).
Proof.
  intros Hon Hchunks. unfold TxtWriter.write. rewrite Hon, Hchunks.
  unfold bind. cbn [mkdir_parents recording].
  rewrite (for_each_recording
             (fun '(idx, c) =>
                WriteText (chunk_file output_path idx) c
                  (if default false (wo_utf8_bom options)
                   then utf_8_sig else utf_8))).
  - rewrite <- app_assoc. reflexivity.
  - intros [idx c] log'. reflexivity.
Qed.

(** X14. Chunked output is complete: with [enable_chunk] set and a positive
    [chunk_size], whatever the overlap, the writer creates the directory and
    then writes at least one part file; no part holds more than [chunk_size]
    characters, and the parts, glued with the (clamped) overlap dropped,
    give back the whole text. *)
Theorem chunked_write_is_complete `{Pathlib} (i18n : I18nManager)
    (model : DocumentModel) (output_path : str) (options : WriteOptions)
    (log : list io_event) :
  default false (wo_enable_chunk options) = true ->
  0 < default 12000 (wo_chunk_size options) ->
  exists chunks,
    @TxtWriter.write i18n _ recording _ model output_path options log
    = Returned tt
        (log ++ Mkdir (path_parent output_path)
             :: map (fun '(idx, c) =>
                       WriteText (chunk_file output_path idx) c
                         (if default false (wo_utf8_bom options)
                          then utf_8_sig else utf_8))
                    (enumerate 1 chunks))
    /\ chunks <> []
    /\ Forall (fun c => len c <= default 12000 (wo_chunk_size options)) chunks
    /\ reassemble (clamped (default 12000 (wo_chunk_size options))
                           (default 300 (wo_overlap options))) chunks
       = TxtWriter.text i18n model options.
Proof.
  intros Hon Hcs.
  destruct (chunk_text_valid (TxtWriter.text i18n model options) _ _
              (clamped_valid _ (default 300 (wo_overlap options)) Hcs))
    as (chunks & Hrun & Hall & Hre).
  rewrite <- chunk_text_clamped in Hrun by assumption.
  exists chunks. split; [apply write_chunked_run; assumption|].
  repeat split; auto.
  intros ->. cbn in Hre. unfold TxtWriter.text in Hre.
  destruct (rstrip _); discriminate Hre.
Qed.

Lemma chunked_write_is_complete_witness :
  exists chunks,
    @TxtWriter.write no_locales _ recording posix hello_model
      (lit "out/REPORT.TXT") chunk_5_1 []
    = Returned tt
        ([] ++ Mkdir (@path_parent posix (lit "out/REPORT.TXT"))
            :: map (fun '(idx, c) =>
                      WriteText (@chunk_file posix (lit "out/REPORT.TXT") idx) c
                        (if default false (wo_utf8_bom chunk_5_1)
                         then utf_8_sig else utf_8))
                   (enumerate 1 chunks))
    /\ chunks <> []
    /\ Forall (fun c => len c <= default 12000 (wo_chunk_size chunk_5_1)) chunks
    /\ reassemble (clamped (default 12000 (wo_chunk_size chunk_5_1))
                           (default 300 (wo_overlap chunk_5_1))) chunks
       = TxtWriter.text no_locales hello_model chunk_5_1.
Proof.
  apply (@chunked_write_is_complete posix no_locales hello_model
           (lit "out/REPORT.TXT") chunk_5_1 []); [reflexivity | cbn; lia].
Defined.

(** X15. A chunk size of zero or less switches the splitting off but not
    the naming: with [enable_chunk] set and [chunk_size <= 0] the writer
    creates the directory and writes one file only, the part file
    [{stem}_part001.txt], holding the whole text. *)
Theorem chunked_write_nonpositive_size `{Pathlib} (i18n : I18nManager)
    (model : DocumentModel) (output_path : str) (options : WriteOptions)
    (log : list io_event) :
  default false (wo_enable_chunk options) = true ->
  default 12000 (wo_chunk_size options) <= 0 ->
  @TxtWriter.write i18n _ recording _ model output_path options log
  = Returned tt
      (log ++ [Mkdir (path_parent output_path);
               WriteText
                 (path_join (path_parent output_path)
                    (path_stem output_path ++ lit "_part001.txt"))
                 (TxtWriter.text i18n model options)
                 (if default false (wo_utf8_bom options)
                  then utf_8_sig else utf_8)]).
Proof.
  intros Hon Hcs.
  rewrite (write_chunked_run i18n model output_path options log
             [TxtWriter.text i18n model options] Hon).
  - reflexivity.
  - unfold chunk_text. destruct (Z.leb_spec (default 12000 (wo_chunk_size options)) 0);
      [reflexivity | lia].
Qed.

Lemma chunked_write_nonpositive_size_witness :
  @TxtWriter.write no_locales _ recording posix hello_model
    (lit "out/REPORT.TXT")
    (mkWriteOptions None None None None (Some true) (Some 0) None) []
  = Returned tt
      ([] ++ [Mkdir (@path_parent posix (lit "out/REPORT.TXT"));
              WriteText
                (@path_join posix (@path_parent posix (lit "out/REPORT.TXT"))
                   (@path_stem posix (lit "out/REPORT.TXT")
                    ++ lit "_part001.txt"))
                (TxtWriter.text no_locales hello_model
                   (mkWriteOptions None None None None (Some true) (Some 0) None))
                (if default false
                      (wo_utf8_bom
                         (mkWriteOptions None None None None (Some true)
                            (Some 0) None))
                 then utf_8_sig else utf_8)]).
Proof.
  apply (@chunked_write_nonpositive_size posix no_locales hello_model
           (lit "out/REPORT.TXT")
           (mkWriteOptions None None None None (Some true) (Some 0) None) []);
    [reflexivity | cbn; lia].
Defined.

(** ** PDF reader: shape of the model *)

(** The normaliser applied twice, as a rewriting rule. *)
Lemma clean_text_fixed (s : str) :
  PdfReader._clean_text (PdfReader._clean_text s) = PdfReader._clean_text s.
Proof.
  change PdfReader._clean_text with DocxReader._clean_text.
  destruct (clean_text_shape s) as (Hcr & Hfix & Hstrip).
  set (r := DocxReader._clean_text s) in *.
  unfold DocxReader._clean_text at 1.
  rewrite (replace_absent CR [LF] [LF] r Hcr).
  rewrite (replace_absent CR [] [LF] r Hcr).
  rewrite (map_fixed _ _ Hfix), join_split. exact Hstrip.
Qed.

Lemma clean_cell_normalized (cell : option str) :
  normalized (PdfReader.clean_cell cell).
Proof.
  unfold normalized. destruct cell as [[|c rest]|]; cbn [PdfReader.clean_cell].
  - reflexivity.
  - apply clean_text_fixed.
  - reflexivity.
Qed.

Lemma decimal_chars (d : Decimal.uint) :
  Forall (fun c => (48 <= c <= 57)%N) (lit (NilEmpty.string_of_uint d)).
Proof.
  induction d; cbn [NilEmpty.string_of_uint];
    [constructor | constructor; [cbn; lia | exact IHd] ..].
Qed.

(** [str(n)] is never empty and is made of digits and the minus sign. *)
Lemma str_of_int_chars (n : Z) :
  str_of_int n <> []
  /\ Forall (fun c => c = MINUS \/ (48 <= c <= 57)%N) (str_of_int n).
Proof.
  unfold str_of_int.
  assert (Hu : forall d, lit (NilZero.string_of_uint d) <> []
                         /\ Forall (fun c => c = MINUS \/ (48 <= c <= 57)%N)
                                   (lit (NilZero.string_of_uint d))).
  { intros d. split.
    - destruct d; discriminate.
    - eapply Forall_impl;
        [|intros c Hc; right; exact Hc].
      destruct d; try apply (decimal_chars (_ d)).
      repeat constructor; cbn; lia. }
  destruct (Z.to_int n) as [d|d]; cbn [NilZero.string_of_int].
  - apply Hu.
  - split; [discriminate|]. constructor; [left; reflexivity | apply Hu].
Qed.

Lemma page_marker_wf (keep_empty : bool) (num : Z) :
  pdf_block_wf keep_empty (page_marker num).
Proof.
  unfold page_marker. cbn [pdf_block_wf].
  destruct (str_of_int_chars num) as [_ Hd].
  repeat split; try discriminate.
  - apply Forall_app; split; [repeat constructor; discriminate|].
    eapply Forall_impl; [exact Hd|]. cbn. intros c [->|Hc]; [discriminate|].
    unfold LF. lia.
  - apply Forall_app; split; [repeat constructor; discriminate|].
    eapply Forall_impl; [exact Hd|]. cbn. intros c [->|Hc]; [discriminate|].
    unfold CR. lia.
Qed.

(** The blocks one page adds: its marker if asked for, then well-formed
    blocks, none a header, and none a table when tables are off. *)
Lemma read_page_shape (ih it ke : bool) (num : Z) (page : Page)
    (blocks blocks' : list Block) :
  PdfReader.read_page ih it ke num page blocks = Return blocks' ->
  exists body,
    blocks' = blocks ++ (if ih then [page_marker num] else []) ++ body
    /\ Forall (pdf_block_wf ke) body
    /\ Forall (fun b => is_header_block b = false) body
    /\ (it = false -> Forall (fun b => is_TableBlock b = false) body).
Proof.
  unfold PdfReader.read_page.
  set (hdr := if ih then [page_marker num] else []).
  assert (Hhdr : (if ih
                  then blocks ++ [ParagraphBlock (lit "Page " ++ str_of_int num)
                                    true false]
                  else blocks) = blocks ++ hdr)
    by (unfold hdr; destruct ih; [reflexivity | now rewrite app_nil_r]).
  rewrite Hhdr. clear Hhdr.
  destruct (extract_text page) as [raw|e]; [|discriminate].
  set (par := fun line : str =>
                if negb (bool_decide (line = [])) || ke
                then [ParagraphBlock line false false] else []).
  assert (Htxt : exists txt,
             match raw with
             | Some (c :: rest) =>
                 fold_left
                   (fun blocks line =>
                      if negb (bool_decide (line = [])) || ke
                      then blocks ++ [ParagraphBlock line false false]
                      else blocks)
                   (split LF (PdfReader._clean_text (c :: rest))) (blocks ++ hdr)
             | _ => if ke then (blocks ++ hdr) ++ [ParagraphBlock [] false false]
                    else blocks ++ hdr
             end = (blocks ++ hdr) ++ txt
             /\ Forall (pdf_block_wf ke) txt
             /\ Forall (fun b => is_header_block b = false) txt
             /\ Forall (fun b => is_TableBlock b = false) txt).
  { assert (Hempty : exists txt,
              (if ke then (blocks ++ hdr) ++ [ParagraphBlock [] false false]
               else blocks ++ hdr) = (blocks ++ hdr) ++ txt
              /\ Forall (pdf_block_wf ke) txt
              /\ Forall (fun b => is_header_block b = false) txt
              /\ Forall (fun b => is_TableBlock b = false) txt).
    { destruct ke.
      - eexists. split; [reflexivity|]. repeat constructor; discriminate.
      - exists []. split; [now rewrite app_nil_r | auto]. }
    destruct raw as [[|c rest]|]; [exact Hempty | | exact Hempty].
    exists (concat (map par (split LF (PdfReader._clean_text (c :: rest))))).
    split.
    - apply (fold_left_append _ par). intros acc line. unfold par.
      destruct (negb _ || ke); [reflexivity | now rewrite app_nil_r].
    - assert (Hlines : Forall (fun line => Forall (fun c => c <> LF) line
                                           /\ Forall (fun c => c <> CR) line)
                         (split LF (PdfReader._clean_text (c :: rest)))).
      { apply Forall_and. split; [apply split_lines_lack_sep|].
        apply split_Forall.
        apply (clean_text_shape (c :: rest)). }
      repeat split; apply Forall_concat, Forall_map;
        (eapply Forall_impl; [exact Hlines|]); intros line [Hlf Hcr];
        cbn beta; unfold par;
        destruct (bool_decide_reflect (line = [])) as [->|Hne]; cbn [negb orb];
        try destruct ke; repeat constructor; auto; try discriminate;
        try (intros _ [=]). }
  destruct Htxt as (txt & -> & Hwf & Hnh & Hnt).
  destruct it.
  - unfold PdfReader.detected_tables.
    set (tbl := fun table : list (list (option str)) =>
                  [TableBlock (map (map PdfReader.clean_cell) table)
                     false false]).
    assert (Htbl : forall tables,
               Forall (pdf_block_wf ke) (concat (map tbl tables))
               /\ Forall (fun b => is_header_block b = false)
                         (concat (map tbl tables))).
    { intros tables. split; apply Forall_concat, Forall_map, Forall_forall;
        intros table _; repeat constructor.
      cbn. repeat split. apply Forall_map, Forall_forall. intros row _.
      cbn. apply Forall_map, Forall_forall. intros cell _.
      apply clean_cell_normalized. }
    intros Hrun.
    assert (Hdone : exists tables,
               blocks' = fold_left (fun blocks table => blocks ++ tbl table)
                           tables ((blocks ++ hdr) ++ txt)).
    { destruct (extract_tables page) as [tables|e].
      - injection Hrun as <-. eauto.
      - destruct (is_Exception e); [|discriminate].
        injection Hrun as <-. exists []. reflexivity. }
    destruct Hdone as [tables ->].
    rewrite (fold_left_append _ tbl) by reflexivity.
    destruct (Htbl tables) as [Hw Hh].
    exists (txt ++ concat (map tbl tables)).
    rewrite <- !app_assoc. split; [reflexivity|].
    repeat split; try (apply Forall_app; split; assumption). discriminate.
  - intros [= <-]. exists txt. rewrite <- app_assoc. auto.
Qed.

Lemma read_pages_shape (ih it ke : bool) (pages : list Page) :
  forall (start : Z) (blocks blocks' : list Block),
    PdfReader.read_pages ih it ke (enumerate start pages) blocks
    = Return blocks' ->
    exists bodies,
      length bodies = length pages
      /\ blocks'
         = blocks
           ++ concat (zip_with (fun num body =>
                                  (if ih then [page_marker num] else []) ++ body)
                               (seqZ start (len pages)) bodies)
      /\ Forall (Forall (pdf_block_wf ke)) bodies
      /\ Forall (Forall (fun b => is_header_block b = false)) bodies
      /\ (it = false ->
          Forall (Forall (fun b => is_TableBlock b = false)) bodies).
Proof.
  induction pages as [|page pages IH]; intros start blocks blocks' Hrun.
  - cbn in Hrun. injection Hrun as <-. exists []. cbn.
    rewrite app_nil_r. auto.
  - cbn [enumerate PdfReader.read_pages] in Hrun.
    destruct (PdfReader.read_page ih it ke start page blocks)
      as [blocks1|e] eqn:Hpage; [|discriminate].
    apply read_page_shape in Hpage as (body & -> & Hwf & Hnh & Hnt).
    apply IH in Hrun as (bodies & Hlen & -> & Hwfs & Hnhs & Hnts).
    exists (body :: bodies). split; [cbn; lia|].
    split.
    + replace (len (page :: pages)) with (Z.succ (len pages))
        by (unfold len; cbn [length]; lia).
      rewrite (seqZ_cons start) by (unfold len; lia).
      rewrite Z.pred_succ. cbn [zip_with concat].
      replace (Z.succ start) with (start + 1) by lia.
      rewrite <- !app_assoc. reflexivity.
    + repeat split; try constructor; auto.
Qed.

Lemma read_returned {W : Type} `{Pdfplumber W} (file_path : str)
    (options : ReadOptions) (w w' : W) (model : DocumentModel) :
  PdfReader.read file_path options w = Returned model w' ->
  exists pages,
    pdf_open file_path w = Returned pages w'
    /\ PdfReader.read_pages
         (default false (ro_include_headers options))
         (default true (ro_include_tables options))
         (default false (ro_keep_empty_paragraphs options))
         (enumerate 1 pages) [] = Return (blocks model).
Proof.
  unfold PdfReader.read, bind, try_except, raise, ret. intros Hrun.
  destruct (pdf_open file_path w) as [pages w1|e w1|]; [| |discriminate].
  - exists pages. destruct pages as [|page pages].
    + injection Hrun as <- <-. auto.
    + destruct (PdfReader.read_pages _ _ _ _ _) as [blocks'|e];
        [|discriminate].
      injection Hrun as <- <-. auto.
  - destruct (is_Exception e); discriminate.
Qed.

Lemma Forall_pages (P : Block -> Prop) (ih : bool) :
  (forall num, P (page_marker num)) ->
  forall (bodies : list (list Block)) (nums : list Z),
    Forall (Forall P) bodies ->
    Forall P (concat (zip_with
                        (fun num body =>
                           (if ih then [page_marker num] else []) ++ body)
                        nums bodies)).
Proof.
  intros Hmark. induction bodies as [|body bodies IH]; intros nums Hall.
  - destruct nums; constructor.
  - destruct nums as [|num nums]; [constructor|].
    inversion Hall; subst. cbn [zip_with concat].
    apply Forall_app; split; [|apply IH; assumption].
    apply Forall_app; split; [|assumption].
    destruct ih; repeat constructor. apply Hmark.
Qed.

(** X16. Every block of a model the PDF reader returns is well formed: a
    paragraph holds a single line (no line feed, no carriage return) and is
    empty only when empty paragraphs are kept; a table is neither header nor
    footer and every one of its cells is normalised; nothing is marked as
    footer. *)
Theorem pdf_model_well_formed {W : Type} `{Pdfplumber W} (file_path : str)
    (options : ReadOptions) (w w' : W) (model : DocumentModel) :
  PdfReader.read file_path options w = Returned model w' ->
  Forall (pdf_block_wf (default false (ro_keep_empty_paragraphs options)))
         (blocks model).
Proof.
  intros Hrun. apply read_returned in Hrun as (pages & _ & Hpages).
  apply read_pages_shape in Hpages as (bodies & _ & -> & Hwf & _).
  cbn [app]. apply Forall_pages; [apply page_marker_wf | exact Hwf].
Qed.

Lemma pdf_model_well_formed_witness :
  Forall (pdf_block_wf (default false (ro_keep_empty_paragraphs no_read_options)))
         (blocks two_pages_model).
Proof.
  apply (@pdf_model_well_formed _ two_pages (lit "two.pdf") no_read_options
           [] [] two_pages_model).
  vm_compute. reflexivity.
Defined.

Lemma filter_no_header (body : list Block) :
  Forall (fun b => is_header_block b = false) body ->
  List.filter is_header_block body = [].
Proof. induction 1 as [|b body Hb _ IH]; cbn; [|rewrite Hb]; auto. Qed.

Lemma filter_page_markers (ih : bool) (bodies : list (list Block)) :
  Forall (Forall (fun b => is_header_block b = false)) bodies ->
  forall nums : list Z,
    length nums = length bodies ->
    List.filter is_header_block
      (concat (zip_with
                 (fun num body =>
                    (if ih then [page_marker num] else []) ++ body)
                 nums bodies))
    = if ih then page_marker <$> nums else [].
Proof.
  induction 1 as [|body bodies Hbody _ IH]; intros [|num nums] Hlen;
    try discriminate Hlen.
  - destruct ih; reflexivity.
  - cbn [zip_with concat]. rewrite !List.filter_app, IH
      by (cbn in Hlen; lia).
    rewrite (filter_no_header body Hbody).
    destruct ih; reflexivity.
Qed.

(** X17. Page markers: with [include_headers] on, the header blocks of the
    model are exactly the markers "Page 1", "Page 2", ... one per page of
    the file and in page order; with it off the model has no header block
    at all. *)
Theorem pdf_page_markers {W : Type} `{Pdfplumber W} (file_path : str)
    (options : ReadOptions) (w w' w'' : W) (pages : list Page)
    (model : DocumentModel) :
  pdf_open file_path w = Returned pages w' ->
  PdfReader.read file_path options w = Returned model w'' ->
  List.filter is_header_block (blocks model)
  = if default false (ro_include_headers options)
    then page_marker <$> seqZ 1 (len pages) else [].
Proof.
  intros Hopen Hrun. apply read_returned in Hrun as (pages' & Hopen' & Hpages).
  rewrite Hopen in Hopen'. injection Hopen' as <- _.
  apply read_pages_shape in Hpages as (bodies & Hlen & -> & _ & Hnh & _).
  cbn [app]. apply filter_page_markers; [exact Hnh|].
  rewrite length_seqZ. unfold len. lia.
Qed.

Lemma pdf_page_markers_witness :
  exists model,
    @PdfReader.read _ two_pages (lit "two.pdf")
      (mkReadOptions (Some true) None None None) [] = Returned model []
    /\ List.filter is_header_block (blocks model)
       = if default false
              (ro_include_headers (mkReadOptions (Some true) None None None))
         then page_marker <$> seqZ 1 (len [page_detector_fails; page_with_table])
         else [].
Proof.
  eexists. split; [vm_compute; reflexivity|].
  apply (@pdf_page_markers _ two_pages (lit "two.pdf")
           (mkReadOptions (Some true) None None None) [] [] []
           [page_detector_fails; page_with_table]);
    [reflexivity | vm_compute; reflexivity].
Defined.

(** X18. With [include_tables] off the PDF reader never emits a table
    block, whatever the table detector would have found or raised. *)
Theorem pdf_without_tables {W : Type} `{Pdfplumber W} (file_path : str)
    (options : ReadOptions) (w w' : W) (model : DocumentModel) :
  ro_include_tables options = Some false ->
  PdfReader.read file_path options w = Returned model w' ->
  Forall (fun b => is_TableBlock b = false) (blocks model).
Proof.
  intros Hoff Hrun. apply read_returned in Hrun as (pages & _ & Hpages).
  rewrite Hoff in Hpages. cbn [default] in Hpages.
  apply read_pages_shape in Hpages as (bodies & _ & -> & _ & _ & Hnt).
  cbn [app]. apply Forall_pages; [reflexivity | apply Hnt; reflexivity].
Qed.

Lemma pdf_without_tables_witness :
  exists model,
    @PdfReader.read _ two_pages (lit "two.pdf")
      (mkReadOptions None None (Some false) None) [] = Returned model []
    /\ Forall (fun b => is_TableBlock b = false) (blocks model).
Proof.
  eexists. split; [vm_compute; reflexivity|].
  apply (@pdf_without_tables _ two_pages (lit "two.pdf")
           (mkReadOptions None None (Some false) None) [] []);
    [reflexivity | vm_compute; reflexivity].
Defined.

(** X19. A file that cannot be opened: when [pdfplumber.open] raises an
    exception, [read] raises a [RuntimeError] chained to it, in the world
    the failed open left, whose message names the file and says that
    scanned PDFs need OCR, which is not supported. *)
Theorem pdf_open_failure {W : Type} `{Pdfplumber W} (file_path : str)
    (options : ReadOptions) (w w' : W) (e : pyexc) :
  pdf_open file_path w = Raised e w' -> is_Exception e = true ->
  PdfReader.read file_path options w
  = Raised
      (RuntimeError
         (lit "Cannot open PDF '" ++ file_path
          ++ lit "'. If the file is encrypted or scanned, note that scanned PDFs require OCR which is not supported.")
         e) w'.
Proof.
  intros Hopen He. unfold PdfReader.read, bind, try_except, raise.
  rewrite Hopen, He. reflexivity.
Qed.

Lemma pdf_open_failure_witness :
  @PdfReader.read _ no_such_file (lit "missing.pdf") no_read_options []
  = Raised
      (RuntimeError
         (lit "Cannot open PDF '" ++ lit "missing.pdf"
          ++ lit "'. If the file is encrypted or scanned, note that scanned PDFs require OCR which is not supported.")
         (OtherException (lit "FileNotFoundError")
            (lit "[Errno 2] No such file or directory: '" ++ lit "missing.pdf"
             ++ lit "'"))) [].
Proof.
  apply (@pdf_open_failure _ no_such_file (lit "missing.pdf") no_read_options
           [] []); reflexivity.
Defined.

Lemma enumerate_app {A : Type} (l1 l2 : list A) :
  forall start : Z,
    enumerate start (l1 ++ l2)
    = enumerate start l1 ++ enumerate (start + len l1) l2.
Proof.
  induction l1 as [|x l1 IH]; intros start; cbn [enumerate app].
  - unfold len. cbn. now rewrite Z.add_0_r.
  - rewrite IH. do 3 f_equal. unfold len. cbn [length]. lia.
Qed.

Lemma read_pages_app (ih it ke : bool) (l1 l2 : list (Z * Page)) :
  forall blocks,
    PdfReader.read_pages ih it ke (l1 ++ l2) blocks
    = match PdfReader.read_pages ih it ke l1 blocks with
      | Return blocks1 => PdfReader.read_pages ih it ke l2 blocks1
      | Raise e => Raise e
      end.
Proof.
  induction l1 as [|[num page] l1 IH]; intros blocks;
    cbn [app PdfReader.read_pages]; [reflexivity|].
  destruct (PdfReader.read_page ih it ke num page blocks); [apply IH|].
  reflexivity.
Qed.

(** X20. Text extraction is not protected the way table detection is: when
    [extract_text] raises on a page, after pages that were read without
    trouble, [read] raises that exception and returns no model, not even
    for the pages already read. *)
Theorem pdf_text_failure_propagates {W : Type} `{Pdfplumber W}
    (file_path : str) (options : ReadOptions) (w w' : W)
    (before after : list Page) (page : Page) (e : pyexc) :
  pdf_open file_path w = Returned (before ++ page :: after) w' ->
  Forall (fun page => exists raw, extract_text page = Return raw) before ->
  Forall (fun page => forall e, extract_tables page = Raise e ->
                                is_Exception e = true) before ->
  extract_text page = Raise e ->
  PdfReader.read file_path options w = Raised e w'.
Proof.
  intros Hopen Htext Hexc Hfail.
  unfold PdfReader.read, bind, try_except. rewrite Hopen.
  destruct (read_pages_spec
              (default false (ro_include_headers options))
              (default true (ro_include_tables options))
              (default false (ro_keep_empty_paragraphs options))
              before Htext Hexc 1 []) as (per_page & Hrun & _).
  assert (Hpages : PdfReader.read_pages
                     (default false (ro_include_headers options))
                     (default true (ro_include_tables options))
                     (default false (ro_keep_empty_paragraphs options))
                     (enumerate 1 (before ++ page :: after)) [] = Raise e).
  { rewrite enumerate_app, read_pages_app, Hrun.
    cbn [enumerate PdfReader.read_pages]. unfold PdfReader.read_page.
    rewrite Hfail. reflexivity. }
  destruct (before ++ page :: after) eqn:E.
  - destruct before; discriminate E.
  - rewrite Hpages. reflexivity.
Qed.

Lemma pdf_text_failure_propagates_witness :
  @PdfReader.read _ broken_second_page (lit "broken.pdf") no_read_options []
  = Raised (OtherException (lit "PDFSyntaxError") (lit "bad stream")) [].
Proof.
  apply (@pdf_text_failure_propagates _ broken_second_page (lit "broken.pdf")
           no_read_options [] [] [page_with_table] [page_with_table]
           page_text_fails).
  - reflexivity.
  - repeat constructor. eexists. reflexivity.
  - repeat constructor. intros e He. vm_compute in He. discriminate He.
  - reflexivity.
Defined.

(** ** Word-processor reader *)

Lemma parse_table_rows (table : list DocxRow) (h f : bool) :
  DocxReader._parse_table table h f
  = TableBlock
      (map (fun row =>
              replicate (Z.to_nat (grid_or_zero (grid_cols_before row))) []
              ++ map DocxReader._clean_text (row_cells row)
              ++ replicate (Z.to_nat (grid_or_zero (grid_cols_after row))) [])
           table)
      h f.
Proof.
  unfold DocxReader._parse_table. f_equal.
  rewrite (fold_left_append _
             (fun row =>
                [replicate (Z.to_nat (grid_or_zero (grid_cols_before row))) []
                 ++ map DocxReader._clean_text (row_cells row)
                 ++ replicate (Z.to_nat (grid_or_zero (grid_cols_after row))) []]))
    by reflexivity.
  cbn [app]. induction table as [|row table IH]; cbn; [|rewrite IH];
    reflexivity.
Qed.

Lemma header_footer_blocks_closed (ke h f : bool) (hf : HeaderFooter)
    (blocks : list Block) :
  DocxReader.header_footer_blocks ke h f hf blocks
  = blocks ++ docx_hf_blocks ke h f hf.
Proof.
  unfold DocxReader.header_footer_blocks, docx_hf_blocks.
  rewrite (fold_left_append _
             (fun t => [DocxReader._parse_table t h f])) by reflexivity.
  rewrite (fold_left_append _ (docx_paragraph_blocks ke h f)).
  - rewrite <- app_assoc. do 2 f_equal.
    induction (hf_tables hf) as [|t ts IH]; cbn; [|rewrite IH]; reflexivity.
  - intros acc p. unfold docx_paragraph_blocks. cbn zeta.
    destruct (negb _ || ke); [reflexivity | now rewrite app_nil_r].
Qed.

(** The blocks of a document in closed form: headers, then footers, then
    the body. *)
Lemma read_blocks_closed (doc : DocxDocument) (options : ReadOptions) :
  let ke := default false (ro_keep_empty_paragraphs options) in
  DocxReader.read_blocks doc options
  = (if default false (ro_include_headers options)
     then concat (map (fun '(i, sec) =>
                         section_marker true false i
                         :: docx_hf_blocks ke true false (sec_header sec))
                      (enumerate 1 (doc_sections doc)))
     else [])
    ++ (if default false (ro_include_footers options)
        then concat (map (fun '(i, sec) =>
                            section_marker false true i
                            :: docx_hf_blocks ke false true (sec_footer sec))
                         (enumerate 1 (doc_sections doc)))
        else [])
    ++ concat (map (docx_item_blocks ke) (DocxReader.iter_block_items doc)).
Proof.
  intros ke. unfold DocxReader.read_blocks. fold ke.
  rewrite (fold_left_append _ (docx_item_blocks ke)).
  2:{ intros acc [text|rows]; cbn [docx_item_blocks]; [|reflexivity].
      unfold docx_paragraph_blocks. cbn zeta.
      destruct (negb _ || ke); [reflexivity | now rewrite app_nil_r]. }
  rewrite app_assoc. f_equal.
  assert (Hsec : forall (h f : bool) (pick : DocxSection -> HeaderFooter) acc,
             fold_left
               (fun blocks '(i, sec) =>
                  DocxReader.header_footer_blocks ke h f (pick sec)
                    (blocks ++ [ParagraphBlock (lit "Section " ++ str_of_int i) h f]))
               (enumerate 1 (doc_sections doc)) acc
             = acc ++ concat (map (fun '(i, sec) =>
                                     section_marker h f i
                                     :: docx_hf_blocks ke h f (pick sec))
                                  (enumerate 1 (doc_sections doc)))).
  { intros h f pick acc. apply fold_left_append. intros acc' [i sec].
    rewrite header_footer_blocks_closed, <- app_assoc. reflexivity. }
  destruct (default false (ro_include_headers options)),
    (default false (ro_include_footers options));
    rewrite ?Hsec; cbn [app]; rewrite ?app_nil_r; reflexivity.
Qed.

Lemma omap_cons_match {A B : Type} (f : A -> option B) (x : A) (l : list A) :
  omap f (x :: l)
  = match f x with
    | Some y => y :: omap f l
    | None => omap f l
    end.
Proof. reflexivity. Qed.

Lemma body_projections (ke : bool) (body : list BodyChild) :
  let blocks :=
    concat (map (docx_item_blocks ke)
                (flat_map (fun child =>
                             match child with
                             | CT_P text => [DocxReader.Paragraph text]
                             | CT_Tbl rows => [DocxReader.Table rows]
                             | CT_other => []
                             end) body)) in
  omap block_text blocks
  = List.filter (fun t => negb (bool_decide (t = [])) || ke)
      (map DocxReader._clean_text (omap child_paragraph body))
  /\ List.filter is_TableBlock blocks
     = map (fun rows => DocxReader._parse_table rows false false)
           (omap child_table body).
Proof.
  induction body as [|child body [IHp IHt]]; [split; reflexivity|].
  destruct child as [text|rows|]; cbn [flat_map app map concat];
    rewrite !(omap_cons_match child_paragraph),
      !(omap_cons_match child_table);
    cbn [child_paragraph child_table].
  - cbn [docx_item_blocks]. unfold docx_paragraph_blocks. cbn zeta.
    rewrite omap_app, List.filter_app. cbn [map List.filter]. cbn beta.
    destruct (negb _ || ke).
    + rewrite omap_cons_match. cbn [block_text List.filter is_TableBlock app].
      rewrite IHp, IHt. split; reflexivity.
    + cbn [List.filter app]. rewrite IHp, IHt. split; reflexivity.
  - cbn [docx_item_blocks app]. rewrite omap_cons_match.
    cbn [List.filter map].
    unfold DocxReader._parse_table at 1 2. cbn [block_text is_TableBlock].
    rewrite IHp, IHt. split; reflexivity.
  - split; assumption.
Qed.

(** X21. Body content of a word-processor file, with headers and footers
    off: the paragraph blocks of the model carry, in document order, the
    normalised texts of the body paragraphs, those that normalise to the
    empty string being dropped unless [keep_empty_paragraphs] is set; the
    table blocks are, in document order, the parsed body tables, one per
    table; other body children contribute nothing. *)
Theorem docx_body_blocks (doc : DocxDocument) (options : ReadOptions) :
  default false (ro_include_headers options) = false ->
  default false (ro_include_footers options) = false ->
  omap block_text (DocxReader.read_blocks doc options)
  = List.filter
      (fun t => negb (bool_decide (t = []))
                || default false (ro_keep_empty_paragraphs options))
      (map DocxReader._clean_text (omap child_paragraph (doc_body doc)))
  /\ List.filter is_TableBlock (DocxReader.read_blocks doc options)
     = map (fun rows => DocxReader._parse_table rows false false)
           (omap child_table (doc_body doc))
  /\ Forall (fun b => is_header_block b = false /\ is_footer_block b = false)
            (DocxReader.read_blocks doc options).
Proof.
  intros Hh Hf. rewrite read_blocks_closed. rewrite Hh, Hf. cbn [app].
  unfold DocxReader.iter_block_items.
  destruct (body_projections (default false (ro_keep_empty_paragraphs options))
              (doc_body doc)) as [Hp Ht].
  split; [exact Hp|]. split; [exact Ht|].
  apply Forall_concat, Forall_map, Forall_forall. intros [text|rows] _.
  - cbn [docx_item_blocks]. unfold docx_paragraph_blocks. cbn zeta.
    destruct (negb _ || _); repeat constructor.
  - repeat constructor.
Qed.

Lemma docx_body_blocks_witness :
  omap block_text (DocxReader.read_blocks sample_doc no_read_options)
  = List.filter
      (fun t => negb (bool_decide (t = []))
                || default false (ro_keep_empty_paragraphs no_read_options))
      (map DocxReader._clean_text (omap child_paragraph (doc_body sample_doc)))
  /\ List.filter is_TableBlock (DocxReader.read_blocks sample_doc no_read_options)
     = map (fun rows => DocxReader._parse_table rows false false)
           (omap child_table (doc_body sample_doc))
  /\ Forall (fun b => is_header_block b = false /\ is_footer_block b = false)
            (DocxReader.read_blocks sample_doc no_read_options).
Proof.
  apply (docx_body_blocks sample_doc no_read_options); reflexivity.
Defined.

Lemma hf_blocks_flags (ke h f : bool) (hf : HeaderFooter) :
  Forall (fun b => is_header_block b = h /\ is_footer_block b = f)
         (docx_hf_blocks ke h f hf).
Proof.
  unfold docx_hf_blocks. apply Forall_app. split.
  - apply Forall_concat, Forall_map, Forall_forall. intros p _.
    unfold docx_paragraph_blocks. cbn zeta.
    destruct (negb _ || ke); repeat constructor.
  - apply Forall_map, Forall_forall. intros t _. split; reflexivity.
Qed.

Lemma section_blocks_flags (ke h f : bool)
    (pick : DocxSection -> HeaderFooter) (l : list (Z * DocxSection)) :
  Forall (fun b => is_header_block b = h /\ is_footer_block b = f)
         (concat (map (fun numbered =>
                         section_marker h f (fst numbered)
                         :: docx_hf_blocks ke h f (pick (snd numbered))) l)).
Proof.
  apply Forall_concat, Forall_map, Forall_forall.
  intros [i sec] _. constructor; [split; reflexivity|].
  apply hf_blocks_flags.
Qed.

(** X22. Provenance and order in a model read from a word-processor file:
    the blocks are, when headers are asked for, the header group (for every
    section in order its marker "Section N" and the paragraphs and tables of
    its header), then, when footers are asked for, the footer group (the
    same with the footers), then the blocks of the body items; every block
    of the header group is flagged header and not footer, every block of
    the footer group footer and not header, and the body blocks neither. *)
Theorem docx_blocks_provenance (doc : DocxDocument) (options : ReadOptions) :
  DocxReader.read_blocks doc options
  = (if default false (ro_include_headers options)
     then docx_header_group
            (default false (ro_keep_empty_paragraphs options)) doc
     else [])
    ++ (if default false (ro_include_footers options)
        then docx_footer_group
               (default false (ro_keep_empty_paragraphs options)) doc
        else [])
    ++ docx_body_group (default false (ro_keep_empty_paragraphs options)) doc
  /\ Forall (fun b => is_header_block b = true /\ is_footer_block b = false)
            (docx_header_group
               (default false (ro_keep_empty_paragraphs options)) doc)
  /\ Forall (fun b => is_header_block b = false /\ is_footer_block b = true)
            (docx_footer_group
               (default false (ro_keep_empty_paragraphs options)) doc)
  /\ Forall (fun b => is_header_block b = false /\ is_footer_block b = false)
            (docx_body_group
               (default false (ro_keep_empty_paragraphs options)) doc).
Proof.
  set (ke := default false (ro_keep_empty_paragraphs options)).
  split; [|split; [|split]].
  - rewrite read_blocks_closed. cbn zeta. fold ke.
    unfold docx_header_group, docx_footer_group, docx_body_group.
    f_equal; [|f_equal];
      match goal with
      | |- (if ?c then _ else _) = _ => destruct c; [|reflexivity]
      end;
      f_equal; apply map_ext; intros [i sec]; reflexivity.
  - apply (section_blocks_flags ke true false sec_header).
  - apply (section_blocks_flags ke false true sec_footer).
  - apply Forall_concat, Forall_map, Forall_forall. intros [text|rows] _.
    + cbn [docx_item_blocks]. unfold docx_paragraph_blocks. cbn zeta.
      destruct (negb _ || _); repeat constructor.
    + repeat constructor.
Qed.

Lemma docx_blocks_provenance_witness :
  DocxReader.read_blocks sample_doc with_headers_and_footers
  = [ParagraphBlock (lit "Section 1") true false;
     ParagraphBlock (lit "Report header") true false;
     ParagraphBlock (lit "Section 1") false true;
     ParagraphBlock (lit "page") false true;
     ParagraphBlock (lit "Hello World") false false;
     TableBlock [[lit "A1"; lit "B1"]; [[]; lit "B2"]] false false]
  /\ Forall (fun b => is_header_block b = true /\ is_footer_block b = false)
            (docx_header_group false sample_doc)
  /\ Forall (fun b => is_header_block b = false /\ is_footer_block b = true)
            (docx_footer_group false sample_doc).
Proof.
  destruct (docx_blocks_provenance sample_doc with_headers_and_footers)
    as (Hblocks & Hheaders & Hfooters & _).
  split; [|split; [exact Hheaders | exact Hfooters]].
  rewrite Hblocks. vm_compute. reflexivity.
Defined.

Lemma strip_by_none (p : char -> bool) (s : str) :
  Forall (fun c => p c = false) s -> strip_by p s = s.
Proof.
  intros Hs. unfold strip_by, rstrip_by.
  assert (Hl : forall u, Forall (fun c => p c = false) u -> lstrip_by p u = u).
  { intros u Hu. apply lstrip_by_fix. destruct Hu; [exact I | assumption]. }
  rewrite (Hl s Hs), (Hl (rev s)) by apply List.Forall_rev, Hs.
  apply rev_involutive.
Qed.

Lemma rstrip_by_snoc (p : char -> bool) (a : str) (c : char) :
  p c = false -> rstrip_by p (a ++ [c]) = a ++ [c].
Proof.
  intros Hc. unfold rstrip_by. rewrite rev_unit. cbn [lstrip_by].
  rewrite Hc. cbn [rev]. now rewrite rev_involutive.
Qed.

(** A single clean line is a normalised string. *)
Lemma normalized_line (s : str) :
  Forall (fun c => c <> CR) s -> Forall (fun c => c <> LF) s ->
  collapsed s -> bare_head isspace s -> rstrip s = s ->
  normalized s.
Proof.
  intros Hcr Hlf Hcol Hhead Hlast. unfold normalized, PdfReader._clean_text.
  rewrite (replace_absent CR [LF] [LF] s Hcr).
  rewrite (replace_absent CR [] [LF] s Hcr).
  rewrite split_line by assumption. cbn [map join].
  unfold _WS_RE_sub. destruct (re_plus_sub_fix s Hcol) as [-> _].
  unfold strip, strip_by. rewrite (lstrip_by_fix isspace s Hhead).
  fold (rstrip s). rewrite Hlast. apply strip_by_none.
  eapply Forall_impl; [exact Hlf|]. intros c Hc. unfold one_of. cbn.
  rewrite orb_false_r. apply N.eqb_neq, Hc.
Qed.

Lemma collapsed_no_ws (s : str) :
  Forall (fun c => c <> TAB /\ c <> SPACE) s -> collapsed s.
Proof.
  induction 1 as [|c s [Ht Hs] _ IH]; cbn [collapsed]; [exact I|].
  repeat split; [assumption | contradiction | assumption].
Qed.

Lemma isspace_digit (c : char) :
  c = MINUS \/ (48 <= c <= 57)%N -> isspace c = false.
Proof.
  intros [->|Hc]; [reflexivity|]. unfold isspace.
  assert (H1 : (c <=? 13)%N = false) by (apply N.leb_gt; lia).
  assert (H2 : (c <=? 32)%N = false) by (apply N.leb_gt; lia).
  assert (H3 : (8192 <=? c)%N = false) by (apply N.leb_gt; lia).
  assert (Hne : forall k, (100 <= k)%N -> (c =? k)%N = false)
    by (intros k Hk; apply N.eqb_neq; lia).
  rewrite H1, H2, H3, !andb_false_r, !Hne by lia.
  reflexivity.
Qed.

(** The markers "Section N" are normalised strings. *)
Lemma section_marker_normalized (i : Z) :
  normalized (lit "Section " ++ str_of_int i)
  /\ lit "Section " ++ str_of_int i <> [].
Proof.
  split; [|discriminate].
  destruct (str_of_int_chars i) as [Hne Hd].
  set (d := str_of_int i) in *.
  assert (Hd' : Forall (fun c => c <> CR /\ c <> LF /\ c <> TAB /\ c <> SPACE) d).
  { eapply Forall_impl; [exact Hd|]. cbn.
    intros c [->|Hc]; repeat split; try discriminate;
      unfold CR, LF, TAB, SPACE; lia. }
  apply normalized_line.
  - apply Forall_app; split; [repeat constructor; discriminate|].
    eapply Forall_impl; [exact Hd'|]. cbn. tauto.
  - apply Forall_app; split; [repeat constructor; discriminate|].
    eapply Forall_impl; [exact Hd'|]. cbn. tauto.
  - assert (Hcol : collapsed d /\ bare_head (N.eqb SPACE) d).
    { split.
      - apply collapsed_no_ws. eapply Forall_impl; [exact Hd'|]. cbn. tauto.
      - destruct Hd' as [|c d' (_ & _ & _ & Hs) _]; cbn [bare_head];
          [exact I|].
        apply N.eqb_neq. congruence. }
    destruct Hcol as [Hcol Hhead].
    change (lit "Section ")
      with [83; 101; 99; 116; 105; 111; 110; 32]%N.
    cbn [app collapsed bare_head].
    repeat split; try discriminate; try intros _; assumption.
  - reflexivity.
  - destruct (exists_last Hne) as (d0 & c & E). rewrite E in *.
    rewrite app_assoc. apply rstrip_by_snoc, isspace_digit.
    apply Forall_app in Hd as [_ Hc]. inversion Hc; subst. assumption.
Qed.

Lemma paragraph_blocks_wf (ke h f : bool) (p : str) :
  Forall (docx_block_wf ke) (docx_paragraph_blocks ke h f p).
Proof.
  unfold docx_paragraph_blocks. cbn zeta.
  destruct (bool_decide_reflect (DocxReader._clean_text p = [])) as [E|Hne];
    cbn [negb orb].
  - destruct ke; repeat constructor.
    + apply clean_text_fixed.
    + discriminate.
  - repeat constructor; [apply clean_text_fixed | intros _; exact Hne].
Qed.

Lemma parse_table_wf (ke h f : bool) (table : list DocxRow) :
  docx_block_wf ke (DocxReader._parse_table table h f).
Proof.
  rewrite parse_table_rows. cbn [docx_block_wf].
  apply Forall_map, Forall_forall. intros row _. cbn beta.
  assert (Hpad : forall k, Forall normalized (replicate k ([] : str))).
  { intros k. induction k; cbn; constructor; [reflexivity | assumption]. }
  repeat (apply Forall_app; split); try apply Hpad.
  apply Forall_map, Forall_forall. intros cell _. apply clean_text_fixed.
Qed.

(** X23. Every string of a model read from a word-processor file has been
    through the normaliser: each paragraph text, the "Section N" markers
    included, and each table cell, the reader's padding cells included, is a
    string the normaliser leaves unchanged; and no paragraph text is empty
    unless [keep_empty_paragraphs] is set. *)
Theorem docx_model_normalized (doc : DocxDocument) (options : ReadOptions) :
  Forall (docx_block_wf (default false (ro_keep_empty_paragraphs options)))
         (DocxReader.read_blocks doc options).
Proof.
  rewrite read_blocks_closed. cbn zeta.
  set (ke := default false (ro_keep_empty_paragraphs options)).
  assert (Hhf : forall h f hf, Forall (docx_block_wf ke) (docx_hf_blocks ke h f hf)).
  { intros h f hf. unfold docx_hf_blocks. apply Forall_app. split.
    - apply Forall_concat, Forall_map, Forall_forall. intros p _.
      apply paragraph_blocks_wf.
    - apply Forall_map, Forall_forall. intros t _. apply parse_table_wf. }
  assert (Hsec : forall h f (pick : DocxSection -> HeaderFooter) l,
             Forall (docx_block_wf ke)
                    (concat (map (fun '(i, sec) =>
                                    section_marker h f i
                                    :: docx_hf_blocks ke h f (pick sec)) l))).
  { intros h f pick l. apply Forall_concat, Forall_map, Forall_forall.
    intros [i sec] _. constructor; [|apply Hhf].
    destruct (section_marker_normalized i) as [Hn Hne].
    split; [exact Hn | intros _; exact Hne]. }
  repeat (apply Forall_app; split).
  - destruct (default false (ro_include_headers options));
      [apply Hsec | constructor].
  - destruct (default false (ro_include_footers options));
      [apply Hsec | constructor].
  - apply Forall_concat, Forall_map, Forall_forall. intros [text|rows] _.
    + apply paragraph_blocks_wf.
    + repeat constructor. apply parse_table_wf.
Qed.

(** ** The single-file converter and the plugin pipeline *)

Lemma tsv_line_padded (cells : list str) (k : nat) :
  rstrip (join [TAB] (TxtWriter.safe_cells (cells ++ replicate k [])))
  = rstrip (join [TAB] (TxtWriter.safe_cells cells)).
Proof.
  rewrite safe_cells_padded.
  destruct (join_padded (TxtWriter.safe_cells cells) k) as (w & Hw & ->).
  apply rstrip_by_app_all, Hw.
Qed.

Lemma concat_map_singleton {A B : Type} (f : A -> B) (l : list A) :
  concat (map (fun x => [f x]) l) = map f l.
Proof. induction l as [|x l IH]; cbn; [|rewrite IH]; reflexivity. Qed.

Lemma format_table_tsv (rows : list (list str)) :
  TxtWriter._format_table rows (lit "tsv") true
  = map (fun row => rstrip (join [TAB] (TxtWriter.safe_cells row))) rows.
Proof.
  unfold TxtWriter._format_table. apply map_ext. intros row. cbn beta zeta.
  rewrite bool_decide_eq_true_2 by reflexivity.
  destruct (cells_is_padding true (TxtWriter.target_cols rows true) row)
    as [k ->].
  apply tsv_line_padded.
Qed.

Lemma table_to_lines_tsv (table : list DocxRow) :
  Legacy.table_to_lines table (lit "tsv") true
  = map (fun row =>
           rstrip (join [TAB]
             (TxtWriter.safe_cells
                (replicate (Z.to_nat (grid_or_zero (grid_cols_before row))) []
                 ++ map DocxReader._clean_text (row_cells row)
                 ++ replicate (Z.to_nat (grid_or_zero (grid_cols_after row))) []))))
        table.
Proof.
  unfold Legacy.table_to_lines.
  set (target := fold_left _ table 0).
  rewrite <- concat_map_singleton.
  rewrite (fold_left_append _
             (fun row =>
                [rstrip (join [TAB]
                   (TxtWriter.safe_cells
                      (replicate (Z.to_nat (grid_or_zero (grid_cols_before row))) []
                       ++ map DocxReader._clean_text (row_cells row)
                       ++ replicate (Z.to_nat (grid_or_zero (grid_cols_after row))) [])))])).
  - reflexivity.
  - intros acc row. cbn beta zeta.
    rewrite bool_decide_eq_true_2 by reflexivity. do 2 f_equal.
    change Legacy._clean_text with DocxReader._clean_text.
    destruct (_ && _); [|reflexivity].
    apply (tsv_line_padded _ _).
Qed.

Lemma body_lines_agree (i18n : I18nManager) (S : Markers) (ke it : bool)
    (items : list DocxReader.BlockItem) :
  t i18n (lit "table_marker") = table_marker S ->
  forall out : list str,
    fold_left (TxtWriter.render_block i18n it (lit "tsv") true)
              (concat (map (docx_item_blocks ke) items)) out
    = fold_left
        (fun out block =>
           match block with
           | DocxReader.Paragraph text =>
               let t := Legacy._clean_text text in
               if negb (bool_decide (t = [])) || ke
               then out ++ [t] else out
           | DocxReader.Table rows =>
               if it
               then ((out ++ [table_marker S])
                     ++ Legacy.table_to_lines rows (lit "tsv") true)
                    ++ [[]]
               else out
           end)
        items out.
Proof.
  intros Hmark.
  induction items as [|item items IH]; intros out; [reflexivity|].
  cbn [map concat]. rewrite fold_left_app. cbn [fold_left].
  rewrite IH. f_equal.
  destruct item as [text|rows]; cbn [docx_item_blocks].
  - unfold docx_paragraph_blocks. cbn zeta.
    change Legacy._clean_text with DocxReader._clean_text.
    destruct (negb _ || ke); reflexivity.
  - cbn [fold_left]. rewrite parse_table_rows.
    cbn [TxtWriter.render_block]. destruct it; [|reflexivity].
    rewrite Hmark, format_table_tsv, table_to_lines_tsv, map_map.
    reflexivity.
Qed.

(** X24. The plugin pipeline reproduces the single-file converter on body
    content: with headers and footers off, the tsv format and table
    normalisation on, the text [TxtWriter] assembles from the model
    [DocxReader] builds is, character for character, the text
    [extract_docx] returns for the same document and the same
    [include_tables] and [keep_empty_paragraphs] settings, provided both
    use the same table marker. *)
Theorem plugins_reproduce_extract_docx (doc : DocxDocument)
    (read_options : ReadOptions) (write_options : WriteOptions)
    (i18n : I18nManager) (S : Markers) (metadata : gmap str str) :
  default false (ro_include_headers read_options) = false ->
  default false (ro_include_footers read_options) = false ->
  default (lit "tsv") (wo_table_format write_options) = lit "tsv" ->
  default true (wo_normalize_tables write_options) = true ->
  t i18n (lit "table_marker") = table_marker S ->
  TxtWriter.text i18n
    (mkDocumentModel (DocxReader.read_blocks doc read_options) metadata)
    write_options
  = Legacy.extract_docx doc (default true (wo_include_tables write_options))
      (lit "tsv") true false false
      (default false (ro_keep_empty_paragraphs read_options)) S.
Proof.
  intros Hh Hf Hfmt Hnorm Hmark.
  unfold TxtWriter.text, Legacy.extract_docx. do 3 f_equal.
  unfold TxtWriter.out_lines. cbn [blocks]. rewrite Hfmt, Hnorm.
  rewrite read_blocks_closed. rewrite Hh, Hf. cbn [app].
  change (Legacy.iter_block_items doc) with (DocxReader.iter_block_items doc).
  apply body_lines_agree, Hmark.
Qed.

Lemma plugins_reproduce_extract_docx_witness :
  TxtWriter.text english
    (mkDocumentModel (DocxReader.read_blocks sample_doc no_read_options) ∅)
    no_write_options
  = Legacy.extract_docx sample_doc
      (default true (wo_include_tables no_write_options))
      (lit "tsv") true false false
      (default false (ro_keep_empty_paragraphs no_read_options))
      Legacy.I18N_en_US.
Proof.
  apply (plugins_reproduce_extract_docx sample_doc no_read_options
           no_write_options english Legacy.I18N_en_US ∅);
    reflexivity.
Defined.

(** ** Text writer: blank lines and plain paragraphs *)

Lemma join_snoc (sep : str) (parts : list str) (p : str) :
  parts <> [] -> join sep (parts ++ [p]) = join sep parts ++ sep ++ p.
Proof.
  induction parts as [|q parts IH]; intros Hne; [contradiction|].
  destruct parts as [|r parts]; [reflexivity|].
  change ((q :: r :: parts) ++ [p]) with (q :: r :: (parts ++ [p])).
  rewrite !join_cons2.
  change (r :: (parts ++ [p])) with ((r :: parts) ++ [p]).
  rewrite IH by discriminate. now rewrite <- !app_assoc.
Qed.

Lemma out_lines_snoc_paragraph (i18n : I18nManager) (bs : list Block)
    (metadata : gmap str str) (options : WriteOptions) (text : str) :
  TxtWriter.out_lines i18n
    (mkDocumentModel (bs ++ [ParagraphBlock text false false]) metadata)
    options
  = TxtWriter.out_lines i18n (mkDocumentModel bs metadata) options
    ++ [text].
Proof.
  unfold TxtWriter.out_lines. cbn [blocks].
  rewrite fold_left_app. reflexivity.
Qed.

(** X25. Blank lines at the end of a document do not reach the output: a
    body paragraph made of whitespace only (an empty paragraph kept by
    [keep_empty_paragraphs], for instance), put after the last block of a
    model, leaves the assembled text unchanged. *)
Theorem trailing_blank_paragraph_vanishes (i18n : I18nManager)
    (blocks : list Block) (metadata : gmap str str) (options : WriteOptions)
    (blank : str) :
  Forall (fun c => isspace c = true) blank ->
  TxtWriter.text i18n
    (mkDocumentModel (blocks ++ [ParagraphBlock blank false false]) metadata)
    options
  = TxtWriter.text i18n (mkDocumentModel blocks metadata) options.
Proof.
  intros Hblank. unfold TxtWriter.text. f_equal.
  rewrite out_lines_snoc_paragraph.
  destruct (TxtWriter.out_lines i18n (mkDocumentModel blocks metadata) options)
    as [|l ls].
  - cbn [app join]. unfold rstrip. rewrite rstrip_by_all by exact Hblank.
    reflexivity.
  - rewrite join_snoc by discriminate. unfold rstrip.
    apply rstrip_by_app_all. constructor; [reflexivity | exact Hblank].
Qed.

Lemma trailing_blank_paragraph_vanishes_witness :
  TxtWriter.text no_locales
    (mkDocumentModel (blocks hello_model ++ [ParagraphBlock [] false false]) ∅)
    no_write_options
  = TxtWriter.text no_locales (mkDocumentModel (blocks hello_model) ∅)
      no_write_options.
Proof.
  apply (trailing_blank_paragraph_vanishes no_locales (blocks hello_model) ∅
           no_write_options []).
  constructor.
Defined.

Lemma rstrip_by_keeps (p : char -> bool) (a b : str) :
  b <> [] -> rstrip_by p b = b -> rstrip_by p (a ++ b) = a ++ b.
Proof.
  intros Hne Hb. destruct (exists_last Hne) as (b0 & c & ->).
  pose proof (rstrip_by_last p _ _ _ Hb) as Hc.
  rewrite app_assoc. apply rstrip_by_snoc, Hc.
Qed.

Lemma render_paragraphs (i18n : I18nManager) (it : bool) (fmt : str)
    (norm : bool) (texts : list str) :
  forall acc,
    fold_left (TxtWriter.render_block i18n it fmt norm)
              (map (fun text => ParagraphBlock text false false) texts) acc
    = acc ++ texts.
Proof.
  induction texts as [|x texts IH]; intros acc; cbn [map fold_left].
  - now rewrite app_nil_r.
  - rewrite IH. cbn [TxtWriter.render_block]. rewrite <- app_assoc.
    reflexivity.
Qed.

(** X26. A document of plain body paragraphs is written one paragraph per
    line: when the last paragraph is not empty and does not end with
    whitespace, the assembled text is the paragraph texts joined by line
    feeds, followed by one line feed. *)
Theorem plain_paragraphs_text (i18n : I18nManager) (front : list str)
    (last_text : str) (metadata : gmap str str) (options : WriteOptions) :
  last_text <> [] -> rstrip last_text = last_text ->
  TxtWriter.text i18n
    (mkDocumentModel
       (map (fun text => ParagraphBlock text false false)
            (front ++ [last_text]))
       metadata) options
  = join [LF] (front ++ [last_text]) ++ [LF].
Proof.
  intros Hne Hlast. unfold TxtWriter.text, TxtWriter.out_lines.
  cbn [blocks]. rewrite render_paragraphs. cbn [app]. f_equal.
  destruct front as [|x front].
  - exact Hlast.
  - rewrite join_snoc by discriminate. unfold rstrip.
    rewrite app_assoc. apply rstrip_by_keeps; assumption.
Qed.

Lemma plain_paragraphs_text_witness :
  TxtWriter.text no_locales
    (mkDocumentModel
       (map (fun text => ParagraphBlock text false false)
            ([lit "Hello World"] ++ [lit "some text with extra spaces"]))
       ∅) no_write_options
  = join [LF] ([lit "Hello World"] ++ [lit "some text with extra spaces"])
    ++ [LF].
Proof.
  apply (plain_paragraphs_text no_locales [lit "Hello World"]
           (lit "some text with extra spaces") ∅ no_write_options);
    [discriminate | reflexivity].
Defined.

(** ** The engine with the text writer *)

Lemma write_plain_run `{Pathlib} (i18n : I18nManager)
    (model : DocumentModel) (output_path : str) (options : WriteOptions)
    (log : list io_event) :
  default false (wo_enable_chunk options) = false ->
  @TxtWriter.write i18n _ recording _ model output_path options log
  = Returned tt
      (log ++ [Mkdir (path_parent output_path);
               WriteText output_path (TxtWriter.text i18n model options)
                 (if default false (wo_utf8_bom options)
                  then utf_8_sig else utf_8)]).
Proof.
  intros Hoff. unfold TxtWriter.write. rewrite Hoff.
  unfold bind. cbn [mkdir_parents write_text recording].
  rewrite <- app_assoc. reflexivity.
Qed.

(** X27. One conversion from end to end, with the text writer registered
    for the output extension and chunking off: when the reader returns a
    model, [convert] returns normally and what it has done to the file
    system, after whatever the reader did, is to create the parent
    directory of [output_path] and to write one file, [output_path], holding
    the text of that model in the requested encoding. *)
Theorem convert_writes_the_text `{Pathlib} `{CaseMapping}
    (i18n : I18nManager) (registry : PluginRegistry.state (list io_event))
    (input_path output_path : str) (read_options : ReadOptions)
    (write_options : WriteOptions) (log log1 : list io_event)
    (ReaderCls : InputReader (list io_event)) (model : DocumentModel) :
  PluginRegistry.get_reader registry (lower (path_suffix input_path))
  = Some ReaderCls ->
  PluginRegistry.get_writer registry (lower (path_suffix output_path))
  = Some (mkOutputWriter (list io_event) TxtWriter.get_supported_extensions
            (@TxtWriter.write i18n _ recording _)) ->
  reader_read ReaderCls input_path read_options log = Returned model log1 ->
  default false (wo_enable_chunk write_options) = false ->
  CoreEngine.convert registry input_path output_path
    read_options write_options log
  = Returned tt
      (log1 ++ [Mkdir (path_parent output_path);
                WriteText output_path
                  (TxtWriter.text i18n model write_options)
                  (if default false (wo_utf8_bom write_options)
                   then utf_8_sig else utf_8)]).
Proof.
  intros Hr Hw Hread Hoff. unfold CoreEngine.convert.
  rewrite Hr, Hw. unfold try_except, bind. rewrite Hread.
  cbn [writer_write]. rewrite write_plain_run by assumption. reflexivity.
Qed.

Lemma convert_writes_the_text_witness :
  @CoreEngine.convert _ posix ascii_lower
    (registry_with (pdf_reader_of two_pages))
    (lit "two.pdf") (lit "out.txt") no_read_options no_write_options []
  = Returned tt
      ([] ++ [Mkdir (@path_parent posix (lit "out.txt"));
              WriteText (lit "out.txt")
                (TxtWriter.text no_locales two_pages_model no_write_options)
                (if default false (wo_utf8_bom no_write_options)
                 then utf_8_sig else utf_8)]).
Proof.
  apply (@convert_writes_the_text posix ascii_lower no_locales
           (registry_with (pdf_reader_of two_pages))
           (lit "two.pdf") (lit "out.txt") no_read_options no_write_options
           [] [] (pdf_reader_of two_pages) two_pages_model).
  - replace (@lower ascii_lower (@path_suffix posix (lit "two.pdf")))
      with (lit ".pdf") by (vm_compute; reflexivity).
    apply registry_with_reader. reflexivity.
  - replace (@lower ascii_lower (@path_suffix posix (lit "out.txt")))
      with (lit ".txt") by (vm_compute; reflexivity).
    apply registry_with_writer.
  - vm_compute. reflexivity.
  - reflexivity.
Defined.

(** ** Readers: metadata and table grids *)

Lemma source_and_type (file_path tag : str) :
  let metadata : gmap str str :=
    <[lit "source" := file_path]> (<[lit "type" := tag]> ∅) in
  metadata !! lit "source" = Some file_path
  /\ metadata !! lit "type" = Some tag.
Proof.
  cbn zeta. split; [apply lookup_insert_eq|].
  rewrite lookup_insert_ne by (intros E; vm_compute in E; discriminate E).
  apply lookup_insert_eq.
Qed.

(** X28. Every model a reader returns says where it comes from: its
    metadata maps "source" to the path that was read and "type" to the
    reader's format tag, "pdf" or "docx". *)
Theorem models_carry_source_and_type {W : Type} `{Pdfplumber W}
    `{PythonDocx W} (file_path : str) (options : ReadOptions) (w w' : W)
    (model : DocumentModel) :
  (PdfReader.read file_path options w = Returned model w' ->
   metadata model !! lit "source" = Some file_path
   /\ metadata model !! lit "type" = Some (lit "pdf"))
  /\ (DocxReader.read file_path options w = Returned model w' ->
      metadata model !! lit "source" = Some file_path
      /\ metadata model !! lit "type" = Some (lit "docx")).
Proof.
  split.
  - unfold PdfReader.read, bind, try_except, raise, ret. intros Hrun.
    destruct (pdf_open file_path w) as [pages w1|e w1|]; [| |discriminate].
    + destruct pages as [|page pages].
      * injection Hrun as <- _. apply source_and_type.
      * destruct (PdfReader.read_pages _ _ _ _ _); [|discriminate].
        injection Hrun as <- _. apply source_and_type.
    + destruct (is_Exception e); discriminate.
  - unfold DocxReader.read, bind, ret. intros Hrun.
    destruct (Document file_path w) as [doc w1|e w1|]; try discriminate.
    injection Hrun as <- _. apply source_and_type.
Qed.

(** X29. The grid of a parsed table: [_parse_table] keeps the rows in
    order, one for one, and each parsed row is the row's normalised cells
    between [grid_cols_before] empty cells and [grid_cols_after] empty
    cells, so that its length is the sum of the three; an attribute that is
    missing, [None] or negative adds no cell. *)
Theorem parsed_table_grid (table : list DocxRow) (is_header is_footer : bool) :
  exists rows,
    DocxReader._parse_table table is_header is_footer
    = TableBlock rows is_header is_footer
    /\ Forall2
         (fun row parsed =>
            exists before after,
              parsed = replicate before [] ++ map DocxReader._clean_text (row_cells row)
                       ++ replicate after []
              /\ Z.of_nat before = Z.max 0 (grid_or_zero (grid_cols_before row))
              /\ Z.of_nat after = Z.max 0 (grid_or_zero (grid_cols_after row))
              /\ len parsed
                 = Z.max 0 (grid_or_zero (grid_cols_before row))
                   + len (row_cells row)
                   + Z.max 0 (grid_or_zero (grid_cols_after row))
              /\ (grid_cols_before row = attr_absent
                  \/ grid_cols_before row = attr_none -> before = 0%nat)
              /\ (grid_cols_after row = attr_absent
                  \/ grid_cols_after row = attr_none -> after = 0%nat))
         table rows.
Proof.
  eexists. split; [apply parse_table_rows|].
  apply Forall2_fmap_r, Forall_Forall2_diag, Forall_forall.
  intros row _. eexists _, _. split; [reflexivity|].
  repeat split.
  - lia.
  - lia.
  - unfold len. rewrite !length_app, !length_replicate, length_map. lia.
  - intros [-> | ->]; reflexivity.
  - intros [-> | ->]; reflexivity.
Qed.
